(** * NoteTaking: client-side encryption utilities and the note model

    A shallow embedding of the module [utils/encryption.js] (AES-256-GCM
    with PBKDF2 key derivation on top of the Web Crypto API; its text is
    the second document of [src/hooks/useMobile.js]), of the note model
    [lib/noteModel.js] and of the reducer and the sign-up of
    [src/contexts/AuthContext.js].

    The JavaScript of the repository is translated function by function.
    What the repository calls but does not define (the Web Crypto
    primitives, [JSON], [TextEncoder]/[TextDecoder], Firestore, Firebase
    Auth) is an explicit interface: [WebPlatform], [Firestore] and
    [Firebase].  [btoa] and [atob] are written out, because the storage
    encoding is built from them. *)

From Stdlib Require Import String Ascii.
From Stdlib Require Import List NArith ZArith Lia Bool Arith.
From Stdlib.Strings Require Byte.
Import ListNotations.

Set Implicit Arguments.
Local Open Scope N_scope.

(** ** JavaScript data *)

(** A [Uint8Array] (or the bytes of an [ArrayBuffer]). *)
Definition byte := Byte.byte.
Definition Uint8Array := list byte.

(** A JavaScript string: a sequence of UTF-16 code units. *)
Definition DOMString : Type := list N.

(** A string literal of the source. *)
Definition js (s : string) : DOMString :=
  map N_of_ascii (list_ascii_of_string s).

(** Conversion of a number to an element of a [Uint8Array] (ToUint8). *)
Definition ToUint8 (n : N) : byte :=
  match Byte.of_N (n mod 256) with
  | Some b => b
  | None => Byte.x00
  end.

(** ** Exceptions and results *)

Inductive exn : Type :=
| DOMException (name : string)
| TypeError
| SyntaxError
| FirebaseError (code : string)
| Error (message : DOMString).

Inductive result (A : Type) : Type :=
| Ok (a : A)
| Err (e : exn).
Arguments Ok {A} a.
Arguments Err {A} e.

Definition rbind {A B} (r : result A) (k : A -> result B) : result B :=
  match r with
  | Ok a => k a
  | Err e => Err e
  end.

Declare Scope result_scope.
Delimit Scope result_scope with result.
Notation "'let?' x ':=' r 'in' k" := (rbind r (fun x => k))
  (at level 10, x pattern, r at level 100, k at level 200) : result_scope.

(** ** Base64: [btoa] and [atob]

    [btoa] is the base64 encoding of RFC 4648 applied to a binary string;
    [atob] is the forgiving-base64 decoding of the WHATWG Infra standard. *)

Module Base64.

Definition alphabet : DOMString :=
  js "ABCDEFGHIJKLMNOPQRSTUVWXYZabcdefghijklmnopqrstuvwxyz0123456789+/".

Definition pad : N := 61. (* "=" *)

Definition char_of_sextet (n : N) : N := nth (N.to_nat n) alphabet 0.

Definition sextet_of_char (c : N) : option N :=
  if (65 <=? c) && (c <=? 90) then Some (c - 65)
  else if (97 <=? c) && (c <=? 122) then Some (c - 71)
  else if (48 <=? c) && (c <=? 57) then Some (c + 4)
  else if c =? 43 then Some 62
  else if c =? 47 then Some 63
  else None.

(** Groups of three octets become four 6-bit values; a final group of one
    or two octets becomes two or three. *)
Fixpoint sextets (l : list N) : list N :=
  match l with
  | a :: b :: c :: rest =>
      a / 4 :: (a mod 4) * 16 + b / 16 :: (b mod 16) * 4 + c / 64 :: c mod 64
        :: sextets rest
  | [a; b] => [a / 4; (a mod 4) * 16 + b / 16; (b mod 16) * 4]
  | [a] => [a / 4; (a mod 4) * 16]
  | [] => []
  end.

(** Groups of four 6-bit values become three octets; a final group of
    three gives two octets and one of two gives one, the left-over bits
    being discarded. *)
Fixpoint octets (l : list N) : list N :=
  match l with
  | s1 :: s2 :: s3 :: s4 :: rest =>
      s1 * 4 + s2 / 16 :: (s2 mod 16) * 16 + s3 / 4 :: (s3 mod 4) * 64 + s4
        :: octets rest
  | [s1; s2; s3] => [s1 * 4 + s2 / 16; (s2 mod 16) * 16 + s3 / 4]
  | [s1; s2] => [s1 * 4 + s2 / 16]
  | _ => []
  end.

Definition padding (n : nat) : DOMString :=
  match Nat.modulo n 3 with
  | 1%nat => [pad; pad]
  | 2%nat => [pad]
  | _ => []
  end.

Definition encode (l : list N) : DOMString :=
  map char_of_sextet (sextets l) ++ padding (length l).

(** [btoa(data)]: throws InvalidCharacterError when a code unit is above
    0xFF. *)
Definition btoa (data : DOMString) : result DOMString :=
  if existsb (fun c => 255 <? c) data
  then Err (DOMException "InvalidCharacterError")
  else Ok (encode data).

Definition is_ascii_whitespace (c : N) : bool :=
  (c =? 9) || (c =? 10) || (c =? 12) || (c =? 13) || (c =? 32).

(** Removal of one or two trailing "=". *)
Definition strip_padding (data : DOMString) : DOMString :=
  match rev data with
  | c1 :: r1 =>
      if c1 =? pad then
        match r1 with
        | c2 :: r2 => if c2 =? pad then rev r2 else rev r1
        | [] => rev r1
        end
      else data
  | [] => data
  end.

Fixpoint traverse {A B} (f : A -> option B) (l : list A) : option (list B) :=
  match l with
  | [] => Some []
  | x :: r =>
      match f x, traverse f r with
      | Some y, Some ys => Some (y :: ys)
      | _, _ => None
      end
  end.

(** [atob(data)]. *)
Definition atob (data : DOMString) : result DOMString :=
  let data := filter (fun c => negb (is_ascii_whitespace c)) data in
  let data :=
    if Nat.eqb (Nat.modulo (length data) 4) 0 then strip_padding data else data in
  if Nat.eqb (Nat.modulo (length data) 4) 1
  then Err (DOMException "InvalidCharacterError")
  else
    match traverse sextet_of_char data with
    | None => Err (DOMException "InvalidCharacterError")
    | Some s => Ok (octets s)
    end.

(** The ranges of the two alphabets, and the check that a 6-bit value
    and its character determine each other, the character being neither
    the padding nor white space. *)
Definition is_octet (a : N) : Prop := a < 256.
Definition is_sextet (s : N) : Prop := s < 64.

Definition all_sextets : list N := map N.of_nat (seq 0 64).

Definition good_char (n : N) : bool :=
  match sextet_of_char (char_of_sextet n) with
  | Some m => (m =? n) && negb (char_of_sextet n =? pad)
              && negb (is_ascii_whitespace (char_of_sextet n))
  | None => false
  end.

End Base64.

(** ** [encryption.js]: storage encoding *)

(** [String.fromCharCode(byte)]. *)
Definition fromCharCode (b : byte) : DOMString := [Byte.to_N b].

(** [binary.charCodeAt(i)], for [i] below the length. *)
Definition charCodeAt (s : DOMString) (i : nat) : N := nth i s 0.

(** [arrayBufferToBase64(buffer)]:
    [bytes.reduce((acc, byte) => acc + String.fromCharCode(byte), '')]
    followed by [btoa]. *)
Definition arrayBufferToBase64 (buffer : Uint8Array) : result DOMString :=
  let bytes := buffer in
  let binary := fold_left (fun acc b => acc ++ fromCharCode b) bytes [] in
  Base64.btoa binary.

(** [base64ToArrayBuffer(base64)]: [atob], then the loop
    [bytes[i] = binary.charCodeAt(i)] over [0 <= i < binary.length]. *)
Definition base64ToArrayBuffer (base64 : DOMString) : result Uint8Array :=
  (let? binary := Base64.atob base64 in
   Ok (map (fun i => ToUint8 (charCodeAt binary i)) (seq 0 (length binary))))%result.

(** ** The platform interface

    What [encryption.js] and [noteModel.js] call but the repository does
    not define.  [value] is the type of ECMAScript values handled as
    opaque data (record contents, results of [JSON.parse]). *)

Record WebPlatform : Type := {
  value : Type;
  undefined : value;
  (** a string as a value *)
  of_string : DOMString -> value;
  (** the object literal [{ k1: v1, ..., kn: vn }] *)
  object : list (DOMString * value) -> value;
  (** the property read [v.k]; a TypeError on [null] and [undefined] *)
  get : value -> DOMString -> result value;
  (** [JSON.stringify(v)]; [None] is the result [undefined] *)
  JSON_stringify : value -> result (option DOMString);
  JSON_parse : DOMString -> result value;
  (** [new TextEncoder().encode(s)], [new TextDecoder().decode(b)] *)
  TextEncoder_encode : DOMString -> Uint8Array;
  TextDecoder_decode : Uint8Array -> DOMString;
  (** PBKDF2 with HMAC-SHA-256 (RFC 8018): octet [i] of the stream
      T_1 || T_2 || ... for a password, a salt and an iteration count *)
  PBKDF2_HMAC_SHA256 : Uint8Array -> Uint8Array -> N -> nat -> byte;
  (** AES-GCM (NIST SP 800-38D) without additional data: key, IV, tag
      length in bits, text.  Encryption returns ciphertext followed by the
      tag; decryption returns [None] when the input is shorter than the
      tag or the tag does not verify. *)
  AES_GCM_encrypt : Uint8Array -> Uint8Array -> N -> Uint8Array -> Uint8Array;
  AES_GCM_decrypt : Uint8Array -> Uint8Array -> N -> Uint8Array -> option Uint8Array;
  (** the [message] of an exception raised by the platform *)
  native_message : exn -> DOMString
}.

(** [error.message]. *)
Definition message (W : WebPlatform) (error : exn) : DOMString :=
  match error with
  | Error m => m
  | _ => native_message W error
  end.

(** [try { r } catch (error) { h error }] on results. *)
Definition rcatch {A} (r : result A) (h : exn -> result A) : result A :=
  match r with
  | Ok a => Ok a
  | Err e => h e
  end.

(** ** [crypto.subtle], after the W3C Web Cryptography API *)

Module Subtle.

Inductive KeyAlgorithm : Type :=
| PBKDF2
| AES_GCM (length : N).

Inductive KeyUsage : Type := Encrypt | Decrypt | DeriveKey | DeriveBits.

Definition usage_eqb (a b : KeyUsage) : bool :=
  match a, b with
  | Encrypt, Encrypt | Decrypt, Decrypt
  | DeriveKey, DeriveKey | DeriveBits, DeriveBits => true
  | _, _ => false
  end.

Definition has_usage (u : KeyUsage) (l : list KeyUsage) : bool :=
  existsb (usage_eqb u) l.

(** A [CryptoKey]; [handle] is the key material behind it. *)
Record CryptoKey : Type := {
  algorithm : KeyAlgorithm;
  extractable : bool;
  usages : list KeyUsage;
  handle : Uint8Array
}.

Record Pbkdf2Params : Type := {
  salt : Uint8Array;
  iterations : N;
  hash : string
}.

(** [iv = None] is a parameter object without the member [iv]. *)
Record AesGcmParams : Type := {
  iv : option Uint8Array;
  tagLength : N
}.

Definition InvalidAccessError := DOMException "InvalidAccessError".
Definition OperationError := DOMException "OperationError".
Definition DataError := DOMException "DataError".
Definition DOMSyntaxError := DOMException "SyntaxError".
Definition NotSupportedError := DOMException "NotSupportedError".

Definition is_aes_length (n : N) : bool :=
  (n =? 128) || (n =? 192) || (n =? 256).

Definition is_aes_gcm (a : KeyAlgorithm) : bool :=
  match a with AES_GCM _ => true | PBKDF2 => false end.

Definition is_pbkdf2 (a : KeyAlgorithm) : bool :=
  match a with PBKDF2 => true | AES_GCM _ => false end.

Definition is_tag_length (n : N) : bool :=
  existsb (N.eqb n) [32; 64; 96; 104; 112; 120; 128].

Section Api.
Context (W : WebPlatform).

(** [importKey('raw', keyData, algorithm, extractable, usages)]. *)
Definition importKey (keyData : Uint8Array) (alg : KeyAlgorithm)
    (extractable : bool) (usages : list KeyUsage) : result CryptoKey :=
  match alg with
  | PBKDF2 =>
      if negb (forallb (fun u => has_usage u [DeriveKey; DeriveBits]) usages)
      then Err DOMSyntaxError
      else if extractable then Err DOMSyntaxError
      else if Nat.eqb (length usages) 0 then Err DOMSyntaxError
      else Ok {| algorithm := PBKDF2; extractable := false;
                 usages := usages; handle := keyData |}
  | AES_GCM _ =>
      if negb (forallb (fun u => has_usage u [Encrypt; Decrypt]) usages)
      then Err DOMSyntaxError
      else if negb (is_aes_length (8 * N.of_nat (length keyData)))
      then Err DataError
      else if Nat.eqb (length usages) 0 then Err DOMSyntaxError
      else Ok {| algorithm := AES_GCM (8 * N.of_nat (length keyData));
                 extractable := extractable;
                 usages := usages; handle := keyData |}
  end.

(** The derive-bits operation of PBKDF2. *)
Definition PBKDF2_derive_bits (p : Pbkdf2Params) (key : CryptoKey) (len : N)
  : result Uint8Array :=
  if negb (len mod 8 =? 0) then Err OperationError
  else if iterations p =? 0 then Err OperationError
  else if negb (String.eqb (hash p) "SHA-256") then Err NotSupportedError
  else Ok (map (PBKDF2_HMAC_SHA256 W (handle key) (salt p) (iterations p))
               (seq 0 (N.to_nat (len / 8)))).

(** [deriveBits(algorithm, baseKey, length)]. *)
Definition deriveBits (p : Pbkdf2Params) (baseKey : CryptoKey) (len : N)
  : result Uint8Array :=
  if negb (is_pbkdf2 (algorithm baseKey)) then Err InvalidAccessError
  else if negb (has_usage DeriveBits (usages baseKey)) then Err InvalidAccessError
  else PBKDF2_derive_bits p baseKey len.

(** [deriveKey(algorithm, baseKey, derivedKeyType, extractable, usages)]:
    the bits of the derive-bits operation, of the length of the derived
    key type, imported as a raw key of that type. *)
Definition deriveKey (p : Pbkdf2Params) (baseKey : CryptoKey)
    (derivedKeyType : KeyAlgorithm) (extractable : bool)
    (usages' : list KeyUsage) : result CryptoKey :=
  (if negb (is_pbkdf2 (algorithm baseKey)) then Err InvalidAccessError
   else if negb (has_usage DeriveKey (usages baseKey)) then Err InvalidAccessError
   else
     match derivedKeyType with
     | PBKDF2 => Err NotSupportedError
     | AES_GCM len =>
         if negb (is_aes_length len) then Err OperationError
         else
           let? secret := PBKDF2_derive_bits p baseKey len in
           importKey secret derivedKeyType extractable usages'
     end)%result.

(** [encrypt({ name: 'AES-GCM', iv, tagLength }, key, data)].  The bounds
    of the standard on the sizes of the text and of the IV (2^39 - 256
    and 2^64 - 1 octets) are above the size of any buffer and are left
    out. *)
Definition encrypt (p : AesGcmParams) (key : CryptoKey) (data : Uint8Array)
  : result Uint8Array :=
  match iv p with
  | None => Err TypeError
  | Some iv =>
      if negb (is_aes_gcm (algorithm key)) then Err InvalidAccessError
      else if negb (has_usage Encrypt (usages key)) then Err InvalidAccessError
      else if negb (is_tag_length (tagLength p)) then Err OperationError
      else Ok (AES_GCM_encrypt W (handle key) iv (tagLength p) data)
  end.

(** [decrypt({ name: 'AES-GCM', iv, tagLength }, key, data)]; an input
    shorter than the tag and a tag that does not verify are both an
    OperationError. *)
Definition decrypt (p : AesGcmParams) (key : CryptoKey) (data : Uint8Array)
  : result Uint8Array :=
  match iv p with
  | None => Err TypeError
  | Some iv =>
      if negb (is_aes_gcm (algorithm key)) then Err InvalidAccessError
      else if negb (has_usage Decrypt (usages key)) then Err InvalidAccessError
      else if negb (is_tag_length (tagLength p)) then Err OperationError
      else
        match AES_GCM_decrypt W (handle key) iv (tagLength p) data with
        | Some plaintext => Ok plaintext
        | None => Err OperationError
        end
  end.

End Api.
End Subtle.

(** ** State: the random source *)

(** A computation over a state [S] that returns or throws. *)
Definition ST (S A : Type) : Type := S -> result A * S.

Definition ret {S A} (a : A) : ST S A := fun s => (Ok a, s).

Definition throw {S A} (e : exn) : ST S A := fun s => (Err e, s).

Definition bind {S A B} (m : ST S A) (k : A -> ST S B) : ST S B :=
  fun s =>
    match m s with
    | (Ok a, s') => k a s'
    | (Err e, s') => (Err e, s')
    end.

(** [try { m } catch (error) { h error }]: the effects of [m] up to the
    exception stay. *)
Definition try_catch {S A} (m : ST S A) (h : exn -> ST S A) : ST S A :=
  fun s =>
    match m s with
    | (Ok a, s') => (Ok a, s')
    | (Err e, s') => h e s'
    end.

(** [await] of a call that has no effect on the state. *)
Definition await {S A} (r : result A) : ST S A := fun s => (r, s).

Declare Scope st_scope.
Delimit Scope st_scope with st.
Notation "x <- m ;; k" := (bind m (fun x => k))
  (at level 61, m at next level, right associativity) : st_scope.
Notation "m ;;; k" := (bind m (fun _ => k))
  (at level 61, right associativity) : st_scope.

(** The bytes the secure random generator will return, in order. *)
Definition Entropy : Type := nat -> byte.

(** [crypto.getRandomValues(new Uint8Array(n))]. *)
Definition getRandomValues (n : nat) : ST Entropy Uint8Array :=
  fun e =>
    if 65536 <? N.of_nat n then (Err (DOMException "QuotaExceededError"), e)
    else (Ok (map e (seq 0 n)), fun i => e (n + i)%nat).

(** ** [encryption.js] *)

Definition PBKDF2_ITERATIONS : N := 100000.
Definition SALT_LENGTH : nat := 16.
Definition IV_LENGTH : nat := 12.
Definition TAG_LENGTH : N := 16.

(** The encrypted package returned by [encryptNote]. *)
Record EncryptedPackage : Type := {
  data : DOMString;
  iv : DOMString;
  salt : DOMString
}.

Definition generateSalt : ST Entropy Uint8Array := getRandomValues SALT_LENGTH.

Definition generateIV : ST Entropy Uint8Array := getRandomValues IV_LENGTH.

Section Encryption.
Context (W : WebPlatform).

Definition deriveKey (password : DOMString) (salt : Uint8Array)
  : result Subtle.CryptoKey :=
  (let passwordBuffer := TextEncoder_encode W password in
   let? keyMaterial :=
     Subtle.importKey passwordBuffer Subtle.PBKDF2 false [Subtle.DeriveKey] in
   Subtle.deriveKey W
     {| Subtle.salt := salt;
        Subtle.iterations := PBKDF2_ITERATIONS;
        Subtle.hash := "SHA-256" |}
     keyMaterial (Subtle.AES_GCM 256) false
     [Subtle.Encrypt; Subtle.Decrypt])%result.

(** [encoder.encode(s)] where [s] may be [undefined]: the argument then
    takes its default, the empty string. *)
Definition encode_optional (s : option DOMString) : Uint8Array :=
  TextEncoder_encode W (match s with Some s => s | None => [] end).

(** [encryptData(data, key, iv)]; [iv = None] is a call that omits the
    argument. *)
Definition encryptData (data : value W) (key : Subtle.CryptoKey)
    (iv : option Uint8Array) : result Uint8Array :=
  (let? json := JSON_stringify W data in
   let dataBuffer := encode_optional json in
   let? encryptedBuffer :=
     Subtle.encrypt W
       {| Subtle.iv := iv; Subtle.tagLength := TAG_LENGTH * 8 |}
       key dataBuffer in
   Ok encryptedBuffer)%result.

Definition decryptData (encryptedData : Uint8Array) (key : Subtle.CryptoKey)
    (iv : option Uint8Array) : result (value W) :=
  rcatch
    (let? decryptedBuffer :=
       Subtle.decrypt W
         {| Subtle.iv := iv; Subtle.tagLength := TAG_LENGTH * 8 |}
         key encryptedData in
     let decryptedString := TextDecoder_decode W decryptedBuffer in
     JSON_parse W decryptedString)%result
    (fun error =>
       Err (Error (js "Decryption failed: Invalid key or corrupted data"))).

Definition encryptNote (noteContent : value W) (userPassword : DOMString)
    (userSalt : Uint8Array) : ST Entropy EncryptedPackage :=
  try_catch
    (key <- await (deriveKey userPassword userSalt) ;;
     iv <- generateIV ;;
     encryptedData <- await (encryptData noteContent key (Some iv)) ;;
     data <- await (arrayBufferToBase64 encryptedData) ;;
     iv64 <- await (arrayBufferToBase64 iv) ;;
     salt64 <- await (arrayBufferToBase64 userSalt) ;;
     ret {| data := data; iv := iv64; salt := salt64 |})%st
    (fun error =>
       throw (Error (js "Encryption failed: " ++ message W error))).

Definition decryptNote (encryptedPackage : EncryptedPackage)
    (userPassword : DOMString) : result (value W) :=
  rcatch
    (let? encryptedData := base64ToArrayBuffer (data encryptedPackage) in
     let? iv := base64ToArrayBuffer (iv encryptedPackage) in
     let? salt := base64ToArrayBuffer (salt encryptedPackage) in
     let? key := deriveKey userPassword salt in
     decryptData encryptedData key (Some iv))%result
    (fun error =>
       Err (Error (js "Decryption failed: " ++ message W error))).

Definition hashPassword (password : DOMString) (salt : Uint8Array)
  : result DOMString :=
  (let passwordBuffer := TextEncoder_encode W password in
   let? keyMaterial :=
     Subtle.importKey passwordBuffer Subtle.PBKDF2 false [Subtle.DeriveBits] in
   let? hashBuffer :=
     Subtle.deriveBits W
       {| Subtle.salt := salt;
          Subtle.iterations := PBKDF2_ITERATIONS;
          Subtle.hash := "SHA-256" |}
       keyMaterial 256 in
   arrayBufferToBase64 hashBuffer)%result.

End Encryption.

(** ** Firestore, the document store behind [noteModel.js] *)

Inductive Time : Type :=
| serverTimestamp
| timestamp (t : N).

(** The data of a document of the collection ['notes']. *)
Record NoteDoc : Type := {
  encryptedData : option Uint8Array;
  userId : DOMString;
  category : DOMString;
  tags : option (list DOMString);
  createdAt : Time;
  updatedAt : Time;
  isDeleted : bool;
  isFavorite : bool
}.

Inductive FieldVal : Type :=
| FString (s : DOMString)
| FBool (b : bool).

Inductive QueryConstraint : Type :=
| where_eq (field : string) (v : FieldVal)
| orderBy_desc (field : string)
| limit (n : N).

Definition Query : Type := list QueryConstraint.

(** The calls on the collection ['notes']; [db] is the state of the store.
    [getDoc] returns [None] for a snapshot that does not exist. *)
Record Firestore : Type := {
  db : Type;
  addDoc : db -> NoteDoc -> result DOMString * db;
  getDoc : db -> DOMString -> result (option NoteDoc);
  getDocs : db -> Query -> result (list (DOMString * NoteDoc))
}.

(** ** [noteModel.js] *)

Section NoteModel.
Context (W : WebPlatform) (F : Firestore).

(** The store and the console. *)
Record World : Type := {
  database : db F;
  console : list (list DOMString * exn)
}.

Definition M (A : Type) : Type := ST World A.

Definition console_error (args : list DOMString) (error : exn) : M unit :=
  fun w =>
    (Ok tt, {| database := database w;
               console := console w ++ [(args, error)] |}).

Definition fs_addDoc (d : NoteDoc) : M DOMString :=
  fun w =>
    let (r, d') := addDoc F (database w) d in
    (r, {| database := d'; console := console w |}).

Definition fs_getDoc (noteId : DOMString) : M (option NoteDoc) :=
  fun w => (getDoc F (database w) noteId, w).

Definition fs_getDocs (q : Query) : M (list (DOMString * NoteDoc)) :=
  fun w => (getDocs F (database w) q, w).

(** A note as the model hands it to its caller: [{ id, ...data }], with
    [title] and [content] once decrypted. *)
Record Note : Type := {
  id : DOMString;
  stored : NoteDoc;
  title : value W;
  content : value W
}.

Definition set_title (n : Note) (v : value W) : Note :=
  {| id := id n; stored := stored n; title := v; content := content n |}.

Definition set_content (n : Note) (v : value W) : Note :=
  {| id := id n; stored := stored n; title := title n; content := v |}.

(** An instance of the class [NoteModel]. *)
Record NoteModel : Type := {
  this_userId : DOMString;
  this_encryptionKey : Subtle.CryptoKey
}.

(** The argument of [createNote]; [None] is a property left out. *)
Record NoteData : Type := {
  nd_title : value W;
  nd_content : value W;
  nd_category : option DOMString;
  nd_tags : option (list DOMString)
}.

Definition or_default {A} (o : option A) (d : A) : A :=
  match o with Some a => a | None => d end.

Definition createNote (this : NoteModel) (noteData : NoteData) : M Note :=
  try_catch
    (let title := nd_title noteData in
     let content := nd_content noteData in
     let category := or_default (nd_category noteData) (js "default") in
     let tags := or_default (nd_tags noteData) [] in
     let dataToEncrypt :=
       object W [(js "title", title); (js "content", content)] in
     encryptedData <-
       await (encryptData W dataToEncrypt (this_encryptionKey this) None) ;;
     let note :=
       {| encryptedData := Some encryptedData;
          userId := this_userId this;
          category := category;
          tags := Some tags;
          createdAt := serverTimestamp;
          updatedAt := serverTimestamp;
          isDeleted := false;
          isFavorite := false |} in
     docRef <- fs_addDoc note ;;
     ret {| id := docRef; stored := note;
            title := undefined W; content := undefined W |})%st
    (fun error =>
       console_error [js "Error creating note:"] error ;;;
       throw (Error (js "Failed to create note")))%st.

Definition getNote (this : NoteModel) (noteId : DOMString) : M (option Note) :=
  try_catch
    (noteDoc <- fs_getDoc noteId ;;
     match noteDoc with
     | None => ret None
     | Some d =>
         let noteData :=
           {| id := noteId; stored := d;
              title := undefined W; content := undefined W |} in
         match encryptedData d with
         | Some ed =>
             decryptedData <-
               await (decryptData W ed (this_encryptionKey this) None) ;;
             t <- await (get W decryptedData (js "title")) ;;
             let noteData := set_title noteData t in
             c <- await (get W decryptedData (js "content")) ;;
             let noteData := set_content noteData c in
             ret (Some noteData)
         | None => ret (Some noteData)
         end
     end)%st
    (fun error =>
       console_error [js "Error getting note:"] error ;;;
       throw (Error (js "Failed to get note")))%st.

(** The argument of [getNotes]; [None] is a property left out. *)
Record Options : Type := {
  o_category : option DOMString;
  o_tags : option (list DOMString);
  o_limit : option N;
  o_includeDeleted : option bool;
  o_favoritesOnly : option bool
}.

Fixpoint DOMString_eqb (a b : DOMString) : bool :=
  match a, b with
  | [], [] => true
  | x :: a', y :: b' => (x =? y) && DOMString_eqb a' b'
  | _, _ => false
  end.

(** [noteTags.includes(tag)]. *)
Definition includes (l : list DOMString) (x : DOMString) : bool :=
  existsb (DOMString_eqb x) l.

(** [for (const x of l) { body }] over an accumulator. *)
Fixpoint for_of {S A B} (l : list A) (body : B -> A -> ST S B) (acc : B)
  : ST S B :=
  match l with
  | [] => ret acc
  | x :: r => (acc' <- body acc x ;; for_of r body acc')%st
  end.

(** The body of the loop of [getNotes] up to the tag filter: the note of
    one document, decrypted or marked. *)
Definition read_doc (this : NoteModel) (doc : DOMString * NoteDoc) : M Note :=
  let noteData :=
    {| id := fst doc; stored := snd doc;
       title := undefined W; content := undefined W |} in
  match encryptedData (stored noteData) with
  | Some ed =>
      try_catch
        (decryptedData <-
           await (decryptData W ed (this_encryptionKey this) None) ;;
         t <- await (get W decryptedData (js "title")) ;;
         let noteData := set_title noteData t in
         c <- await (get W decryptedData (js "content")) ;;
         let noteData := set_content noteData c in
         ret noteData)%st
        (fun decryptError =>
           console_error [js "Error decrypting note:"; fst doc] decryptError ;;;
           let noteData :=
             set_title noteData (of_string W (js "[Decryption Error]")) in
           let noteData :=
             set_content noteData
               (of_string W (js "[Unable to decrypt note content]")) in
           ret noteData)%st
  | None => ret noteData
  end.

(** [noteData.tags || []]. *)
Definition noteTags_of (noteData : Note) : list DOMString :=
  or_default (tags (stored noteData)) [].

(** The tag filter of the loop: [tags.length > 0] and
    [tags.some(tag => noteTags.includes(tag))]. *)
Definition hasTag (tags : list DOMString) (noteData : Note) : bool :=
  let noteTags := noteTags_of noteData in
  existsb (fun tag => includes noteTags tag) tags.

(** A string is truthy when it is not empty, a number when it is not 0. *)
Definition truthy_string (o : option DOMString) : bool :=
  match o with
  | Some (_ :: _) => true
  | _ => false
  end.

(** The query that [getNotes] builds from its options. *)
Definition notes_query (this : NoteModel) (options : Options) : Query :=
  let category := o_category options in
  let limitCount := or_default (o_limit options) 50 in
  let includeDeleted := or_default (o_includeDeleted options) false in
  let favoritesOnly := or_default (o_favoritesOnly options) false in
  let q :=
    [where_eq "userId" (FString (this_userId this));
     where_eq "isDeleted" (FBool includeDeleted);
     orderBy_desc "updatedAt"] in
  let q :=
    if truthy_string category
    then q ++ [where_eq "category" (FString (or_default category []))]
    else q in
  let q :=
    if favoritesOnly then q ++ [where_eq "isFavorite" (FBool true)] else q in
  let q := if negb (limitCount =? 0) then q ++ [limit limitCount] else q in
  q.

Definition getNotes (this : NoteModel) (options : Options) : M (list Note) :=
  try_catch
    (let tags := or_default (o_tags options) [] in
     let q := notes_query this options in
     querySnapshot <- fs_getDocs q ;;
     for_of querySnapshot
       (fun notes doc =>
          noteData <- read_doc this doc ;;
          if Nat.ltb 0 (length tags)
          then
            if hasTag tags noteData
            then ret (notes ++ [noteData])
            else ret notes
          else ret (notes ++ [noteData]))
       [])%st
    (fun error =>
       console_error [js "Error getting notes:"] error ;;;
       throw (Error (js "Failed to get notes")))%st.

End NoteModel.

(** ** [AuthContext.js]: the reducer and the sign-up *)

Record User : Type := {
  uid : DOMString;
  user_email : DOMString;
  user_emailVerified : bool
}.

Record AuthState : Type := {
  user : option User;
  loading : bool;
  error : option DOMString;
  userSalt : option DOMString;
  isEmailVerified : bool
}.

Definition initialState : AuthState :=
  {| user := None; loading := true; error := None; userSalt := None;
     isEmailVerified := false |}.

Inductive Action : Type :=
| SET_LOADING (payload : bool)
| SET_USER (payload_user : option User) (payload_userSalt : option DOMString)
| SET_ERROR (payload : DOMString)
| CLEAR_ERROR
| SIGN_OUT.

Definition authReducer (state : AuthState) (action : Action) : AuthState :=
  match action with
  | SET_LOADING payload =>
      {| user := user state; loading := payload; error := error state;
         userSalt := userSalt state; isEmailVerified := isEmailVerified state |}
  | SET_USER u s =>
      {| user := u; loading := false; error := None; userSalt := s;
         isEmailVerified :=
           match u with Some u => user_emailVerified u | None => false end |}
  | SET_ERROR payload =>
      {| user := user state; loading := false; error := Some payload;
         userSalt := userSalt state; isEmailVerified := isEmailVerified state |}
  | CLEAR_ERROR =>
      {| user := user state; loading := loading state; error := None;
         userSalt := userSalt state; isEmailVerified := isEmailVerified state |}
  | SIGN_OUT =>
      {| user := user initialState; loading := false;
         error := error initialState; userSalt := userSalt initialState;
         isEmailVerified := isEmailVerified initialState |}
  end.

(** [error.code]: the code of a Firebase error; other exceptions carry
    none that the switch below knows. *)
Definition code (error : exn) : option string :=
  match error with
  | FirebaseError c => Some c
  | _ => None
  end.

Definition getFirebaseErrorMessage (errorCode : option string) : DOMString :=
  match errorCode with
  | Some c =>
      if String.eqb c "auth/email-already-in-use"
      then js "An account with this email already exists."
      else if String.eqb c "auth/weak-password"
      then js "Password should be at least 6 characters long."
      else if String.eqb c "auth/invalid-email"
      then js "Please enter a valid email address."
      else if String.eqb c "auth/user-not-found"
      then js "No account found with this email address."
      else if String.eqb c "auth/wrong-password"
      then js "Incorrect password. Please try again."
      else if String.eqb c "auth/too-many-requests"
      then js "Too many failed attempts. Please try again later."
      else if String.eqb c "auth/network-request-failed"
      then js "Network error. Please check your connection."
      else if String.eqb c "auth/requires-recent-login"
      then js "Please log in again to complete this action."
      else js "An unexpected error occurred. Please try again."
  | None => js "An unexpected error occurred. Please try again."
  end.

Record Preferences : Type := {
  theme : DOMString;
  autoSave : bool;
  wordCount : bool
}.

(** The data of a document of the collection ['users']. *)
Record UserDoc : Type := {
  u_email : DOMString;
  u_displayName : DOMString;
  encryptionSalt : DOMString;
  passwordHash : DOMString;
  u_createdAt : DOMString;
  emailVerified : bool;
  preferences : Preferences
}.

(** Firebase Auth and the collection ['users']: [auth] and [users] are
    the states of the two services. *)
Record Firebase : Type := {
  auth : Type;
  users : Type;
  createUserWithEmailAndPassword :
    auth -> DOMString -> DOMString -> result User * auth;
  updateProfile : auth -> User -> DOMString -> result unit * auth;
  sendEmailVerification : auth -> User -> result unit * auth;
  setDoc : users -> DOMString -> UserDoc -> result unit * users
}.

(** What [signUp] returns: [{ success: true, message }] or
    [{ success: false, error }]. *)
Inductive Outcome : Type :=
| Success (message : DOMString)
| Failure (error : DOMString).

Section SignUp.
Context (W : WebPlatform) (B : Firebase).

(** The services, the random source, the clock and the reducer state. *)
Record Session : Type := {
  s_auth : auth B;
  s_users : users B;
  s_entropy : Entropy;
  s_now : DOMString;
  s_state : AuthState
}.

Definition dispatch (action : Action) : ST Session unit :=
  fun s =>
    (Ok tt, {| s_auth := s_auth s; s_users := s_users s;
               s_entropy := s_entropy s; s_now := s_now s;
               s_state := authReducer (s_state s) action |}).

Definition on_auth {A} (f : auth B -> result A * auth B) : ST Session A :=
  fun s =>
    let (r, a) := f (s_auth s) in
    (r, {| s_auth := a; s_users := s_users s; s_entropy := s_entropy s;
           s_now := s_now s; s_state := s_state s |}).

Definition on_users {A} (f : users B -> result A * users B) : ST Session A :=
  fun s =>
    let (r, u) := f (s_users s) in
    (r, {| s_auth := s_auth s; s_users := u; s_entropy := s_entropy s;
           s_now := s_now s; s_state := s_state s |}).

Definition on_entropy {A} (m : ST Entropy A) : ST Session A :=
  fun s =>
    let (r, e) := m (s_entropy s) in
    (r, {| s_auth := s_auth s; s_users := s_users s; s_entropy := e;
           s_now := s_now s; s_state := s_state s |}).

(** [new Date().toISOString()]. *)
Definition toISOString_now : ST Session DOMString :=
  fun s => (Ok (s_now s), s).

Definition signUp (email password displayName : DOMString)
  : ST Session Outcome :=
  try_catch
    (dispatch (SET_LOADING true) ;;;
     dispatch CLEAR_ERROR ;;;
     user <- on_auth (fun a =>
               createUserWithEmailAndPassword B a email password) ;;
     on_auth (fun a => updateProfile B a user displayName) ;;;
     encryptionSalt <- on_entropy generateSalt ;;
     saltBase64 <- await (arrayBufferToBase64 encryptionSalt) ;;
     passwordHash <- await (hashPassword W password encryptionSalt) ;;
     createdAt <- toISOString_now ;;
     on_users (fun u =>
       setDoc B u (uid user)
         {| u_email := user_email user;
            u_displayName := displayName;
            encryptionSalt := saltBase64;
            passwordHash := passwordHash;
            u_createdAt := createdAt;
            emailVerified := false;
            preferences :=
              {| theme := js "light"; autoSave := true; wordCount := true |}
         |}) ;;;
     on_auth (fun a => sendEmailVerification B a user) ;;;
     ret (Success
            (js "Account created successfully! Please verify your email.")))%st
    (fun error =>
       let errorMessage := getFirebaseErrorMessage (code error) in
       dispatch (SET_ERROR errorMessage) ;;;
       ret (Failure errorMessage))%st.

End SignUp.

(** ** Contracts of the platform

    The properties of the primitives that the statements below rely on,
    each named where it is assumed. *)

(** Decryption under the key and IV of the encryption returns the text. *)
Definition gcm_correct (W : WebPlatform) : Prop :=
  forall key iv t p,
    AES_GCM_decrypt W key iv t (AES_GCM_encrypt W key iv t p) = Some p.

(** Bit [i mod 8] of octet [i / 8] inverted. *)
Definition flip_bit (i : nat) (ct : Uint8Array) : Uint8Array :=
  firstn (i / 8) ct ++
  match skipn (i / 8) ct with
  | b :: r => ToUint8 (N.lxor (Byte.to_N b) (2 ^ N.of_nat (i mod 8))) :: r
  | [] => []
  end.

(** The tag check under [key] and [iv] rejects [ct] with any one bit
    inverted. *)
Definition gcm_rejects_bit_flips (W : WebPlatform) (key iv ct : Uint8Array)
  : Prop :=
  forall i, (i < 8 * length ct)%nat ->
    AES_GCM_decrypt W key iv 128 (flip_bit i ct) = None.

(** Two 96-bit IVs give two outputs for the same key and text. *)
Definition gcm_nonce_sensitive (W : WebPlatform) : Prop :=
  forall key iv1 iv2 p,
    length iv1 = 12%nat -> length iv2 = 12%nat -> iv1 <> iv2 ->
    AES_GCM_encrypt W key iv1 128 p <> AES_GCM_encrypt W key iv2 128 p.

(** A value that [JSON.stringify], UTF-8 and [JSON.parse] take back to
    itself. *)
Definition json_serializable (W : WebPlatform) (R : value W) : Prop :=
  exists s,
    JSON_stringify W R = Ok (Some s) /\
    TextDecoder_decode W (TextEncoder_encode W s) = s /\
    JSON_parse W s = Ok R.

(** ** Vocabulary of the statements *)

Section Vocabulary.
Context (W : WebPlatform) (F : Firestore).

(** The octets PBKDF2 yields for a password and a salt with the iteration
    count of [encryption.js], 256 bits of them. *)
Definition pbkdf2_bits (password : DOMString) (salt : Uint8Array) : Uint8Array :=
  map (PBKDF2_HMAC_SHA256 W (TextEncoder_encode W password) salt
         PBKDF2_ITERATIONS)
      (seq 0 32).

(** The key that [deriveKey] returns for a password and a salt. *)
Definition derived_key (password : DOMString) (salt : Uint8Array)
  : Subtle.CryptoKey :=
  {| Subtle.algorithm := Subtle.AES_GCM 256;
     Subtle.extractable := false;
     Subtle.usages := [Subtle.Encrypt; Subtle.Decrypt];
     Subtle.handle := pbkdf2_bits password salt |}.

(** The error of [decryptData]. *)
Definition decryption_failed : exn :=
  Error (js "Decryption failed: Invalid key or corrupted data").

(** The error of [decryptNote] when [decryptData] has failed. *)
Definition decryption_failed_twice : exn :=
  Error (js "Decryption failed: Decryption failed: Invalid key or corrupted data").

(** The ciphertext inside the package of [encryptNote]. *)
Definition sealed_bytes (json : option DOMString) (password : DOMString)
    (salt iv : Uint8Array) : Uint8Array :=
  AES_GCM_encrypt W (pbkdf2_bits password salt) iv 128
    (encode_optional W json).

(** The package that carries a ciphertext, an IV and a salt. *)
Definition envelope (ct iv salt : Uint8Array) : EncryptedPackage :=
  {| data := Base64.encode (map Byte.to_N ct);
     iv := Base64.encode (map Byte.to_N iv);
     salt := Base64.encode (map Byte.to_N salt) |}.

(** The plaintext [createNote] hands to [encryptData]. *)
Definition dataToEncrypt (noteData : NoteData W) : value W :=
  object W [(js "title", nd_title noteData); (js "content", nd_content noteData)].

Definition logged (w : World F) (args : list DOMString) (e : exn) : World F :=
  {| database := database w; console := console w ++ [(args, e)] |}.

(** The document [createNote] builds around a ciphertext. *)
Definition new_note (this : NoteModel) (noteData : NoteData W)
    (ct : Uint8Array) : NoteDoc :=
  {| encryptedData := Some ct;
     userId := this_userId this;
     category := or_default (nd_category noteData) (js "default");
     tags := Some (or_default (nd_tags noteData) []);
     createdAt := serverTimestamp;
     updatedAt := serverTimestamp;
     isDeleted := false;
     isFavorite := false |}.

(** A note marked as undecryptable by the loop of [getNotes]. *)
Definition flagged (doc : DOMString * NoteDoc) : Note W :=
  {| id := fst doc; stored := snd doc;
     title := of_string W (js "[Decryption Error]");
     content := of_string W (js "[Unable to decrypt note content]") |}.

(** The title and content [this] decrypts out of a ciphertext. *)
Definition decrypted_fields (this : NoteModel) (ed : Uint8Array)
  : result (value W * value W) :=
  (let? decryptedData := decryptData W ed (this_encryptionKey this) None in
   let? t := get W decryptedData (js "title") in
   let? c := get W decryptedData (js "content") in
   Ok (t, c))%result.

(** The note the loop of [getNotes] makes of one document. *)
Definition note_of (this : NoteModel) (doc : DOMString * NoteDoc) : Note W :=
  match encryptedData (snd doc) with
  | Some ed =>
      match decrypted_fields this ed with
      | Ok (t, c) =>
          {| id := fst doc; stored := snd doc; title := t; content := c |}
      | Err _ => flagged doc
      end
  | None =>
      {| id := fst doc; stored := snd doc;
         title := undefined W; content := undefined W |}
  end.

(** The filter of the loop of [getNotes]. *)
Definition kept (tags : list DOMString) (n : Note W) : bool :=
  if Nat.ltb 0 (length tags) then hasTag tags n else true.

End Vocabulary.

(** ** A small executable platform

    An instance of [WebPlatform] and of [Firestore] on which the
    functions above run: JSON restricted to [null], strings without
    escapes and objects of these; ASCII for UTF-8; a shift cipher with a
    16-octet tag (the IV and a checksum) in place of AES-GCM.  It stands
    in for the browser in the examples only. *)

Module Mini.

Unset Elimination Schemes.
Inductive jsval : Type :=
| VUndefined
| VNull
| VString (s : DOMString)
| VObject (fields : list (DOMString * jsval)).
Set Elimination Schemes.

Fixpoint lookup (k : DOMString) (fields : list (DOMString * jsval)) : jsval :=
  match fields with
  | [] => VUndefined
  | (k', v) :: r =>
      match lookup k r with
      | VUndefined => if DOMString_eqb k k' then v else VUndefined
      | v' => v'
      end
  end.

Definition property (v : jsval) (k : DOMString) : result jsval :=
  match v with
  | VUndefined | VNull => Err TypeError
  | VString _ => Ok VUndefined
  | VObject fields => Ok (lookup k fields)
  end.

Definition quote (s : DOMString) : DOMString := 34 :: s ++ [34].

Fixpoint stringify (v : jsval) : option DOMString :=
  match v with
  | VUndefined => None
  | VNull => Some (js "null")
  | VString s => Some (quote s)
  | VObject fields =>
      let members :=
        (fix members (l : list (DOMString * jsval)) : list DOMString :=
           match l with
           | [] => []
           | (k, v) :: r =>
               match stringify v with
               | Some t => (quote k ++ 58 :: t) :: members r
               | None => members r
               end
           end) fields in
      Some (123 :: concat (match members with
                           | [] => []
                           | m :: ms => m :: map (cons 44) ms
                           end) ++ [125])
  end.

(** The characters up to the next double quote, and what follows it. *)
Fixpoint read_string (s : DOMString) : option (DOMString * DOMString) :=
  match s with
  | [] => None
  | c :: r =>
      if c =? 34 then Some ([], r)
      else
        match read_string r with
        | Some (t, rest) => Some (c :: t, rest)
        | None => None
        end
  end.

(** A member value: [null] or a string. *)
Definition read_value (s : DOMString) : option (jsval * DOMString) :=
  match s with
  | 110 :: 117 :: 108 :: 108 :: rest => Some (VNull, rest)
  | 34 :: r =>
      match read_string r with
      | Some (t, rest) => Some (VString t, rest)
      | None => None
      end
  | _ => None
  end.

Fixpoint read_members (fuel : nat) (s : DOMString)
  : option (list (DOMString * jsval)) :=
  match fuel with
  | O => None
  | S fuel =>
      match s with
      | 34 :: r =>
          match read_string r with
          | Some (k, 58 :: r') =>
              match read_value r' with
              | Some (v, [125]) => Some [(k, v)]
              | Some (v, 44 :: r'') =>
                  match read_members fuel r'' with
                  | Some l => Some ((k, v) :: l)
                  | None => None
                  end
              | _ => None
              end
          | _ => None
          end
      | _ => None
      end
  end.

Definition parse (s : DOMString) : result jsval :=
  match s with
  | [123; 125] => Ok (VObject [])
  | 123 :: r =>
      match read_members (length r) r with
      | Some l => Ok (VObject l)
      | None => Err SyntaxError
      end
  | _ =>
      match read_value s with
      | Some (v, []) => Ok v
      | _ => Err SyntaxError
      end
  end.

Definition utf8_encode (s : DOMString) : Uint8Array :=
  map (fun c => if c <? 128 then ToUint8 c else Byte.x3f) s.

Definition utf8_decode (b : Uint8Array) : DOMString :=
  map (fun x => if Byte.to_N x <? 128 then Byte.to_N x else 65533) b.

Definition checksum (l : Uint8Array) : N :=
  fold_left (fun a b => a + Byte.to_N b) l 0.

Definition kdf (password salt : Uint8Array) (iterations : N) (i : nat) : byte :=
  ToUint8 (checksum password + 3 * checksum salt + iterations + 7 * N.of_nat i).

Definition le32 (n : N) : Uint8Array :=
  [ToUint8 n; ToUint8 (n / 256); ToUint8 (n / 65536); ToUint8 (n / 16777216)].

Definition tag (key iv body : Uint8Array) : Uint8Array :=
  firstn 12 (iv ++ repeat Byte.x00 12) ++ le32 (checksum body + checksum key).

Definition seal (key iv : Uint8Array) (t : N) (p : Uint8Array) : Uint8Array :=
  let body := map (fun b => ToUint8 (Byte.to_N b + checksum key)) p in
  body ++ tag key iv body.

Fixpoint bytes_eqb (a b : Uint8Array) : bool :=
  match a, b with
  | [], [] => true
  | x :: a', y :: b' => Byte.eqb x y && bytes_eqb a' b'
  | _, _ => false
  end.

Definition unseal (key iv : Uint8Array) (t : N) (c : Uint8Array)
  : option Uint8Array :=
  if Nat.ltb (length c) 16 then None
  else
    let body := firstn (length c - 16) c in
    if bytes_eqb (skipn (length c - 16) c) (tag key iv body)
    then Some (map (fun b => ToUint8 (Byte.to_N b + 256 - checksum key mod 256))
                   body)
    else None.

Definition text_of (e : exn) : DOMString :=
  match e with
  | DOMException name => js name
  | TypeError => js "TypeError"
  | SyntaxError => js "SyntaxError"
  | FirebaseError code => js code
  | Error m => m
  end.

Definition platform : WebPlatform := {|
  value := jsval;
  undefined := VUndefined;
  of_string := VString;
  object := VObject;
  get := property;
  JSON_stringify := fun v => Ok (stringify v);
  JSON_parse := parse;
  TextEncoder_encode := utf8_encode;
  TextDecoder_decode := utf8_decode;
  PBKDF2_HMAC_SHA256 := kdf;
  AES_GCM_encrypt := seal;
  AES_GCM_decrypt := unseal;
  native_message := text_of
|}.

Definition field_matches (uid : DOMString) (d : NoteDoc) (c : QueryConstraint)
  : bool :=
  match c with
  | where_eq f (FString s) =>
      if String.eqb f "userId" then DOMString_eqb (userId d) s
      else if String.eqb f "category" then DOMString_eqb (category d) s
      else false
  | where_eq f (FBool b) =>
      if String.eqb f "isDeleted" then Bool.eqb (isDeleted d) b
      else if String.eqb f "isFavorite" then Bool.eqb (isFavorite d) b
      else false
  | _ => true
  end.

Definition run_query (docs : list (DOMString * NoteDoc)) (q : Query)
  : list (DOMString * NoteDoc) :=
  let hits :=
    filter (fun d => forallb (field_matches (fst d) (snd d)) q) docs in
  fold_left
    (fun l c => match c with limit n => firstn (N.to_nat n) l | _ => l end)
    q hits.

Definition lookup_doc (docs : list (DOMString * NoteDoc)) (k : DOMString)
  : option NoteDoc :=
  match filter (fun d => DOMString_eqb (fst d) k) docs with
  | d :: _ => Some (snd d)
  | [] => None
  end.

(** A store that is a list of documents; the identifier of a new document
    is the letter "n" followed by its position. *)
Definition store : Firestore := {|
  db := list (DOMString * NoteDoc);
  addDoc := fun docs d =>
    let k := 110 :: [48 + N.of_nat (length docs)] in
    (Ok k, docs ++ [(k, d)]);
  getDoc := fun docs k => Ok (lookup_doc docs k);
  getDocs := fun docs q => Ok (run_query docs q)
|}.

(** The inputs of the examples. *)
Definition password : DOMString := js "CorrectHorse1!".

Definition salt16 : Uint8Array :=
  [Byte.x00; Byte.x01; Byte.x02; Byte.x03; Byte.x04; Byte.x05; Byte.x06;
   Byte.x07; Byte.x08; Byte.x09; Byte.x0a; Byte.x0b; Byte.x0c; Byte.x0d;
   Byte.x0e; Byte.x0f].

Definition note_AB : jsval :=
  VObject [(js "title", VString (js "A")); (js "content", VString (js "B"))].

(** A random source that counts upwards from [start]. *)
Definition counter (start : nat) : Entropy :=
  fun i => ToUint8 (N.of_nat (start + i)).

(** The key of [password] and [salt16]. *)
Definition key : Subtle.CryptoKey :=
  {| Subtle.algorithm := Subtle.AES_GCM 256;
     Subtle.extractable := false;
     Subtle.usages := [Subtle.Encrypt; Subtle.Decrypt];
     Subtle.handle :=
       map (kdf (utf8_encode password) salt16 PBKDF2_ITERATIONS) (seq 0 32) |}.

(** The first draw of [counter 0]. *)
Definition iv12 : Uint8Array := map (counter 0) (seq 0 12).

Definition or_empty {A} (r : result (list A)) : list A :=
  match r with Ok l => l | Err _ => [] end.

(** [note_AB] sealed under [key] and [iv12]; the same with its first bit
    inverted; and a sealed text that is not JSON. *)
Definition sealed : Uint8Array :=
  or_empty (encryptData platform note_AB key (Some iv12)).

Definition tampered : Uint8Array := flip_bit 0 sealed.

(** The package [encryptNote] returns for [note_AB] on [counter 0]. *)
Definition package : EncryptedPackage :=
  match fst (encryptNote platform note_AB password salt16 (counter 0)) with
  | Ok p => p
  | Err _ => {| data := []; iv := []; salt := [] |}
  end.

Definition garbled : Uint8Array :=
  seal (Subtle.handle key) iv12 128 (utf8_encode (js "hello")).

(** Sealed texts that are JSON but no note record: [null], the string
    "hello", and a record with neither title nor content. *)
Definition other_record : jsval := VObject [(js "version", VString (js "2"))].

Definition sealed_null : Uint8Array :=
  or_empty (encryptData platform VNull key (Some iv12)).

Definition sealed_string : Uint8Array :=
  or_empty (encryptData platform (VString (js "hello")) key (Some iv12)).

Definition sealed_other : Uint8Array :=
  or_empty (encryptData platform other_record key (Some iv12)).

(** A note model, the argument of a [createNote], and a store that holds
    one note of the user whose ciphertext is [tampered]. *)
Definition model : NoteModel :=
  {| this_userId := js "u1"; this_encryptionKey := key |}.

Definition noteData : NoteData platform :=
  {| nd_title := (VString (js "A") : value platform);
     nd_content := (VString (js "B") : value platform);
     nd_category := None; nd_tags := None |}.

Definition doc0 : NoteDoc :=
  {| encryptedData := Some tampered;
     userId := js "u1";
     category := js "default";
     tags := Some [];
     createdAt := timestamp 1;
     updatedAt := timestamp 1;
     isDeleted := false;
     isFavorite := false |}.

Definition world0 : World store :=
  {| database := ([(js "n0", doc0)] : db store); console := [] |}.

Definition no_options : Options :=
  {| o_category := None; o_tags := None; o_limit := None;
     o_includeDeleted := None; o_favoritesOnly := None |}.

(** Firebase Auth as the list of the registered users, and the
    collection ['users'] as a list of documents. *)
Definition firebase : Firebase := {|
  auth := list User;
  users := list (DOMString * UserDoc);
  createUserWithEmailAndPassword := fun registered email _ =>
    if existsb (fun u => DOMString_eqb (user_email u) email) registered
    then (Err (FirebaseError "auth/email-already-in-use"), registered)
    else
      let u := {| uid := 117 :: [48 + N.of_nat (length registered)];
                  user_email := email;
                  user_emailVerified := false |} in
      (Ok u, registered ++ [u]);
  updateProfile := fun registered _ _ => (Ok tt, registered);
  sendEmailVerification := fun registered _ => (Ok tt, registered);
  setDoc := fun docs k d =>
    (Ok tt, filter (fun x => negb (DOMString_eqb (fst x) k)) docs ++ [(k, d)])
|}.

Definition session0 : Session firebase :=
  {| s_auth := ([] : auth firebase);
     s_users := ([] : users firebase);
     s_entropy := counter 0;
     s_now := js "2025-01-01T00:00:00.000Z";
     s_state := initialState |}.

(** The documents of ['users'] after a sign-up in [session0]. *)
Definition users_after_signUp : list (DOMString * UserDoc) :=
  s_users (snd (signUp platform (js "a@b.c") password (js "Ann") session0)).

(** Whether the tag check under [key] and [iv12] rejects a ciphertext. *)
Definition rejected (c : Uint8Array) : bool :=
  match unseal (Subtle.handle key) iv12 128 c with
  | None => true
  | Some _ => false
  end.

End Mini.

(** ** [encryption.js]: the password suggestion *)

Definition charset : DOMString :=
  js "ABCDEFGHIJKLMNOPQRSTUVWXYZabcdefghijklmnopqrstuvwxyz0123456789!@#$%^&*".

(** [charset[byte % charset.length]], a string of one character. *)
Definition charset_at (b : byte) : DOMString :=
  [nth (N.to_nat (Byte.to_N b mod N.of_nat (length charset))) charset 0].

(** [generateSecurePassword(length = 16)]; [None] is a call without the
    argument.  [Array.from(randomValues, f).join('')] is the concatenation
    of the strings [f] returns. *)
Definition generateSecurePassword (length : option nat) : ST Entropy DOMString :=
  (let length := or_default length 16%nat in
   randomValues <- getRandomValues length ;;
   ret (concat (map charset_at randomValues)))%st.

(** The 256 values of an octet, and how many of them give a character. *)
Definition all_octets : list byte := map (fun n => ToUint8 (N.of_nat n)) (seq 0 256).

Definition octets_giving (c : N) : nat :=
  length (filter (fun b => DOMString_eqb (charset_at b) [c]) all_octets).

(** The random source [e] with the octet [b] at position [i]. *)
Definition with_octet (e : Entropy) (i : nat) (b : byte) : Entropy :=
  fun j => if Nat.eqb j i then b else e j.

(** The character at position [i] of the password that
    [generateSecurePassword] returns on the random source [e]. *)
Definition password_char (len : option nat) (e : Entropy) (i : nat) : N :=
  match fst (generateSecurePassword len e) with
  | Ok password => nth i password 0
  | Err _ => 0
  end.

(** Of the 256 values that octet [i] of the random source can take, how
    many make [c] the character at position [i] of the password. *)
Definition octets_putting (len : option nat) (e : Entropy) (i : nat) (c : N)
  : nat :=
  length (filter (fun b => password_char len (with_octet e i b) i =? c)
            all_octets).



(** ** [noteModel.js]: updates, deletion, favourites and search *)

(** The two writes of Firestore on a document of ['notes']; [updateDoc]
    receives the object [updates] as [updateNote] has left it. *)
Section NoteModelWrites.
Context (W : WebPlatform) (F : Firestore).

(** The argument [updates] of [updateNote]; [None] is a property that is
    not defined. *)
Record Updates : Type := {
  up_title : option (value W);
  up_content : option (value W);
  up_encryptedData : option Uint8Array;
  up_category : option DOMString;
  up_tags : option (list DOMString);
  up_isFavorite : option bool;
  up_isDeleted : option bool;
  up_updatedAt : option Time
}.

Record FirestoreWrites : Type := {
  updateDoc : db F -> DOMString -> Updates -> result unit * db F;
  deleteDoc : db F -> DOMString -> result unit * db F
}.

Context (Wr : FirestoreWrites).

Definition fs_updateDoc (noteId : DOMString) (updates : Updates) : M F unit :=
  fun w =>
    let (r, d') := updateDoc Wr (database w) noteId updates in
    (r, {| database := d'; console := console w |}).

Definition fs_deleteDoc (noteId : DOMString) : M F unit :=
  fun w =>
    let (r, d') := deleteDoc Wr (database w) noteId in
    (r, {| database := d'; console := console w |}).

(** An object with no property defined. *)
Definition no_updates : Updates :=
  {| up_title := None; up_content := None; up_encryptedData := None;
     up_category := None; up_tags := None; up_isFavorite := None;
     up_isDeleted := None; up_updatedAt := None |}.

(** [updates.encryptedData = encryptedData; delete updates.title;
    delete updates.content]. *)
Definition reencrypted (updates : Updates) (encryptedData : Uint8Array)
  : Updates :=
  {| up_title := None; up_content := None;
     up_encryptedData := Some encryptedData;
     up_category := up_category updates; up_tags := up_tags updates;
     up_isFavorite := up_isFavorite updates;
     up_isDeleted := up_isDeleted updates;
     up_updatedAt := up_updatedAt updates |}.

(** [updates.updatedAt = serverTimestamp()]. *)
Definition stamped (updates : Updates) : Updates :=
  {| up_title := up_title updates; up_content := up_content updates;
     up_encryptedData := up_encryptedData updates;
     up_category := up_category updates; up_tags := up_tags updates;
     up_isFavorite := up_isFavorite updates;
     up_isDeleted := up_isDeleted updates;
     up_updatedAt := Some serverTimestamp |}.

Definition is_defined {A} (o : option A) : bool :=
  match o with Some _ => true | None => false end.

(** What [updateNote] returns: [{ id: noteId, ...updates }]. *)
Record Updated : Type := {
  updated_id : DOMString;
  updated : Updates
}.

Definition updateNote (this : NoteModel) (noteId : DOMString)
    (updates : Updates) : M F Updated :=
  try_catch
    (updates <-
       (if is_defined (up_title updates) || is_defined (up_content updates)
        then
          currentNote <- getNote W this noteId ;;
          match currentNote with
          | None => throw (Error (js "Note not found"))
          | Some currentNote =>
              let dataToEncrypt :=
                object W
                  [(js "title",
                    match up_title updates with
                    | Some t => t
                    | None => title currentNote
                    end);
                   (js "content",
                    match up_content updates with
                    | Some c => c
                    | None => content currentNote
                    end)] in
              encryptedData <-
                await (encryptData W dataToEncrypt
                         (this_encryptionKey this) None) ;;
              ret (reencrypted updates encryptedData)
          end
        else ret updates) ;;
     let updates := stamped updates in
     fs_updateDoc noteId updates ;;;
     ret {| updated_id := noteId; updated := updates |})%st
    (fun error =>
       console_error [js "Error updating note:"] error ;;;
       throw (Error (js "Failed to update note")))%st.

(** Soft delete: [updateNote(noteId, { isDeleted: true })]. *)
Definition deleteNote (this : NoteModel) (noteId : DOMString) : M F unit :=
  try_catch
    (updateNote this noteId
       {| up_title := None; up_content := None; up_encryptedData := None;
          up_category := None; up_tags := None; up_isFavorite := None;
          up_isDeleted := Some true; up_updatedAt := None |} ;;;
     ret tt)%st
    (fun error =>
       console_error [js "Error deleting note:"] error ;;;
       throw (Error (js "Failed to delete note")))%st.

Definition permanentlyDeleteNote (this : NoteModel) (noteId : DOMString)
  : M F unit :=
  try_catch
    (fs_deleteDoc noteId)
    (fun error =>
       console_error [js "Error permanently deleting note:"] error ;;;
       throw (Error (js "Failed to permanently delete note")))%st.

Definition toggleFavorite (this : NoteModel) (noteId : DOMString) : M F bool :=
  try_catch
    (note <- getNote W this noteId ;;
     match note with
     | None => throw (Error (js "Note not found"))
     | Some note =>
         updateNote this noteId
           {| up_title := None; up_content := None; up_encryptedData := None;
              up_category := None; up_tags := None;
              up_isFavorite := Some (negb (isFavorite (stored note)));
              up_isDeleted := None; up_updatedAt := None |} ;;;
         ret (negb (isFavorite (stored note)))
     end)%st
    (fun error =>
       console_error [js "Error toggling favorite:"] error ;;;
       throw (Error (js "Failed to toggle favorite")))%st.

End NoteModelWrites.

(** The options of the three shorthands of [getNotes]. *)
Definition options_category (category : option DOMString) : Options :=
  {| o_category := category; o_tags := None; o_limit := None;
     o_includeDeleted := None; o_favoritesOnly := None |}.

Definition options_favoritesOnly : Options :=
  {| o_category := None; o_tags := None; o_limit := None;
     o_includeDeleted := None; o_favoritesOnly := Some true |}.

Definition options_includeDeleted : Options :=
  {| o_category := None; o_tags := None; o_limit := None;
     o_includeDeleted := Some true; o_favoritesOnly := None |}.

(** [getNotes()] without argument: [options = {}]. *)
Definition options_none : Options :=
  {| o_category := None; o_tags := None; o_limit := None;
     o_includeDeleted := None; o_favoritesOnly := None |}.

Section NoteModelReads.
Context (W : WebPlatform) (F : Firestore).

Definition getNotesByCategory (this : NoteModel) (category : option DOMString)
  : M F (list (Note W)) :=
  getNotes W this (options_category category).

Definition getFavoriteNotes (this : NoteModel) : M F (list (Note W)) :=
  getNotes W this options_favoritesOnly.

Definition getDeletedNotes (this : NoteModel) : M F (list (Note W)) :=
  getNotes W this options_includeDeleted.

End NoteModelReads.

(** ** [noteModel.js]: search *)

(** What the search needs to know of a value: [undefined] and [null],
    on which [?.] stops; a string; anything else, which has no method
    [toLowerCase]. *)
Inductive Shape : Type :=
| Nullish
| AString (s : DOMString)
| Other.

(** [shape] looks at a value; [toLowerCase] is
    [String.prototype.toLowerCase]. *)
Record StringOps (W : WebPlatform) : Type := {
  shape : value W -> Shape;
  toLowerCase : DOMString -> DOMString
}.

Fixpoint startsWith (s search : DOMString) : bool :=
  match search, s with
  | [], _ => true
  | c :: search', d :: s' => (c =? d) && startsWith s' search'
  | _ :: _, [] => false
  end.

(** [s.includes(search)]: [search] occurs in [s]. *)
Fixpoint String_includes (s search : DOMString) : bool :=
  startsWith s search ||
  match s with
  | [] => false
  | _ :: s' => String_includes s' search
  end.

(** [l.filter(f)] where [f] may throw. *)
Fixpoint filter_result {A} (f : A -> result bool) (l : list A)
  : result (list A) :=
  match l with
  | [] => Ok []
  | x :: r =>
      (let? keep := f x in
       let? r' := filter_result f r in
       Ok (if keep then x :: r' else r'))%result
  end.

Section Search.
Context (W : WebPlatform) (F : Firestore) (So : StringOps W).

(** [v?.toLowerCase().includes(lowercaseSearch)]; [undefined] is falsy. *)
Definition text_matches (v : value W) (lowercaseSearch : DOMString)
  : result bool :=
  match shape So v with
  | Nullish => Ok false
  | AString s => Ok (String_includes (toLowerCase So s) lowercaseSearch)
  | Other => Err TypeError
  end.

(** [tags?.some(tag => tag.toLowerCase().includes(lowercaseSearch))]. *)
Definition tags_match (tags : option (list DOMString))
    (lowercaseSearch : DOMString) : bool :=
  match tags with
  | Some tags =>
      existsb (fun tag => String_includes (toLowerCase So tag) lowercaseSearch)
        tags
  | None => false
  end.

(** The callback of the filter of [searchNotes] (and of [filteredNotes] in
    [useNotes]). *)
Definition note_matches (lowercaseSearch : DOMString) (note : Note W)
  : result bool :=
  (let? titleMatch := text_matches (title note) lowercaseSearch in
   let? contentMatch := text_matches (content note) lowercaseSearch in
   let tagMatch := tags_match (tags (stored note)) lowercaseSearch in
   Ok (titleMatch || contentMatch || tagMatch))%result.

(** [searchNotes(searchTerm)]; [None] is [undefined]. *)
Definition searchNotes (this : NoteModel) (searchTerm : option DOMString)
  : M F (list (Note W)) :=
  try_catch
    (notes <- getNotes W this options_none ;;
     if negb (truthy_string searchTerm) then ret notes
     else
       let lowercaseSearch := toLowerCase So (or_default searchTerm []) in
       await (filter_result (note_matches lowercaseSearch) notes))%st
    (fun error =>
       console_error [js "Error searching notes:"] error ;;;
       throw (Error (js "Failed to search notes")))%st.

(** What a search can see of a note that [getNotes] has returned: the two
    markers, when the note has a ciphertext, and the tags. *)
Definition seen (lowercaseSearch : DOMString) (note : Note W) : bool :=
  match encryptedData (stored note) with
  | Some _ =>
      String_includes (toLowerCase So (js "[Decryption Error]"))
        lowercaseSearch
      || String_includes
           (toLowerCase So (js "[Unable to decrypt note content]"))
           lowercaseSearch
      || tags_match (tags (stored note)) lowercaseSearch
  | None => tags_match (tags (stored note)) lowercaseSearch
  end.

(** [shape] on the two values the model itself makes. *)
Definition shape_of_made_values : Prop :=
  shape So (undefined W) = Nullish /\
  forall s, shape So (of_string W s) = AString s.

End Search.

(** ** [useNotes.js]: the values derived from the list of notes *)

Section UseNotes.
Context (W : WebPlatform).

(** [set.add(x)] on a [Set] of strings kept in insertion order. *)
Definition Set_add (set : list DOMString) (x : DOMString) : list DOMString :=
  if includes set x then set else set ++ [x].

(** [categories]: the [Set] that starts as ['all'] and takes the category
    of every note that has one. *)
Definition categories (notes : list (Note W)) : list DOMString :=
  fold_left
    (fun categorySet note =>
       match category (stored note) with
       | [] => categorySet
       | c => Set_add categorySet c
       end)
    notes [js "all"].

(** [allTags]: the [Set] of the tags of all notes. *)
Definition allTags (notes : list (Note W)) : list DOMString :=
  fold_left
    (fun tagSet note =>
       match tags (stored note) with
       | Some tags => fold_left Set_add tags tagSet
       | None => tagSet
       end)
    notes [].

End UseNotes.

(** ** [AuthContext.js]: sign-in, sign-out, password reset, verification
    mail and the listener on the authentication state *)



Section AuthContext.
Context (B : Firebase).

(** The other calls of [AuthContext.js] on Firebase; [getUserData] is
    [getDoc(doc(db, 'users', uid))] followed by [data()], [None] when the
    document does not exist. *)
Record FirebaseSession : Type := {
  signInWithEmailAndPassword :
    auth B -> DOMString -> DOMString -> result User * auth B;
  signOut : auth B -> result unit * auth B;
  sendPasswordResetEmail : auth B -> DOMString -> result unit * auth B;
  getUserData : users B -> DOMString -> result (option UserDoc)
}.

Context (A : FirebaseSession).



Definition resetPassword (email : DOMString) : ST (Session B) Outcome :=
  try_catch
    (dispatch CLEAR_ERROR ;;;
     on_auth (fun a => sendPasswordResetEmail A a email) ;;;
     ret (Success (js "Password reset email sent successfully!")))%st
    (fun error =>
       let errorMessage := getFirebaseErrorMessage (code error) in
       dispatch (SET_ERROR errorMessage) ;;;
       ret (Failure errorMessage))%st.

(** [state.user] is the user of the reducer state at the call. *)
Definition resendEmailVerification : ST (Session B) Outcome :=
  fun s =>
    try_catch
      (match user (s_state s) with
       | Some u =>
           on_auth (fun a => sendEmailVerification B a u) ;;;
           ret (Success (js "Verification email sent successfully!"))
       | None => ret (Failure (js "No user logged in"))
       end)%st
      (fun error =>
         let errorMessage := getFirebaseErrorMessage (code error) in
         ret (Failure errorMessage))
      s.

Definition clearError : ST (Session B) unit := dispatch CLEAR_ERROR.

(** The session and the console. *)
Definition Page : Type := Session B * list (list DOMString * exn).

Definition in_session {X} (m : ST (Session B) X) : ST Page X :=
  fun p => let (r, s) := m (fst p) in (r, (s, snd p)).

Definition page_error (args : list DOMString) (error : exn) : ST Page unit :=
  fun p => (Ok tt, (fst p, snd p ++ [(args, error)])).

(** [userData?.encryptionSalt ? userData.encryptionSalt : null]. *)
Definition salt_of (userData : option UserDoc) : option DOMString :=
  match userData with
  | Some d =>
      match encryptionSalt d with
      | [] => None
      | s => Some s
      end
  | None => None
  end.

(** The callback given to [onAuthStateChanged]; [None] is the event of a
    signed-out user. *)
Definition authStateChanged (u : option User) : ST Page unit :=
  match u with
  | Some u =>
      try_catch
        (userData <-
           in_session (fun s => (getUserData A (s_users s) (uid u), s)) ;;
         in_session (dispatch (SET_USER (Some u) (salt_of userData))))%st
        (fun error =>
           page_error [js "Error fetching user data:"] error ;;;
           in_session (dispatch (SET_USER (Some u) None)))%st
  | None => in_session (dispatch SIGN_OUT)
  end.

End AuthContext.

(** The reducer state never reports a verified e-mail address without a
    user whose address is verified. *)
Definition verified_has_user (state : AuthState) : Prop :=
  isEmailVerified state = true ->
  exists u, user state = Some u /\ user_emailVerified u = true.

(** ** More of the small executable platform *)

Module More.
Import Mini.

Definition apply_updates (u : Updates platform) (d : NoteDoc) : NoteDoc :=
  {| encryptedData :=
       match up_encryptedData u with
       | Some ed => Some ed
       | None => encryptedData d
       end;
     userId := userId d;
     category := or_default (up_category u) (category d);
     tags := match up_tags u with Some t => Some t | None => tags d end;
     createdAt := createdAt d;
     updatedAt := or_default (up_updatedAt u) (updatedAt d);
     isDeleted := or_default (up_isDeleted u) (isDeleted d);
     isFavorite := or_default (up_isFavorite u) (isFavorite d) |}.

(** The writes on the list of documents; [updateDoc] fails on a document
    that is not there. *)
Definition writes : FirestoreWrites platform store := {|
  updateDoc := fun (docs : db store) k u =>
    match lookup_doc docs k with
    | Some _ =>
        (Ok tt,
         map (fun x => if DOMString_eqb (fst x) k
                       then (fst x, apply_updates u (snd x)) else x) docs)
    | None => (Err (FirebaseError "not-found"), docs)
    end;
  deleteDoc := fun (docs : db store) k =>
    (Ok tt, filter (fun x => negb (DOMString_eqb (fst x) k)) docs)
|}.

(** ASCII lower case. *)
Definition lower (s : DOMString) : DOMString :=
  map (fun c => if (65 <=? c) && (c <=? 90) then c + 32 else c) s.

Definition string_ops : StringOps platform := {|
  shape := fun v : value platform =>
    match v with
    | VUndefined | VNull => Nullish
    | VString s => AString s
    | VObject _ => Other
    end;
  toLowerCase := lower
|}.

(** A note without ciphertext, tagged, and a store that holds it beside
    the note of [world0]. *)
Definition doc1 : NoteDoc :=
  {| encryptedData := None;
     userId := js "u1";
     category := js "work";
     tags := Some [js "Todo"];
     createdAt := timestamp 2;
     updatedAt := timestamp 2;
     isDeleted := false;
     isFavorite := false |}.

Definition world1 : World store :=
  {| database := ([(js "n0", doc0); (js "n1", doc1)] : db store);
     console := [] |}.

Definition rename : Updates platform :=
  {| up_title := Some (VString (js "New") : value platform);
     up_content := None; up_encryptedData := None; up_category := None;
     up_tags := None; up_isFavorite := None; up_isDeleted := None;
     up_updatedAt := None |}.

Definition recategorize : Updates platform :=
  {| up_title := None; up_content := None; up_encryptedData := None;
     up_category := Some (js "home"); up_tags := None;
     up_isFavorite := None; up_isDeleted := None; up_updatedAt := None |}.

(** Values with one more kind, on which [JSON.stringify] throws a
    TypeError as it does on a BigInt. *)
Inductive jsval' : Type :=
| Plain (v : jsval)
| BigInt (n : N).

Definition platform' : WebPlatform := {|
  value := jsval';
  undefined := Plain VUndefined;
  of_string := fun s => Plain (VString s);
  object := fun fields =>
    Plain (VObject
             (map (fun kv => (fst kv,
                              match snd kv with
                              | Plain v => v
                              | BigInt _ => VUndefined
                              end)) fields));
  get := fun v k =>
    match v with
    | Plain v => rbind (property v k) (fun x => Ok (Plain x))
    | BigInt _ => Ok (Plain VUndefined)
    end;
  JSON_stringify := fun v =>
    match v with
    | Plain v => Ok (stringify v)
    | BigInt _ => Err TypeError
    end;
  JSON_parse := fun s => rbind (parse s) (fun x => Ok (Plain x));
  TextEncoder_encode := utf8_encode;
  TextDecoder_decode := utf8_decode;
  PBKDF2_HMAC_SHA256 := kdf;
  AES_GCM_encrypt := seal;
  AES_GCM_decrypt := unseal;
  native_message := text_of
|}.

(** Firebase whose collection ['users'] cannot be written. *)
Definition firebase_read_only : Firebase := {|
  auth := auth firebase;
  users := users firebase;
  createUserWithEmailAndPassword := createUserWithEmailAndPassword firebase;
  updateProfile := updateProfile firebase;
  sendEmailVerification := sendEmailVerification firebase;
  setDoc := fun docs _ _ => (Err (FirebaseError "permission-denied"), docs)
|}.

Definition session_read_only : Session firebase_read_only :=
  {| s_auth := ([] : auth firebase_read_only);
     s_users := ([] : users firebase_read_only);
     s_entropy := counter 0;
     s_now := js "2025-01-01T00:00:00.000Z";
     s_state := initialState |}.

(** A session in which the address "a@b.c" is registered already. *)
Definition ann : User :=
  {| uid := js "u0"; user_email := js "a@b.c"; user_emailVerified := false |}.

Definition session1 : Session firebase :=
  {| s_auth := ([ann] : auth firebase);
     s_users := ([] : users firebase);
     s_entropy := counter 0;
     s_now := js "2025-01-01T00:00:00.000Z";
     s_state := initialState |}.


End More.

(** * The request middleware (middleware.js, src/middleware/)

    The middlewares of the Next.js server: each takes the request and
    returns a [NextResponse].  The server state they share is the table
    of the rate limiter, the console, the clock and the source of
    request identifiers. *)

From Stdlib Require DecimalString.

Module Middleware.

(** [Number.prototype.toString] of an integer. *)
Definition Number_toString (z : Z) : DOMString :=
  js (DecimalString.NilZero.string_of_int (Z.to_int z)).

(** Header names are compared in lower case (ASCII). *)
Definition byte_lowercase (s : DOMString) : DOMString :=
  map (fun c => if (65 <=? c) && (c <=? 90) then c + 32 else c) s.

(** [Array.prototype.join]. *)
Fixpoint join (l : list DOMString) (separator : DOMString) : DOMString :=
  match l with
  | [] => []
  | [x] => x
  | x :: l' => x ++ separator ++ join l' separator
  end.

(** A [Map] with string keys, and a [Headers] list: entries in the order
    of their insertion, one for a key. *)
Fixpoint Map_get {A} (key : DOMString) (m : list (DOMString * A))
  : option A :=
  match m with
  | [] => None
  | (k, v) :: m' => if DOMString_eqb k key then Some v else Map_get key m'
  end.

Fixpoint Map_set {A} (key : DOMString) (value : A)
    (m : list (DOMString * A)) : list (DOMString * A) :=
  match m with
  | [] => [(key, value)]
  | (k, v) :: m' =>
      if DOMString_eqb k key then (k, value) :: m'
      else (k, v) :: Map_set key value m'
  end.

Definition Headers : Type := list (DOMString * DOMString).

Definition Headers_get (name : string) (h : Headers) : option DOMString :=
  Map_get (byte_lowercase (js name)) h.

Definition Headers_set (name : string) (value : DOMString) (h : Headers)
  : Headers :=
  Map_set (byte_lowercase (js name)) value h.

(** What a middleware reads of a [NextRequest]. *)
Record Request := {
  method : DOMString;
  url : DOMString;
  pathname : DOMString;            (* request.nextUrl.pathname *)
  ip : option DOMString;           (* request.ip *)
  request_headers : Headers
}.

Record Response := {
  status : Z;
  headers : Headers;
  body : option DOMString
}.

(** [NextResponse.next()]: status 200 and the header by which Next.js
    marks the response as "go on". *)
Definition NextResponse_next : Response :=
  {| status := 200;
     headers := Headers_set "x-middleware-next" (js "1") [];
     body := None |}.

(** [response.headers.set(name, value)]. *)
Definition set (name : string) (value : DOMString) (response : Response)
  : Response :=
  {| status := status response;
     headers := Headers_set name value (headers response);
     body := body response |}.

(** [new NextResponse(body, { status, headers })]. *)
Definition NextResponse (body : option DOMString) (status : Z)
    (headers : list (string * DOMString)) : Response :=
  {| status := status;
     headers := fold_left (fun h nv => Headers_set (fst nv) (snd nv) h)
                  headers [];
     body := body |}.

(** ** config.js *)

Record RateLimitConfig := {
  windowSize : Z;
  maxRequests : Z;
  apiMaxRequests : Z;
  authMaxRequests : Z
}.

Record MiddlewareConfig := {
  rateLimit : RateLimitConfig;
  security_csp : list (DOMString * list DOMString)
}.

Definition middlewareConfig : MiddlewareConfig :=
  {| rateLimit :=
       {| windowSize := 15 * 60 * 1000;
          maxRequests := 100;
          apiMaxRequests := 50;
          authMaxRequests := 10 |};
     security_csp :=
       [ (js "defaultSrc", [js "'self'"]);
         (js "scriptSrc",
          [js "'self'"; js "'unsafe-eval'"; js "'unsafe-inline'";
           js "https://www.googletagmanager.com"]);
         (js "styleSrc",
          [js "'self'"; js "'unsafe-inline'";
           js "https://fonts.googleapis.com"]);
         (js "fontSrc", [js "'self'"; js "https://fonts.gstatic.com"]);
         (js "imgSrc", [js "'self'"; js "data:"; js "https:"]);
         (js "connectSrc",
          [js "'self'"; js "https://*.firebaseapp.com";
           js "https://*.googleapis.com"; js "wss://*.firebaseapp.com"]);
         (js "frameSrc", [js "'none'"]);
         (js "objectSrc", [js "'none'"]);
         (js "baseUri", [js "'self'"]);
         (js "formAction", [js "'self'"]) ] |}.

(** ** The server state *)

(** An entry of the rate limiter. *)
Record RequestData := {
  count : Z;
  firstRequest : Z
}.

Record Server := {
  requestCounts : list (DOMString * RequestData);   (* the module's Map *)
  server_console : list DOMString;                   (* console.log *)
  clock : nat -> Z;          (* the readings of the clock to come, in ms *)
  uuids : nat -> DOMString   (* the results of crypto.randomUUID() to come *)
}.

(** [Date.now()]: the next reading of the clock. *)
Definition Date_now : ST Server Z :=
  fun s =>
    (Ok (clock s 0%nat),
     {| requestCounts := requestCounts s;
        server_console := server_console s;
        clock := fun i => clock s (S i);
        uuids := uuids s |}).

Definition crypto_randomUUID : ST Server DOMString :=
  fun s =>
    (Ok (uuids s 0%nat),
     {| requestCounts := requestCounts s;
        server_console := server_console s;
        clock := clock s;
        uuids := fun i => uuids s (S i) |}).

Definition console_log (line : DOMString) : ST Server unit :=
  fun s =>
    (Ok tt,
     {| requestCounts := requestCounts s;
        server_console := server_console s ++ [line];
        clock := clock s;
        uuids := uuids s |}).

Definition get_requestCounts : ST Server (list (DOMString * RequestData)) :=
  fun s => (Ok (requestCounts s), s).

Definition put_requestCounts (m : list (DOMString * RequestData))
  : ST Server unit :=
  fun s =>
    (Ok tt,
     {| requestCounts := m;
        server_console := server_console s;
        clock := clock s;
        uuids := uuids s |}).

(** [a || b] of strings that may be [null] or [undefined]. *)
Definition or_else (a b : option DOMString) : option DOMString :=
  if truthy_string a then a else b.

(** [request.ip || request.headers.get('x-forwarded-for') ||
    request.headers.get('x-real-ip') || 'unknown']. *)
Definition client_ip (request : Request) : DOMString :=
  or_default
    (or_else (ip request)
       (or_else (Headers_get "x-forwarded-for" (request_headers request))
          (or_else (Headers_get "x-real-ip" (request_headers request))
             (Some (js "unknown")))))
    [].

(** ** rateLimit.js *)

(** The second argument of [rateLimitMiddleware]; [{}] by default. *)
Record CustomLimits := {
  custom_maxRequests : option Z;
  custom_windowSize : option Z
}.

Definition no_limits : CustomLimits :=
  {| custom_maxRequests := None; custom_windowSize := None |}.

(** A number is truthy when it is not 0. *)
Definition truthy_number (o : option Z) : bool :=
  match o with
  | Some z => negb (z =? 0)%Z
  | None => false
  end.

(** The limit of the route, before custom limits. *)
Definition route_maxRequests (pathname : DOMString) : Z :=
  let config := rateLimit middlewareConfig in
  if startsWith pathname (js "/api/auth/") then authMaxRequests config
  else if startsWith pathname (js "/api/") then apiMaxRequests config
  else maxRequests config.

(** [Math.ceil(a / b)] of integers, [b] positive. *)
Definition ceil_div (a b : Z) : Z := (- ((- a) / b))%Z.

(** The text [JSON.stringify] gives for the object of two strings none of
    whose characters needs an escape. *)
Definition quoted (s : DOMString) : DOMString := [34] ++ s ++ [34].

Definition rate_limit_body (message : DOMString) : DOMString :=
  js "{" ++ quoted (js "error") ++ js ":" ++ quoted (js "Rate limit exceeded")
  ++ js "," ++ quoted (js "message") ++ js ":" ++ quoted message ++ js "}".

Local Open Scope st_scope.

Definition rateLimitMiddleware (request : Request)
    (customLimits : CustomLimits) : ST Server Response :=
  let config := rateLimit middlewareConfig in
  let maxRequests := route_maxRequests (pathname request) in
  let maxRequests :=
    if truthy_number (custom_maxRequests customLimits)
    then or_default (custom_maxRequests customLimits) 0%Z
    else maxRequests in
  let windowSize :=
    if truthy_number (custom_windowSize customLimits)
    then or_default (custom_windowSize customLimits) 0%Z
    else windowSize config in
  let ip := client_ip request in
  now <- Date_now ;;
  let windowStart := (now - windowSize)%Z in
  (* Clean old entries *)
  entries <- get_requestCounts ;;
  put_requestCounts
    (filter (fun entry => negb (firstRequest (snd entry) <? windowStart)%Z)
       entries) ;;;
  (* Get or create request data for this IP *)
  entries <- get_requestCounts ;;
  let requestData :=
    match Map_get ip entries with
    | Some data => data
    | None => {| count := 0; firstRequest := now |}
    end in
  (* Reset if window has passed *)
  let requestData :=
    if (firstRequest requestData <? windowStart)%Z
    then {| count := 0; firstRequest := now |}
    else requestData in
  (* Increment request count: the object is the one in the Map *)
  let requestData :=
    {| count := count requestData + 1;
       firstRequest := firstRequest requestData |} in
  put_requestCounts (Map_set ip requestData entries) ;;;
  if (maxRequests <? count requestData)%Z then
    ret (NextResponse
           (Some (rate_limit_body
                    (js "Too many requests. Maximum "
                     ++ Number_toString maxRequests ++ js " requests per "
                     ++ Number_toString (windowSize / 60000)%Z
                     ++ js " minutes.")))
           429
           [ ("Content-Type"%string, js "application/json");
             ("Retry-After"%string, Number_toString (ceil_div windowSize 1000)) ])
  else
    ret (set "X-RateLimit-Reset"
           (Number_toString
              (ceil_div (firstRequest requestData + windowSize) 1000))
        (set "X-RateLimit-Remaining"
           (Number_toString (maxRequests - count requestData))
        (set "X-RateLimit-Limit" (Number_toString maxRequests)
           NextResponse_next))).

Section Environment.
(** [process.env.NODE_ENV] and [Date.prototype.toISOString]. *)
Variable NODE_ENV : option DOMString.
Variable toISOString : Z -> DOMString.

Definition production : bool :=
  match NODE_ENV with
  | Some v => DOMString_eqb v (js "production")
  | None => false
  end.

(** ** cors.js *)

Definition allowed_origin : DOMString :=
  if production then js "https://your-domain.com" else js "*".

Definition corsMiddleware (request : Request) : ST Server Response :=
  if DOMString_eqb (method request) (js "OPTIONS") then
    ret (NextResponse None 200
           [ ("Access-Control-Allow-Origin"%string, allowed_origin);
             ("Access-Control-Allow-Methods"%string,
              js "GET, POST, PUT, DELETE, OPTIONS");
             ("Access-Control-Allow-Headers"%string,
              js "Content-Type, Authorization, X-Requested-With");
             ("Access-Control-Max-Age"%string, js "86400") ])
  else
    ret (set "Access-Control-Allow-Credentials" (js "true")
        (set "Access-Control-Allow-Origin" allowed_origin
           NextResponse_next)).

(** ** security.js *)

(** [directive.replace(/([A-Z])/g, '-$1').toLowerCase()]; the directives
    of the configuration are ASCII. *)
Definition directiveName (directive : DOMString) : DOMString :=
  byte_lowercase
    (flat_map (fun c => if (65 <=? c) && (c <=? 90) then [45; c] else [c])
       directive).

Definition cspHeader : DOMString :=
  join
    (map (fun entry =>
            directiveName (fst entry) ++ js " " ++ join (snd entry) (js " "))
       (security_csp middlewareConfig))
    (js "; ").

Definition securityMiddleware (request : Request) : ST Server Response :=
  let response :=
    set "Permissions-Policy" (js "camera=(), microphone=(), geolocation=()")
    (set "Referrer-Policy" (js "strict-origin-when-cross-origin")
    (set "X-Content-Type-Options" (js "nosniff")
    (set "X-Frame-Options" (js "DENY")
    (set "Content-Security-Policy" cspHeader NextResponse_next)))) in
  if production then
    ret (set "Strict-Transport-Security"
           (js "max-age=31536000; includeSubDomains") response)
  else ret response.

(** ** auth.js *)

Definition publicRoutes : list DOMString :=
  [js "/"; js "/auth/login"; js "/auth/register"; js "/auth/forgot-password"].

Definition protectedRoutes : list DOMString :=
  [js "/dashboard"; js "/notes"; js "/profile"; js "/settings"].

Definition authMiddleware (request : Request) : ST Server Response :=
  let isProtectedRoute :=
    existsb (fun route => startsWith (pathname request) route)
      protectedRoutes in
  let isPublicRoute := includes publicRoutes (pathname request) in
  if isProtectedRoute then
    ret (set "x-auth-required" (js "true") NextResponse_next)
  else if isPublicRoute then
    ret (set "x-auth-required" (js "false") NextResponse_next)
  else ret NextResponse_next.

(** ** logging.js *)

Definition loggingMiddleware (request : Request) : ST Server Response :=
  now <- Date_now ;;
  let timestamp := toISOString now in
  let userAgent :=
    or_default
      (or_else (Headers_get "user-agent" (request_headers request))
         (Some (js "unknown"))) [] in
  let ip := client_ip request in
  console_log
    (js "[" ++ timestamp ++ js "] " ++ method request ++ js " "
     ++ url request ++ js " - IP: " ++ ip ++ js " - UA: " ++ userAgent) ;;;
  let response := NextResponse_next in
  requestId <- crypto_randomUUID ;;
  ret (set "X-Request-ID" requestId response).

(** ** index.js *)

(** What a middleware of a chain returns: a response, or [null] to go
    on.  A response is a [NextResponse], whose [status] is never
    [undefined]. *)
Definition MiddlewareFn : Type := Request -> ST Server (option Response).

(** A middleware that always returns a response. *)
Definition responding (middleware : Request -> ST Server Response)
  : MiddlewareFn :=
  fun request => response <- middleware request ;; ret (Some response).

Fixpoint chain (middlewares : list MiddlewareFn) (request : Request)
  : ST Server (option Response) :=
  match middlewares with
  | [] => ret None
  | middleware :: middlewares' =>
      response <- middleware request ;;
      match response with
      | Some r => ret (Some r)     (* response && response.status !== undefined *)
      | None => chain middlewares' request
      end
  end.

Definition conditionalMiddleware (condition : Request -> bool)
    (middleware : MiddlewareFn) : MiddlewareFn :=
  fun request => if condition request then middleware request else ret None.

Definition apiMiddleware : MiddlewareFn :=
  chain [ responding loggingMiddleware;
          responding corsMiddleware;
          responding securityMiddleware;
          responding (fun request => rateLimitMiddleware request no_limits) ].

Definition authPageMiddleware : MiddlewareFn :=
  chain [ responding loggingMiddleware;
          responding securityMiddleware;
          responding authMiddleware ].

Definition publicPageMiddleware : MiddlewareFn :=
  chain [ responding loggingMiddleware;
          responding securityMiddleware ].

(** ** middleware.js *)

Definition middleware (request : Request) : ST Server (option Response) :=
  let pathname := pathname request in
  if startsWith pathname (js "/api/") then
    rateLimitResult <- rateLimitMiddleware request no_limits ;;
    if (status rateLimitResult =? 429)%Z then ret (Some rateLimitResult)
    else apiMiddleware request
  else if startsWith pathname (js "/dashboard")
          || startsWith pathname (js "/notes")
          || startsWith pathname (js "/profile")
          || startsWith pathname (js "/settings") then
    authPageMiddleware request
  else publicPageMiddleware request.

End Environment.

(** ** Vocabulary of the statements *)

(** The requests of a list, answered in turn by the rate limiter. *)
Fixpoint rate_limit_all (requests : list Request)
  : ST Server (list Response) :=
  match requests with
  | [] => ret []
  | request :: requests' =>
      response <- rateLimitMiddleware request no_limits ;;
      responses <- rate_limit_all requests' ;;
      ret (response :: responses)
  end.

(** How many of the requests come from the address [ip]. *)
Definition requests_from (ip : DOMString) (requests : list Request) : Z :=
  Z.of_nat
    (length (filter (fun r => DOMString_eqb (client_ip r) ip) requests)).

(** The count the rate limiter holds for an address. *)
Definition counted (ip : DOMString) (s : Server) : Z :=
  match Map_get ip (requestCounts s) with
  | Some data => count data
  | None => 0
  end.

(** The headers that only the security, the CORS, the auth and the rate
    limit middleware set. *)
Definition protective_headers : list string :=
  [ "Content-Security-Policy"%string; "X-Frame-Options"%string; "X-Content-Type-Options"%string;
    "Referrer-Policy"%string; "Permissions-Policy"%string; "Strict-Transport-Security"%string;
    "Access-Control-Allow-Origin"%string; "Access-Control-Allow-Credentials"%string;
    "x-auth-required"%string; "X-RateLimit-Limit"%string; "X-RateLimit-Remaining"%string;
    "X-RateLimit-Reset"%string ].

(** ** A server and requests to run *)

Definition server0 : Server :=
  {| requestCounts := [];
     server_console := [];
     clock := fun i => (1700000000000 + 1000 * Z.of_nat i)%Z;
     uuids := fun i => js "00000000-0000-4000-8000-" ++ Number_toString (Z.of_nat i) |}.

Definition GET (path : string) (from : string) : Request :=
  {| method := js "GET";
     url := js "https://notes.example" ++ js path;
     pathname := js path;
     ip := Some (js from);
     request_headers := [] |}.

(** A server whose table holds an old entry of a client that was over
    its limit. *)
Definition server_late : Server :=
  {| requestCounts :=
       [(js "10.0.0.1",
         {| count := 51; firstRequest := 1700000000000 - 900001 |})];
     server_console := [];
     clock := fun i => (1700000000000 + 1000 * Z.of_nat i)%Z;
     uuids := fun i => js "00000000-0000-4000-8000-" ++ Number_toString (Z.of_nat i) |}.

(** Eleven sign-in requests of one client and one request of another. *)
Definition burst : list Request :=
  repeat (GET "/api/auth/login" "10.0.0.1") 11
  ++ [GET "/api/notes" "10.0.0.2"].

End Middleware.

(** * Properties *)

(** ** Base64 *)

Module Base64Facts.
Import Base64.

#[local] Ltac Zify.zify_post_hook ::= Z.to_euclidean_division_equations.

(** Induction on a list three elements at a time. *)
Lemma list_ind3 (A : Type) (P : list A -> Prop) :
  P [] ->
  (forall a, P [a]) ->
  (forall a b, P [a; b]) ->
  (forall a b c l, P l -> P (a :: b :: c :: l)) ->
  forall l, P l.
Proof.
  intros H0 H1 H2 H3 l.
  enough (P l /\ (forall a, P (a :: l)) /\ (forall a b, P (a :: b :: l)))
    by tauto.
  induction l as [|x l (IH0 & IH1 & IH2)]; auto.
Qed.

Lemma sextets_bound l : Forall is_octet l -> Forall is_sextet (sextets l).
Proof.
  unfold is_octet, is_sextet.
  induction l as [|a|a b|a b c l IH] using list_ind3; intros H; simpl.
  - constructor.
  - inversion_clear H. repeat constructor; lia.
  - inversion_clear H as [|? ? Ha H']. inversion_clear H'.
    repeat constructor; lia.
  - inversion_clear H as [|? ? Ha H']. inversion_clear H' as [|? ? Hb H''].
    inversion_clear H'' as [|? ? Hc Hl].
    repeat (constructor; [lia|]). auto.
Qed.

Lemma octets_sextets l : Forall is_octet l -> octets (sextets l) = l.
Proof.
  unfold is_octet.
  induction l as [|a|a b|a b c l IH] using list_ind3; intros H; simpl.
  - reflexivity.
  - inversion_clear H. f_equal. lia.
  - inversion_clear H as [|? ? Ha H']. inversion_clear H'.
    f_equal; [lia|]. f_equal. lia.
  - inversion_clear H as [|? ? Ha H']. inversion_clear H' as [|? ? Hb H''].
    inversion_clear H'' as [|? ? Hc Hl].
    rewrite IH by assumption.
    f_equal; [lia|]. f_equal; [lia|]. f_equal. lia.
Qed.

Lemma in_all_sextets n : is_sextet n -> In n all_sextets.
Proof.
  unfold is_sextet, all_sextets. intros H.
  apply in_map_iff. exists (N.to_nat n). split; [lia|].
  apply in_seq. lia.
Qed.

Lemma all_good : forallb good_char all_sextets = true.
Proof. vm_compute. reflexivity. Qed.

Lemma good_sextet n : is_sextet n -> good_char n = true.
Proof.
  intros H. apply in_all_sextets in H.
  exact (proj1 (forallb_forall good_char all_sextets) all_good n H).
Qed.

Lemma sextet_of_char_of_sextet n :
  is_sextet n -> sextet_of_char (char_of_sextet n) = Some n.
Proof.
  intros H. apply good_sextet in H. unfold good_char in H.
  destruct (sextet_of_char (char_of_sextet n)) as [m|]; [|discriminate].
  apply andb_prop in H. destruct H as [H _].
  apply andb_prop in H. destruct H as [H _].
  apply N.eqb_eq in H. congruence.
Qed.

Lemma char_of_sextet_not_pad n :
  is_sextet n -> (char_of_sextet n =? pad) = false.
Proof.
  intros H. apply good_sextet in H. unfold good_char in H.
  destruct (sextet_of_char (char_of_sextet n)); [|discriminate].
  apply andb_prop in H. destruct H as [H _].
  apply andb_prop in H. destruct H as [_ H].
  now apply negb_true_iff in H.
Qed.

Lemma char_of_sextet_not_space n :
  is_sextet n -> is_ascii_whitespace (char_of_sextet n) = false.
Proof.
  intros H. apply good_sextet in H. unfold good_char in H.
  destruct (sextet_of_char (char_of_sextet n)); [|discriminate].
  apply andb_prop in H. destruct H as [_ H].
  now apply negb_true_iff in H.
Qed.

Lemma traverse_chars s :
  Forall is_sextet s ->
  traverse sextet_of_char (map char_of_sextet s) = Some s.
Proof.
  induction 1 as [|n s Hn _ IH]; simpl; [reflexivity|].
  now rewrite sextet_of_char_of_sextet, IH.
Qed.

Lemma filter_chars s :
  Forall is_sextet s ->
  filter (fun c => negb (is_ascii_whitespace c)) (map char_of_sextet s)
  = map char_of_sextet s.
Proof.
  induction 1 as [|n s Hn _ IH]; simpl; [reflexivity|].
  now rewrite char_of_sextet_not_space, IH.
Qed.

(** The three shapes of an encoding, by the length of the input modulo 3. *)
Lemma length_shape (l : list N) :
  (Nat.modulo (length l) 3 = 0 /\ Nat.modulo (length (sextets l)) 4 = 0)%nat \/
  (Nat.modulo (length l) 3 = 1 /\ Nat.modulo (length (sextets l)) 4 = 2)%nat \/
  (Nat.modulo (length l) 3 = 2 /\ Nat.modulo (length (sextets l)) 4 = 3)%nat.
Proof.
  induction l as [|a|a b|a b c l IH] using list_ind3.
  - left. split; reflexivity.
  - right. left. split; reflexivity.
  - right. right. split; reflexivity.
  - cbn [sextets length].
    replace (S (S (S (length l)))) with (length l + 1 * 3)%nat by lia.
    replace (S (S (S (S (length (sextets l))))))
      with (length (sextets l) + 1 * 4)%nat by lia.
    rewrite !Nat.Div0.mod_add. exact IH.
Qed.

Lemma strip_padding_chars s p :
  Forall is_sextet s ->
  p = [] \/ p = [pad] \/ p = [pad; pad] ->
  strip_padding (map char_of_sextet s ++ p) = map char_of_sextet s.
Proof.
  intros Hs Hp. unfold strip_padding.
  assert (Hhead : forall c r, rev (map char_of_sextet s) = c :: r ->
                              (c =? pad) = false).
  { intros c r E.
    assert (Hin : In c (map char_of_sextet s)).
    { apply in_rev. rewrite E. left. reflexivity. }
    apply in_map_iff in Hin. destruct Hin as (n & <- & Hn).
    apply char_of_sextet_not_pad.
    exact (proj1 (Forall_forall _ _) Hs n Hn). }
  rewrite rev_app_distr.
  destruct Hp as [-> | [-> | ->]]; cbn [rev app].
  - rewrite app_nil_r.
    destruct (rev (map char_of_sextet s)) as [|c r] eqn:E; [reflexivity|].
    now rewrite (Hhead c r eq_refl).
  - rewrite N.eqb_refl.
    destruct (rev (map char_of_sextet s)) as [|c r] eqn:E.
    + rewrite <- (rev_involutive (map char_of_sextet s)), E. reflexivity.
    + rewrite (Hhead c r eq_refl).
      now rewrite <- E, rev_involutive.
  - rewrite N.eqb_refl. apply rev_involutive.
Qed.

(** Decoding an encoding gives the octets back. *)
Lemma atob_encode (l : list N) :
  Forall is_octet l -> atob (encode l) = Ok l.
Proof.
  intros Hl.
  pose proof (sextets_bound Hl) as Hs.
  assert (Hpad : padding (length l) = [] \/ padding (length l) = [pad] \/
                 padding (length l) = [pad; pad]).
  { unfold padding. destruct (Nat.modulo (length l) 3) as [|[|[|k]]]; auto. }
  assert (Hfilter :
    filter (fun c => negb (is_ascii_whitespace c)) (encode l) = encode l).
  { unfold encode. rewrite filter_app, (filter_chars Hs). f_equal.
    destruct Hpad as [-> | [-> | ->]]; reflexivity. }
  assert (Hlen : Nat.modulo (length (encode l)) 4 = 0%nat).
  { unfold encode, padding. rewrite length_app, length_map.
    destruct (length_shape l) as [[-> E] | [[-> E] | [-> E]]]; cbn [length].
    - now rewrite Nat.add_0_r.
    - rewrite Nat.Div0.add_mod, E. reflexivity.
    - rewrite Nat.Div0.add_mod, E. reflexivity. }
  unfold atob. rewrite Hfilter, Hlen. cbn [Nat.eqb].
  unfold encode. rewrite (strip_padding_chars Hs Hpad).
  rewrite length_map.
  assert (Hne : Nat.eqb (Nat.modulo (length (sextets l)) 4) 1 = false).
  { destruct (length_shape l) as [[_ ->] | [[_ ->] | [_ ->]]]; reflexivity. }
  rewrite Hne, (traverse_chars Hs), (octets_sextets Hl). reflexivity.
Qed.

End Base64Facts.

(** ** The storage encoding of [encryption.js] *)

Lemma ToUint8_to_N (b : byte) : ToUint8 (Byte.to_N b) = b.
Proof.
  unfold ToUint8.
  pose proof (Byte.to_N_bounded b) as Hb.
  rewrite N.mod_small by lia.
  now rewrite Byte.of_to_N.
Qed.

Lemma to_N_ToUint8 (n : N) : Byte.to_N (ToUint8 n) = n mod 256.
Proof.
  unfold ToUint8.
  destruct (Byte.of_N (n mod 256)) as [b|] eqn:E.
  - now apply Byte.to_of_N.
  - apply Byte.of_N_None_iff in E.
    pose proof (N.mod_upper_bound n 256). lia.
Qed.

(** The [reduce] of [arrayBufferToBase64] builds the binary string of the
    octets. *)
Lemma binary_of_bytes (bytes : Uint8Array) (acc : DOMString) :
  fold_left (fun acc b => acc ++ fromCharCode b) bytes acc
  = acc ++ map Byte.to_N bytes.
Proof.
  revert acc. induction bytes as [|b bytes IH]; intros acc; simpl.
  - now rewrite app_nil_r.
  - rewrite IH. unfold fromCharCode. now rewrite <- app_assoc.
Qed.

Lemma octets_of_bytes (bytes : Uint8Array) :
  Forall Base64.is_octet (map Byte.to_N bytes).
Proof.
  apply Forall_forall. intros n Hn.
  apply in_map_iff in Hn. destruct Hn as (b & <- & _).
  pose proof (Byte.to_N_bounded b). unfold Base64.is_octet. lia.
Qed.

Lemma arrayBufferToBase64_encode (buffer : Uint8Array) :
  arrayBufferToBase64 buffer = Ok (Base64.encode (map Byte.to_N buffer)).
Proof.
  unfold arrayBufferToBase64. rewrite binary_of_bytes. cbn [app].
  unfold Base64.btoa.
  replace (existsb (fun c => 255 <? c) (map Byte.to_N buffer)) with false;
    [reflexivity|].
  symmetry. apply not_true_is_false. intros H.
  apply existsb_exists in H. destruct H as (n & Hn & Hgt).
  apply in_map_iff in Hn. destruct Hn as (b & <- & _).
  pose proof (Byte.to_N_bounded b). apply N.ltb_lt in Hgt. lia.
Qed.

(** The loop of [base64ToArrayBuffer] copies the code units in order. *)
Lemma copy_loop (binary : DOMString) :
  map (fun i => ToUint8 (charCodeAt binary i)) (seq 0 (length binary))
  = map ToUint8 binary.
Proof.
  unfold charCodeAt.
  rewrite <- (map_map (fun i => nth i binary 0) ToUint8).
  f_equal. apply nth_ext with (d := 0) (d' := 0).
  - now rewrite length_map, length_seq.
  - intros i Hi. rewrite length_map, length_seq in Hi.
    rewrite (nth_indep _ 0 (nth 0 binary 0)) by now rewrite length_map, length_seq.
    rewrite (map_nth (fun i => nth i binary 0)), seq_nth by assumption.
    reflexivity.
Qed.

Lemma base64ToArrayBuffer_encode (bytes : Uint8Array) :
  base64ToArrayBuffer (Base64.encode (map Byte.to_N bytes)) = Ok bytes.
Proof.
  unfold base64ToArrayBuffer.
  rewrite (Base64Facts.atob_encode (octets_of_bytes bytes)).
  cbn [rbind]. rewrite copy_loop, map_map. f_equal.
  rewrite <- (map_id bytes) at 2. apply map_ext. exact ToUint8_to_N.
Qed.

(** What [arrayBufferToBase64] returns, [base64ToArrayBuffer] takes back. *)
Lemma base64_decode_encode (bytes : Uint8Array) (s : DOMString) :
  arrayBufferToBase64 bytes = Ok s -> base64ToArrayBuffer s = Ok bytes.
Proof.
  rewrite arrayBufferToBase64_encode. intros [= <-].
  apply base64ToArrayBuffer_encode.
Qed.

Lemma arrayBufferToBase64_total (bytes : Uint8Array) :
  exists s, arrayBufferToBase64 bytes = Ok s.
Proof. eexists. apply arrayBufferToBase64_encode. Qed.

Lemma arrayBufferToBase64_inj (b1 b2 : Uint8Array) (s : DOMString) :
  arrayBufferToBase64 b1 = Ok s -> arrayBufferToBase64 b2 = Ok s -> b1 = b2.
Proof.
  intros H1 H2.
  apply base64_decode_encode in H1. apply base64_decode_encode in H2.
  congruence.
Qed.

(** C8. Base64 transport encoding round-trips exactly: for every byte
    sequence [b], [base64ToArrayBuffer(arrayBufferToBase64(b))] returns
    [b]. *)
Theorem base64_transport_roundtrip (b : Uint8Array) :
  rbind (arrayBufferToBase64 b) base64ToArrayBuffer = Ok b.
Proof.
  rewrite arrayBufferToBase64_encode. cbn [rbind].
  apply base64ToArrayBuffer_encode.
Qed.

(** ** Key derivation and the password hash *)

Section EncryptionFacts.
Context (W : WebPlatform).

Lemma length_pbkdf2_bits password salt :
  length (pbkdf2_bits W password salt) = 32%nat.
Proof. unfold pbkdf2_bits. now rewrite length_map, length_seq. Qed.

(** The key [deriveKey] returns, in closed form. *)
Lemma deriveKey_eq (password : DOMString) (salt : Uint8Array) :
  deriveKey W password salt =
  Ok {| Subtle.algorithm := Subtle.AES_GCM 256;
        Subtle.extractable := false;
        Subtle.usages := [Subtle.Encrypt; Subtle.Decrypt];
        Subtle.handle := pbkdf2_bits W password salt |}.
Proof.
  unfold deriveKey. cbn [Subtle.importKey forallb Subtle.has_usage existsb
    Subtle.usage_eqb negb orb andb length Nat.eqb rbind].
  unfold Subtle.deriveKey.
  cbn [Subtle.algorithm Subtle.usages Subtle.is_pbkdf2 Subtle.has_usage
       existsb Subtle.usage_eqb negb orb].
  change (Subtle.is_aes_length 256) with true. cbn [negb].
  unfold Subtle.PBKDF2_derive_bits.
  cbn [Subtle.iterations Subtle.hash Subtle.salt Subtle.handle].
  change (256 mod 8 =? 0) with true.
  change (PBKDF2_ITERATIONS =? 0) with false.
  change (String.eqb "SHA-256" "SHA-256") with true.
  change (N.to_nat (256 / 8)) with 32%nat.
  cbn [negb rbind]. fold (pbkdf2_bits W password salt).
  unfold Subtle.importKey.
  cbn [forallb Subtle.has_usage existsb Subtle.usage_eqb negb orb andb].
  rewrite length_pbkdf2_bits.
  change (8 * N.of_nat 32) with 256.
  reflexivity.
Qed.

(** The string [hashPassword] returns, in closed form. *)
Lemma hashPassword_eq (password : DOMString) (salt : Uint8Array) :
  hashPassword W password salt =
  arrayBufferToBase64 (pbkdf2_bits W password salt).
Proof.
  unfold hashPassword. cbn [Subtle.importKey forallb Subtle.has_usage existsb
    Subtle.usage_eqb negb orb andb length Nat.eqb rbind].
  unfold Subtle.deriveBits.
  cbn [Subtle.algorithm Subtle.usages Subtle.is_pbkdf2 Subtle.has_usage
       existsb Subtle.usage_eqb negb orb].
  unfold Subtle.PBKDF2_derive_bits.
  cbn [Subtle.iterations Subtle.hash Subtle.salt Subtle.handle].
  change (256 mod 8 =? 0) with true.
  change (PBKDF2_ITERATIONS =? 0) with false.
  change (String.eqb "SHA-256" "SHA-256") with true.
  change (N.to_nat (256 / 8)) with 32%nat.
  cbn [negb rbind]. reflexivity.
Qed.

(** C7. Determinism of key derivation: for every secret [S] and salt [T],
    every call of [deriveKey(S, T)], in whatever session (state of the
    random source) it is made, returns one and the same 256-bit AES-GCM
    key and leaves the session as it was: the key is PBKDF2-HMAC-SHA-256
    of the UTF-8 secret and the salt with 100,000 iterations. *)
Theorem deriveKey_deterministic (S : DOMString) (T : Uint8Array) :
  exists key,
    (forall session : Entropy,
        await (deriveKey W S T) session = (Ok key, session)) /\
    Subtle.algorithm key = Subtle.AES_GCM 256 /\
    length (Subtle.handle key) = 32%nat /\
    Subtle.handle key =
      map (PBKDF2_HMAC_SHA256 W (TextEncoder_encode W S) T 100000) (seq 0 32).
Proof.
  eexists. split; [|split; [|split]].
  - intros session. unfold await. rewrite deriveKey_eq. reflexivity.
  - reflexivity.
  - apply length_pbkdf2_bits.
  - reflexivity.
Qed.

(** C4, as the code has it. [deriveKey] validates neither argument: for
    every secret, the empty string included, and every salt, of any
    length, it returns a 256-bit AES-GCM key. *)
Theorem deriveKey_accepts_every_input (secret : DOMString) (salt : Uint8Array) :
  exists key,
    deriveKey W secret salt = Ok key /\
    Subtle.algorithm key = Subtle.AES_GCM 256 /\
    length (Subtle.handle key) = 32%nat.
Proof.
  eexists. split; [apply deriveKey_eq|]. split; [reflexivity|].
  apply length_pbkdf2_bits.
Qed.

(** C3. The verification hash is not independent of the note key: for
    every password and salt, the string [hashPassword] returns is the
    base64 form of the very key material behind the key of [deriveKey]. *)
Theorem hashPassword_reveals_key (password : DOMString) (salt : Uint8Array) :
  exists key hash,
    deriveKey W password salt = Ok key /\
    hashPassword W password salt = Ok hash /\
    base64ToArrayBuffer hash = Ok (Subtle.handle key).
Proof.
  destruct (arrayBufferToBase64_total (pbkdf2_bits W password salt)) as [h Hh].
  eexists. exists h. split; [apply deriveKey_eq|]. split.
  - rewrite hashPassword_eq. exact Hh.
  - cbn [Subtle.handle]. now apply base64_decode_encode.
Qed.

End EncryptionFacts.

(** C4, counterexample. On the empty secret with a 16-octet salt, and on
    a salt of two octets, [deriveKey] returns a key instead of failing. *)
Lemma deriveKey_no_InvalidInput :
  (exists key, deriveKey Mini.platform (js "") Mini.salt16 = Ok key) /\
  (exists key,
      deriveKey Mini.platform Mini.password [Byte.x01; Byte.x02] = Ok key).
Proof. split; eexists; vm_compute; reflexivity. Qed.

(** ** Sealing and opening *)

Section SealOpen.
Context (W : WebPlatform).

Lemma generateIV_eq (e : Entropy) :
  generateIV e = (Ok (map e (seq 0 12)), fun i => e (12 + i)%nat).
Proof. reflexivity. Qed.

(** Whatever makes [decryptData] fail, the caller sees one error. *)
Lemma decryptData_error encryptedData key iv e :
  decryptData W encryptedData key iv = Err e -> e = decryption_failed.
Proof.
  unfold decryptData, rcatch.
  destruct (rbind _ _); intros [= <-]. reflexivity.
Qed.

Lemma encrypt_derived password salt iv dataBuffer :
  Subtle.encrypt W
    {| Subtle.iv := Some iv; Subtle.tagLength := TAG_LENGTH * 8 |}
    (derived_key W password salt) dataBuffer
  = Ok (AES_GCM_encrypt W (pbkdf2_bits W password salt) iv 128 dataBuffer).
Proof. reflexivity. Qed.

Lemma decrypt_derived password salt iv ct :
  Subtle.decrypt W
    {| Subtle.iv := Some iv; Subtle.tagLength := TAG_LENGTH * 8 |}
    (derived_key W password salt) ct
  = match AES_GCM_decrypt W (pbkdf2_bits W password salt) iv 128 ct with
    | Some plaintext => Ok plaintext
    | None => Err Subtle.OperationError
    end.
Proof. reflexivity. Qed.

(** [encryptNote] on a value that [JSON.stringify] accepts: the package,
    and the random source twelve octets further. *)
Lemma encryptNote_eq noteContent userPassword userSalt (e : Entropy) json :
  JSON_stringify W noteContent = Ok json ->
  let iv := map e (seq 0 12) in
  encryptNote W noteContent userPassword userSalt e =
  (Ok (envelope (sealed_bytes W json userPassword userSalt iv) iv userSalt),
   fun i => e (12 + i)%nat).
Proof.
  intros Hjson iv0.
  unfold encryptNote, try_catch, bind, await, ret.
  rewrite deriveKey_eq, generateIV_eq.
  fold (derived_key W userPassword userSalt). fold iv0.
  unfold encryptData. rewrite Hjson. cbn [rbind].
  rewrite encrypt_derived. cbn [rbind].
  rewrite !arrayBufferToBase64_encode.
  reflexivity.
Qed.

(** [decryptNote] on a package whose three fields are encodings. *)
Lemma decryptNote_eq (ct ivb saltb : Uint8Array) (userPassword : DOMString) :
  decryptNote W (envelope ct ivb saltb) userPassword
  = rcatch (decryptData W ct (derived_key W userPassword saltb) (Some ivb))
      (fun error => Err (Error (js "Decryption failed: " ++ message W error))).
Proof.
  unfold decryptNote, envelope. cbn [data iv salt].
  rewrite !base64ToArrayBuffer_encode. cbn [rbind].
  rewrite deriveKey_eq. cbn [rbind]. reflexivity.
Qed.

(** C1. Round-trip: for every record [R] that is JSON-serializable, every
    password [P], every salt [S] and every state of the random source,
    [encryptNote(R, P, S)] returns a package, and [decryptNote] of that
    package with [P] returns [R] (given that AES-GCM decryption inverts
    encryption under the same key and IV). *)
Theorem seal_open_roundtrip (R : value W) (P : DOMString) (S : Uint8Array)
    (e : Entropy) :
  gcm_correct W ->
  json_serializable W R ->
  exists package e',
    encryptNote W R P S e = (Ok package, e') /\
    decryptNote W package P = Ok R.
Proof.
  intros Hgcm (s & Hs & Hutf & Hparse).
  do 2 eexists. split.
  - apply (encryptNote_eq R P S e Hs).
  - rewrite decryptNote_eq. unfold decryptData.
    rewrite decrypt_derived. unfold sealed_bytes. rewrite Hgcm.
    unfold encode_optional. cbn [rbind]. rewrite Hutf, Hparse. reflexivity.
Qed.

(** A package that [encryptNote] has returned is made of three encodings. *)
Lemma encryptNote_inv noteContent userPassword userSalt (e e' : Entropy) package :
  encryptNote W noteContent userPassword userSalt e = (Ok package, e') ->
  exists json,
    JSON_stringify W noteContent = Ok json /\
    package =
      envelope (sealed_bytes W json userPassword userSalt (map e (seq 0 12)))
        (map e (seq 0 12)) userSalt /\
    e' = fun i => e (12 + i)%nat.
Proof.
  destruct (JSON_stringify W noteContent) as [json|x] eqn:Hjson.
  - rewrite (encryptNote_eq noteContent userPassword userSalt e Hjson).
    intros [= <- <-]. exists json. auto.
  - unfold encryptNote, try_catch, bind, await, ret.
    rewrite deriveKey_eq, generateIV_eq.
    unfold encryptData. rewrite Hjson. cbn [rbind]. unfold throw.
    discriminate.
Qed.

(** [decryptData] fails when the tag check of AES-GCM fails. *)
Lemma decryptData_rejected ct key iv :
  AES_GCM_decrypt W (Subtle.handle key) iv 128 ct = None ->
  decryptData W ct key (Some iv) = Err decryption_failed.
Proof.
  intros Hrej.
  destruct (decryptData W ct key (Some iv)) as [v|x] eqn:E.
  - exfalso. revert E. unfold decryptData, Subtle.decrypt.
    cbn [Subtle.iv Subtle.tagLength].
    change (TAG_LENGTH * 8) with 128. rewrite Hrej.
    destruct (negb (Subtle.is_aes_gcm (Subtle.algorithm key)));
      [discriminate|].
    destruct (negb (Subtle.has_usage Subtle.Decrypt (Subtle.usages key)));
      [discriminate|].
    destruct (negb (Subtle.is_tag_length 128)); discriminate.
  - f_equal. now apply decryptData_error in E.
Qed.

(** [decryptData] fails when the plaintext does not parse. *)
Lemma decryptData_unparsed ct key iv pt x :
  AES_GCM_decrypt W (Subtle.handle key) iv 128 ct = Some pt ->
  JSON_parse W (TextDecoder_decode W pt) = Err x ->
  decryptData W ct key (Some iv) = Err decryption_failed.
Proof.
  intros Hdec Hparse.
  destruct (decryptData W ct key (Some iv)) as [v|y] eqn:E.
  - exfalso. revert E. unfold decryptData, Subtle.decrypt.
    cbn [Subtle.iv Subtle.tagLength].
    change (TAG_LENGTH * 8) with 128. rewrite Hdec.
    destruct (negb (Subtle.is_aes_gcm (Subtle.algorithm key)));
      [discriminate|].
    destruct (negb (Subtle.has_usage Subtle.Decrypt (Subtle.usages key)));
      [discriminate|].
    destruct (negb (Subtle.is_tag_length 128)); [discriminate|].
    cbn [rbind]. rewrite Hparse. discriminate.
  - f_equal. now apply decryptData_error in E.
Qed.

(** [decryptNote] when [decryptData] fails on the decoded package. *)
Lemma decryptNote_failed ct ivb saltb userPassword key :
  deriveKey W userPassword saltb = Ok key ->
  decryptData W ct key (Some ivb) = Err decryption_failed ->
  decryptNote W (envelope ct ivb saltb) userPassword
  = Err decryption_failed_twice.
Proof.
  intros Hkey Hfail. rewrite deriveKey_eq in Hkey. injection Hkey as <-.
  rewrite decryptNote_eq.
  fold (derived_key W userPassword saltb) in Hfail.
  now rewrite Hfail.
Qed.

(** C2. Tamper detection: for every package sealed by [encryptNote], with
    ciphertext [ct] (the decoded [data] field, tag included), and for
    every position [i] of a bit of [ct]: when the tag check of AES-GCM
    rejects [ct] with one bit inverted, [decryptData] on the modified
    ciphertext with the right key and IV fails with the decryption error
    and so does [decryptNote] on the package that carries it; neither
    returns a value. *)
Theorem tamper_detection (R : value W) (P : DOMString) (S : Uint8Array)
    (e e' : Entropy) (package : EncryptedPackage) (key : Subtle.CryptoKey)
    (ct ivb : Uint8Array) (i : nat) :
  encryptNote W R P S e = (Ok package, e') ->
  deriveKey W P S = Ok key ->
  base64ToArrayBuffer (data package) = Ok ct ->
  base64ToArrayBuffer (iv package) = Ok ivb ->
  gcm_rejects_bit_flips W (Subtle.handle key) ivb ct ->
  (i < 8 * length ct)%nat ->
  decryptData W (flip_bit i ct) key (Some ivb) = Err decryption_failed /\
  forall tampered,
    arrayBufferToBase64 (flip_bit i ct) = Ok tampered ->
    decryptNote W
      {| data := tampered; iv := iv package; salt := salt package |} P
    = Err decryption_failed_twice.
Proof.
  intros Hseal Hkey Hct Hiv Hrej Hi.
  apply encryptNote_inv in Hseal. destruct Hseal as (json & _ & -> & _).
  remember (map e (seq 0 12)) as iv0 eqn:Eiv0. clear Eiv0.
  unfold envelope in Hct, Hiv. cbn [data iv salt] in Hct, Hiv.
  rewrite base64ToArrayBuffer_encode in Hct, Hiv.
  injection Hct as Ect. injection Hiv as Eiv.
  pose proof (decryptData_rejected _ _ _ (Hrej i Hi)) as Hfail.
  split; [exact Hfail|].
  intros tampered Ht. rewrite arrayBufferToBase64_encode in Ht.
  injection Ht as <-. rewrite Eiv.
  change (decryptNote W (envelope (flip_bit i ct) ivb S) P
          = Err decryption_failed_twice).
  now apply decryptNote_failed with (key := key).
Qed.

(** What [decryptData] returns when the tag verifies and the text parses:
    the parsed value, whatever it is. *)
Lemma decryptData_parsed password salt ct iv pt (v : value W) :
  AES_GCM_decrypt W (pbkdf2_bits W password salt) iv 128 ct = Some pt ->
  JSON_parse W (TextDecoder_decode W pt) = Ok v ->
  decryptData W ct (derived_key W password salt) (Some iv) = Ok v.
Proof.
  intros Hdec Hparse. unfold decryptData.
  rewrite decrypt_derived, Hdec. cbn [rbind]. rewrite Hparse. reflexivity.
Qed.

(** C5, as the code has it. A tag that does not verify and a plaintext
    that decrypts but is not JSON text make [decryptData] fail with one
    and the same error, "Decryption failed: Invalid key or corrupted
    data", and [decryptNote] with that message prefixed once more: the
    caller cannot tell the two apart.  And the shape of the record is not
    checked: whenever the decrypted bytes parse as a JSON value, whatever
    value it is, [decryptData] and [decryptNote] return it and raise no
    error. *)
Theorem open_failures_coincide (P : DOMString) (S : Uint8Array)
    (key : Subtle.CryptoKey) (iv ct1 ct2 pt : Uint8Array) (x : exn) :
  deriveKey W P S = Ok key ->
  AES_GCM_decrypt W (Subtle.handle key) iv 128 ct1 = None ->
  AES_GCM_decrypt W (Subtle.handle key) iv 128 ct2 = Some pt ->
  JSON_parse W (TextDecoder_decode W pt) = Err x ->
  (decryptData W ct1 key (Some iv) = Err decryption_failed /\
   decryptData W ct2 key (Some iv) = Err decryption_failed) /\
  (decryptNote W (envelope ct1 iv S) P = Err decryption_failed_twice /\
   decryptNote W (envelope ct2 iv S) P = Err decryption_failed_twice) /\
  (forall (ct3 iv3 pt3 : Uint8Array) (v : value W),
     AES_GCM_decrypt W (Subtle.handle key) iv3 128 ct3 = Some pt3 ->
     JSON_parse W (TextDecoder_decode W pt3) = Ok v ->
     decryptData W ct3 key (Some iv3) = Ok v /\
     decryptNote W (envelope ct3 iv3 S) P = Ok v).
Proof.
  intros Hkey Htag Hdec Hparse.
  pose proof (decryptData_rejected _ _ _ Htag) as H1.
  pose proof (decryptData_unparsed _ _ _ Hdec Hparse) as H2.
  split; [split; assumption|].
  split; [split; now apply decryptNote_failed with (key := key)|].
  intros ct3 iv3 pt3 v Hdec3 Hparse3.
  rewrite deriveKey_eq in Hkey. injection Hkey as <-.
  cbn [Subtle.handle] in Hdec3.
  pose proof (decryptData_parsed P S ct3 iv3 Hdec3 Hparse3) as H3.
  split; [exact H3|].
  rewrite decryptNote_eq. unfold derived_key in H3. unfold derived_key.
  rewrite H3. reflexivity.
Qed.

(** C6. IV uniqueness: for every record [R] that [JSON.stringify]
    accepts, password [P] and salt [S], every call of [encryptNote] puts
    in the package the twelve octets it draws from the random source at
    that call and leaves the source past them; and two calls whose draws
    differ return packages whose [iv] fields differ and whose [data]
    fields differ (AES-GCM giving distinct outputs for distinct 96-bit IVs
    under one key). *)
Theorem iv_uniqueness (R : value W) (P : DOMString) (S : Uint8Array)
    (json : option DOMString) (e1 e2 : Entropy) :
  JSON_stringify W R = Ok json ->
  gcm_nonce_sensitive W ->
  map e1 (seq 0 12) <> map e2 (seq 0 12) ->
  exists p1 p2,
    encryptNote W R P S e1 = (Ok p1, fun i => e1 (12 + i)%nat) /\
    encryptNote W R P S e2 = (Ok p2, fun i => e2 (12 + i)%nat) /\
    base64ToArrayBuffer (iv p1) = Ok (map e1 (seq 0 12)) /\
    base64ToArrayBuffer (iv p2) = Ok (map e2 (seq 0 12)) /\
    iv p1 <> iv p2 /\
    data p1 <> data p2.
Proof.
  intros Hjson Hgcm Hdraw.
  do 2 eexists.
  split; [apply (encryptNote_eq R P S e1 Hjson)|].
  split; [apply (encryptNote_eq R P S e2 Hjson)|].
  unfold envelope. cbn [iv data].
  split; [apply base64ToArrayBuffer_encode|].
  split; [apply base64ToArrayBuffer_encode|].
  split.
  - intros Heq. apply Hdraw.
    apply arrayBufferToBase64_inj
      with (s := Base64.encode (map Byte.to_N (map e2 (seq 0 12)))).
    + rewrite arrayBufferToBase64_encode. now rewrite Heq.
    + apply arrayBufferToBase64_encode.
  - intros Heq.
    apply (Hgcm (pbkdf2_bits W P S) (map e1 (seq 0 12)) (map e2 (seq 0 12))
             (encode_optional W json)).
    + now rewrite length_map, length_seq.
    + now rewrite length_map, length_seq.
    + exact Hdraw.
    + fold (sealed_bytes W json P S (map e1 (seq 0 12))).
      fold (sealed_bytes W json P S (map e2 (seq 0 12))).
      apply arrayBufferToBase64_inj
        with (s := Base64.encode
                     (map Byte.to_N (sealed_bytes W json P S (map e2 (seq 0 12))))).
      * rewrite arrayBufferToBase64_encode. now rewrite Heq.
      * apply arrayBufferToBase64_encode.
Qed.

End SealOpen.

(** ** The note model *)

Section NoteModelFacts.
Context (W : WebPlatform) (F : Firestore).

(** [createNote] and the reads call [encryptData] and [decryptData] with
    two arguments: the parameter object of AES-GCM then lacks [iv]. *)
Lemma encryptData_without_iv (data : value W) (key : Subtle.CryptoKey) :
  exists e, encryptData W data key None = Err e.
Proof.
  unfold encryptData. destruct (JSON_stringify W data); cbn; eauto.
Qed.

Lemma decryptData_without_iv (ed : Uint8Array) (key : Subtle.CryptoKey) :
  decryptData W ed key None = Err decryption_failed.
Proof. reflexivity. Qed.

Lemma createNote_cases (this : NoteModel) (noteData : NoteData W) (w : World F) :
  match encryptData W (dataToEncrypt noteData) (this_encryptionKey this) None with
  | Err e =>
      createNote this noteData w =
      (Err (Error (js "Failed to create note")),
       logged w [js "Error creating note:"] e)
  | Ok ct =>
      let note := new_note this noteData ct in
      match addDoc F (database w) note with
      | (Ok docRef, d') =>
          createNote this noteData w =
          (Ok {| id := docRef; stored := note;
                 title := undefined W; content := undefined W |},
           {| database := d'; console := console w |})
      | (Err e, d') =>
          createNote this noteData w =
          (Err (Error (js "Failed to create note")),
           logged {| database := d'; console := console w |}
                  [js "Error creating note:"] e)
      end
  end.
Proof.
  unfold createNote, try_catch, bind, await, dataToEncrypt.
  destruct (encryptData W _ (this_encryptionKey this) None) as [ct|e].
  - cbv zeta. unfold fs_addDoc. fold (new_note this noteData ct).
    destruct (addDoc F (database w) (new_note this noteData ct))
      as [[docRef|e] d']; reflexivity.
  - reflexivity.
Qed.

(** C10. Atomicity of note creation: for every [noteData], when the
    [encryptData] call of [createNote] on [{title, content}] fails, the
    store is left as it was and the caller receives the error "Failed to
    create note"; a store that has changed means the encryption had
    succeeded; and every error [createNote] throws is that one error,
    which carries neither title nor content. *)
Theorem createNote_atomic (this : NoteModel) (noteData : NoteData W)
    (w : World F) :
  (forall e,
      encryptData W (dataToEncrypt noteData) (this_encryptionKey this) None
      = Err e ->
      createNote this noteData w =
      (Err (Error (js "Failed to create note")),
       logged w [js "Error creating note:"] e)) /\
  (forall r w',
      createNote this noteData w = (r, w') ->
      database w' <> database w ->
      exists ct,
        encryptData W (dataToEncrypt noteData) (this_encryptionKey this) None
        = Ok ct) /\
  (forall x w',
      createNote this noteData w = (Err x, w') ->
      x = Error (js "Failed to create note")).
Proof.
  pose proof (createNote_cases this noteData w) as H.
  destruct (encryptData W (dataToEncrypt noteData) (this_encryptionKey this) None)
    as [ct|e].
  - cbv zeta in H.
    destruct (addDoc F (database w) (new_note this noteData ct))
      as [[docRef|e] d'];
      (split; [discriminate|]); (split; [eauto|]);
      intros x w'; rewrite H; intros [= <-]; try discriminate; reflexivity.
  - split; [intros e' [= <-]; exact H|].
    split.
    + intros r w'. rewrite H. intros [= <- <-] Hdb. now destruct Hdb.
    + intros x w'. rewrite H. now intros [= <- <-].
Qed.

(** With the call as it is written the encryption never succeeds, so
    [createNote] writes nothing for any input. *)
Lemma createNote_never_writes (this : NoteModel) (noteData : NoteData W)
    (w : World F) :
  exists e,
    createNote this noteData w =
    (Err (Error (js "Failed to create note")),
     logged w [js "Error creating note:"] e).
Proof.
  destruct (encryptData_without_iv (dataToEncrypt noteData)
              (this_encryptionKey this)) as [e He].
  exists e. pose proof (createNote_cases this noteData w) as H.
  now rewrite He in H.
Qed.

(** *** Reading notes *)

(** Reading a document never throws and never touches the store. *)
Lemma read_doc_eq (this : NoteModel) (doc : DOMString * NoteDoc) (w : World F) :
  exists log,
    read_doc W this doc w =
    (Ok (note_of W this doc),
     {| database := database w; console := console w ++ log |}).
Proof.
  unfold read_doc, note_of, decrypted_fields. cbn [stored].
  destruct (encryptedData (snd doc)) as [ed|].
  - unfold try_catch, bind, await, ret, console_error.
    destruct (decryptData W ed (this_encryptionKey this) None) as [v|e];
      cbn [rbind].
    + destruct (get W v (js "title")) as [t|e]; cbn [rbind].
      * destruct (get W v (js "content")) as [c|e]; cbn [rbind].
        -- exists []. rewrite app_nil_r. destruct w. reflexivity.
        -- eexists. reflexivity.
      * eexists. reflexivity.
    + eexists. reflexivity.
  - exists []. rewrite app_nil_r. destruct w. reflexivity.
Qed.

Lemma getNotes_loop (this : NoteModel) (tags : list DOMString)
    (docs : list (DOMString * NoteDoc)) :
  forall (acc : list (Note W)) (w : World F),
  exists log,
    for_of docs
      (fun notes doc =>
         noteData <- read_doc W this doc ;;
         if Nat.ltb 0 (length tags)
         then
           if hasTag tags noteData
           then ret (notes ++ [noteData])
           else ret notes
         else ret (notes ++ [noteData]))%st
      acc w =
    (Ok (acc ++ filter (kept tags) (map (note_of W this) docs)),
     {| database := database w; console := console w ++ log |}).
Proof.
  induction docs as [|doc docs IH]; intros acc w; cbn [for_of map filter].
  - exists []. rewrite !app_nil_r. destruct w. reflexivity.
  - unfold bind at 1. unfold bind at 1.
    destruct (read_doc_eq this doc w) as [log1 ->].
    unfold kept at 1.
    destruct (Nat.ltb 0 (length tags)) eqn:Htags.
    + destruct (hasTag tags (note_of W this doc)) eqn:Hhas; unfold ret at 1.
      * destruct (IH (acc ++ [note_of W this doc])
                    {| database := database w; console := console w ++ log1 |})
          as [log2 ->].
        exists (log1 ++ log2). cbn [database console].
        now rewrite <- !app_assoc.
      * destruct (IH acc
                    {| database := database w; console := console w ++ log1 |})
          as [log2 ->].
        exists (log1 ++ log2). cbn [database console].
        now rewrite <- !app_assoc.
    + unfold ret at 1.
      destruct (IH (acc ++ [note_of W this doc])
                  {| database := database w; console := console w ++ log1 |})
        as [log2 ->].
      exists (log1 ++ log2). cbn [database console].
      now rewrite <- !app_assoc.
Qed.

(** [getNotes] when the query succeeds: one note for each document that
    passes the tag filter, whatever decryption does. *)
Lemma getNotes_eq (this : NoteModel) (options : Options) (w : World F)
    (docs : list (DOMString * NoteDoc)) :
  getDocs F (database w) (notes_query this options) = Ok docs ->
  exists log,
    getNotes W this options w =
    (Ok (filter (kept (or_default (o_tags options) []))
           (map (note_of W this) docs)),
     {| database := database w; console := console w ++ log |}).
Proof.
  intros Hq. unfold getNotes, try_catch.
  cbv zeta. unfold bind at 1. unfold fs_getDocs at 1. rewrite Hq.
  destruct (getNotes_loop this (or_default (o_tags options) []) docs [] w)
    as [log ->].
  exists log. reflexivity.
Qed.

(** [getNote] on a document whose decryption fails. *)
Lemma getNote_decrypt_fails (this : NoteModel) (noteId : DOMString)
    (w : World F) (d : NoteDoc) (ed : Uint8Array) (e : exn) :
  getDoc F (database w) noteId = Ok (Some d) ->
  encryptedData d = Some ed ->
  decryptData W ed (this_encryptionKey this) None = Err e ->
  getNote W this noteId w =
  (Err (Error (js "Failed to get note")),
   logged w [js "Error getting note:"] e).
Proof.
  intros Hdoc Hed Hdec.
  unfold getNote, try_catch, bind, fs_getDoc, await.
  rewrite Hdoc, Hed, Hdec. reflexivity.
Qed.

(** C9, as the code has it. In the list read [getNotes], a stored note
    whose [encryptedData] fails to decrypt or parse does not abort the
    read and is not dropped: the read returns one note for every document
    of the query that passes the tag filter, and such a note is among
    them, with the title "[Decryption Error]" and the content "[Unable to
    decrypt note content]", whenever it passes that filter. *)
Theorem getNotes_flags_undecryptable (this : NoteModel) (options : Options)
    (w : World F) (docs : list (DOMString * NoteDoc))
    (doc : DOMString * NoteDoc) (ed : Uint8Array) (e : exn) :
  getDocs F (database w) (notes_query this options) = Ok docs ->
  In doc docs ->
  encryptedData (snd doc) = Some ed ->
  decryptData W ed (this_encryptionKey this) None = Err e ->
  exists notes w',
    getNotes W this options w = (Ok notes, w') /\
    database w' = database w /\
    notes = filter (kept (or_default (o_tags options) []))
              (map (note_of W this) docs) /\
    note_of W this doc = flagged W doc /\
    (kept (or_default (o_tags options) []) (flagged W doc) = true ->
     In (flagged W doc) notes).
Proof.
  intros Hq Hin Hed Hdec.
  assert (Hflag : note_of W this doc = flagged W doc).
  { unfold note_of, decrypted_fields. rewrite Hed, Hdec. reflexivity. }
  destruct (getNotes_eq this options w Hq) as [log ->].
  do 2 eexists. split; [reflexivity|]. split; [reflexivity|].
  split; [reflexivity|]. split; [exact Hflag|].
  intros Hkept. apply filter_In. split; [|exact Hkept].
  apply in_map_iff. exists doc. split; [exact Hflag|exact Hin].
Qed.

End NoteModelFacts.

(** ** The sign-up stores the note key *)

Section SignUpFacts.
Context (W : WebPlatform) (B : Firebase).

(** After a successful [signUp] the document written to ['users'] holds,
    under [passwordHash], the base64 form of the key material of the key
    that [deriveKey] returns for the password and the salt stored under
    [encryptionSalt] in the same document. *)
Lemma signUp_stores_key (email password displayName : DOMString)
    (s s' : Session B) (m : DOMString) :
  signUp W email password displayName s = (Ok (Success m), s') ->
  exists user doc salt key,
    fst (createUserWithEmailAndPassword B (s_auth s) email password) = Ok user /\
    setDoc B (s_users s) (uid user) doc = (Ok tt, s_users s') /\
    base64ToArrayBuffer (encryptionSalt doc) = Ok salt /\
    deriveKey W password salt = Ok key /\
    base64ToArrayBuffer (passwordHash doc) = Ok (Subtle.handle key).
Proof.
  unfold signUp, try_catch, bind, dispatch, on_auth, on_users, on_entropy,
    toISOString_now, await, ret.
  cbn [s_auth s_users s_entropy s_now s_state].
  destruct (createUserWithEmailAndPassword B (s_auth s) email password)
    as [[user|e] a1] eqn:Hcreate; [|discriminate].
  cbn [s_auth s_users s_entropy s_now s_state].
  destruct (updateProfile B a1 user displayName) as [[[]|e] a2];
    [|discriminate].
  cbn [s_auth s_users s_entropy s_now s_state].
  change (generateSalt (s_entropy s))
    with (Ok (map (s_entropy s) (seq 0 16)), fun i => s_entropy s (16 + i)%nat).
  cbn [s_auth s_users s_entropy s_now s_state].
  set (salt := map (s_entropy s) (seq 0 16)).
  rewrite (arrayBufferToBase64_encode salt).
  rewrite hashPassword_eq, arrayBufferToBase64_encode.
  cbn [s_auth s_users s_entropy s_now s_state].
  match goal with
  | |- context [setDoc B (s_users s) (uid user) ?d] =>
      set (doc := d); destruct (setDoc B (s_users s) (uid user) doc)
        as [[[]|e] u'] eqn:Hset; [|discriminate]
  end.
  cbn [s_auth s_users s_entropy s_now s_state].
  destruct (sendEmailVerification B a2 user) as [[[]|e] a3]; [|discriminate].
  intros [= _ <-]. cbn [s_users].
  exists user, doc, salt. eexists.
  split; [reflexivity|]. split; [exact Hset|].
  split; [apply base64ToArrayBuffer_encode|].
  split; [apply deriveKey_eq|].
  apply base64ToArrayBuffer_encode.
Qed.

End SignUpFacts.

(** ** The small platform meets the contracts *)

Module MiniFacts.
Import Mini.

Lemma ToUint8_eq (x : N) (b : byte) : x mod 256 = Byte.to_N b -> ToUint8 x = b.
Proof.
  intros H. unfold ToUint8. rewrite H. now rewrite Byte.of_to_N.
Qed.

Lemma unshift_shift (k : N) (b : byte) :
  ToUint8 (Byte.to_N (ToUint8 (Byte.to_N b + k)) + 256 - k mod 256) = b.
Proof.
  apply ToUint8_eq. rewrite to_N_ToUint8.
  pose proof (Byte.to_N_bounded b).
  zify. Z.to_euclidean_division_equations. lia.
Qed.

Lemma length_tag key iv body : length (tag key iv body) = 16%nat.
Proof.
  unfold tag, le32.
  rewrite length_app, length_firstn, length_app, repeat_length.
  cbn [length]. lia.
Qed.

Lemma bytes_eqb_refl (a : Uint8Array) : bytes_eqb a a = true.
Proof.
  induction a as [|x a IH]; cbn [bytes_eqb]; [reflexivity|].
  rewrite IH, andb_true_r. now apply Byte.byte_dec_lb.
Qed.

Lemma gcm_correct_mini : gcm_correct platform.
Proof.
  intros key iv t p. cbn [AES_GCM_decrypt AES_GCM_encrypt platform].
  unfold unseal, seal.
  set (body := map (fun b => ToUint8 (Byte.to_N b + checksum key)) p).
  rewrite length_app, length_tag.
  replace (Nat.ltb (length body + 16) 16) with false
    by (symmetry; apply Nat.ltb_ge; lia).
  replace (length body + 16 - 16)%nat with (length body) by lia.
  rewrite firstn_app, firstn_all, Nat.sub_diag, firstn_0, app_nil_r.
  rewrite skipn_app, skipn_all, Nat.sub_diag, skipn_O, app_nil_l.
  rewrite bytes_eqb_refl. f_equal.
  subst body. rewrite map_map.
  rewrite <- (map_id p) at 2. apply map_ext.
  intros b. apply unshift_shift.
Qed.

Lemma gcm_nonce_sensitive_mini : gcm_nonce_sensitive platform.
Proof.
  intros key iv1 iv2 p H1 H2 Hne Heq. apply Hne.
  cbn [AES_GCM_encrypt platform] in Heq. unfold seal, tag in Heq.
  apply app_inv_head in Heq.
  assert (Hiv : forall iv : Uint8Array, length iv = 12%nat ->
                  firstn 12 (iv ++ repeat Byte.x00 12) = iv).
  { intros iv H. rewrite firstn_app, H, Nat.sub_diag, firstn_0, app_nil_r.
    rewrite <- H. apply firstn_all. }
  rewrite (Hiv iv1 H1), (Hiv iv2 H2) in Heq.
  now apply app_inv_tail in Heq.
Qed.

(** A property checked on every index below a bound. *)
Lemma forall_below (n : nat) (P : nat -> bool) :
  forallb P (seq 0 n) = true -> forall i, (i < n)%nat -> P i = true.
Proof.
  intros H i Hi.
  apply (proj1 (forallb_forall P (seq 0 n)) H). apply in_seq. lia.
Qed.

Lemma rejects_bit_flips_mini :
  gcm_rejects_bit_flips platform (Subtle.handle key) iv12 sealed.
Proof.
  intros i Hi.
  assert (H : rejected (flip_bit i sealed) = true).
  { apply forall_below
      with (n := (8 * length sealed)%nat)
           (P := fun i => rejected (flip_bit i sealed)); [|exact Hi].
    vm_compute. reflexivity. }
  unfold rejected in H. cbn [AES_GCM_decrypt platform].
  destruct (unseal (Subtle.handle key) iv12 128 (flip_bit i sealed));
    [discriminate|reflexivity].
Qed.

Lemma json_serializable_note_AB : json_serializable platform note_AB.
Proof.
  eexists. split; [reflexivity|]. split; vm_compute; reflexivity.
Qed.

End MiniFacts.

(** ** The statements above on concrete inputs *)

(** C1 on the note [{title: "A", content: "B"}]. *)
Lemma seal_open_roundtrip_witness :
  gcm_correct Mini.platform /\
  json_serializable Mini.platform Mini.note_AB /\
  exists package e',
    encryptNote Mini.platform Mini.note_AB Mini.password Mini.salt16
      (Mini.counter 0) = (Ok package, e') /\
    decryptNote Mini.platform package Mini.password = Ok Mini.note_AB.
Proof.
  split; [exact MiniFacts.gcm_correct_mini|].
  split; [exact MiniFacts.json_serializable_note_AB|].
  apply (@seal_open_roundtrip Mini.platform Mini.note_AB Mini.password
           Mini.salt16 (Mini.counter 0)).
  - exact MiniFacts.gcm_correct_mini.
  - exact MiniFacts.json_serializable_note_AB.
Defined.

(** C2 on the first bit of the sealed note. *)
Lemma tamper_detection_witness :
  decryptData Mini.platform Mini.tampered Mini.key (Some Mini.iv12)
  = Err decryption_failed /\
  forall tampered,
    arrayBufferToBase64 Mini.tampered = Ok tampered ->
    decryptNote Mini.platform
      {| data := tampered; iv := iv Mini.package; salt := salt Mini.package |}
      Mini.password
    = Err decryption_failed_twice.
Proof.
  apply (@tamper_detection Mini.platform Mini.note_AB Mini.password
           Mini.salt16 (Mini.counter 0)
           (fun i => Mini.counter 0 (12 + i)%nat)
           Mini.package Mini.key Mini.sealed Mini.iv12 0%nat).
  - vm_compute. reflexivity.
  - vm_compute. reflexivity.
  - vm_compute. reflexivity.
  - vm_compute. reflexivity.
  - exact MiniFacts.rejects_bit_flips_mini.
  - vm_compute. lia.
Defined.

(** C5, counterexample. A ciphertext whose tag does not verify and one
    that decrypts to a text that is not JSON make [decryptData] fail with
    equal errors, and [decryptNote] too; and sealed texts that are JSON
    but no note record ([null], a string, a record with neither title
    nor content) are opened without any error. *)
Lemma open_failures_not_distinct :
  AES_GCM_decrypt Mini.platform (Subtle.handle Mini.key) Mini.iv12 128
    Mini.tampered = None /\
  (exists pt,
      AES_GCM_decrypt Mini.platform (Subtle.handle Mini.key) Mini.iv12 128
        Mini.garbled = Some pt /\
      JSON_parse Mini.platform (TextDecoder_decode Mini.platform pt)
      = Err SyntaxError) /\
  decryptData Mini.platform Mini.tampered Mini.key (Some Mini.iv12)
  = decryptData Mini.platform Mini.garbled Mini.key (Some Mini.iv12) /\
  decryptNote Mini.platform
    (envelope Mini.tampered Mini.iv12 Mini.salt16) Mini.password
  = decryptNote Mini.platform
      (envelope Mini.garbled Mini.iv12 Mini.salt16) Mini.password /\
  decryptData Mini.platform Mini.sealed_null Mini.key (Some Mini.iv12)
  = Ok Mini.VNull /\
  decryptNote Mini.platform
    (envelope Mini.sealed_null Mini.iv12 Mini.salt16) Mini.password
  = Ok Mini.VNull /\
  decryptNote Mini.platform
    (envelope Mini.sealed_string Mini.iv12 Mini.salt16) Mini.password
  = Ok (Mini.VString (js "hello")) /\
  decryptNote Mini.platform
    (envelope Mini.sealed_other Mini.iv12 Mini.salt16) Mini.password
  = Ok Mini.other_record.
Proof.
  split; [vm_compute; reflexivity|].
  split; [eexists; split; vm_compute; reflexivity|].
  repeat split; vm_compute; reflexivity.
Qed.

(** C5, as the code has it, on the same ciphertexts. *)
Lemma open_failures_coincide_witness :
  (decryptData Mini.platform Mini.tampered Mini.key (Some Mini.iv12)
   = Err decryption_failed /\
   decryptData Mini.platform Mini.garbled Mini.key (Some Mini.iv12)
   = Err decryption_failed) /\
  (decryptNote Mini.platform
     (envelope Mini.tampered Mini.iv12 Mini.salt16) Mini.password
   = Err decryption_failed_twice /\
   decryptNote Mini.platform
     (envelope Mini.garbled Mini.iv12 Mini.salt16) Mini.password
   = Err decryption_failed_twice) /\
  (forall (ct3 iv3 pt3 : Uint8Array) (v : value Mini.platform),
     AES_GCM_decrypt Mini.platform (Subtle.handle Mini.key) iv3 128 ct3
     = Some pt3 ->
     JSON_parse Mini.platform (TextDecoder_decode Mini.platform pt3) = Ok v ->
     decryptData Mini.platform ct3 Mini.key (Some iv3) = Ok v /\
     decryptNote Mini.platform (envelope ct3 iv3 Mini.salt16) Mini.password
     = Ok v).
Proof.
  apply (@open_failures_coincide Mini.platform Mini.password Mini.salt16
           Mini.key Mini.iv12 Mini.tampered Mini.garbled
           (Mini.utf8_encode (js "hello")) SyntaxError).
  - vm_compute. reflexivity.
  - vm_compute. reflexivity.
  - vm_compute. reflexivity.
  - vm_compute. reflexivity.
Defined.

(** C6 on two successive draws of one random source. *)
Lemma iv_uniqueness_witness :
  map (Mini.counter 0) (seq 0 12) <> map (Mini.counter 12) (seq 0 12) /\
  exists p1 p2,
    encryptNote Mini.platform Mini.note_AB Mini.password Mini.salt16
      (Mini.counter 0) = (Ok p1, fun i => Mini.counter 0 (12 + i)%nat) /\
    encryptNote Mini.platform Mini.note_AB Mini.password Mini.salt16
      (Mini.counter 12) = (Ok p2, fun i => Mini.counter 12 (12 + i)%nat) /\
    base64ToArrayBuffer (iv p1) = Ok (map (Mini.counter 0) (seq 0 12)) /\
    base64ToArrayBuffer (iv p2) = Ok (map (Mini.counter 12) (seq 0 12)) /\
    iv p1 <> iv p2 /\
    data p1 <> data p2.
Proof.
  assert (Hdraw : map (Mini.counter 0) (seq 0 12)
                  <> map (Mini.counter 12) (seq 0 12))
    by (vm_compute; discriminate).
  split; [exact Hdraw|].
  apply (@iv_uniqueness Mini.platform Mini.note_AB Mini.password Mini.salt16
           (Mini.stringify Mini.note_AB) (Mini.counter 0) (Mini.counter 12)).
  - reflexivity.
  - exact MiniFacts.gcm_nonce_sensitive_mini.
  - exact Hdraw.
Defined.

(** C9, counterexample. The store holds the note "n0" of the user, whose
    ciphertext does not decrypt; [getNote] on "n0" throws "Failed to get
    note" instead of returning the note marked. *)
Lemma getNote_aborts :
  getDoc Mini.store (database Mini.world0) (js "n0") = Ok (Some Mini.doc0) /\
  encryptedData Mini.doc0 = Some Mini.tampered /\
  decryptData Mini.platform Mini.tampered
    (this_encryptionKey Mini.model) None = Err decryption_failed /\
  fst (getNote Mini.platform Mini.model (js "n0") Mini.world0)
  = Err (Error (js "Failed to get note")).
Proof. repeat split; vm_compute; reflexivity. Qed.

(** C9, as the code has it, on that store. *)
Lemma getNotes_flags_undecryptable_witness :
  exists notes w',
    getNotes Mini.platform Mini.model Mini.no_options Mini.world0
    = (Ok notes, w') /\
    database w' = database Mini.world0 /\
    notes = filter (kept (or_default (o_tags Mini.no_options) []))
              (map (note_of Mini.platform Mini.model)
                 [(js "n0", Mini.doc0)]) /\
    note_of Mini.platform Mini.model (js "n0", Mini.doc0)
    = flagged Mini.platform (js "n0", Mini.doc0) /\
    (kept (or_default (o_tags Mini.no_options) [])
       (flagged Mini.platform (js "n0", Mini.doc0)) = true ->
     In (flagged Mini.platform (js "n0", Mini.doc0)) notes).
Proof.
  apply (@getNotes_flags_undecryptable Mini.platform Mini.store Mini.model
           Mini.no_options Mini.world0 [(js "n0", Mini.doc0)]
           (js "n0", Mini.doc0) Mini.tampered decryption_failed).
  - vm_compute. reflexivity.
  - left. reflexivity.
  - reflexivity.
  - reflexivity.
Defined.

(** C10 on the note [{title: "A", content: "B"}]. *)
Lemma createNote_atomic_witness :
  encryptData Mini.platform (dataToEncrypt Mini.noteData)
    (this_encryptionKey Mini.model) None = Err TypeError /\
  createNote Mini.model Mini.noteData Mini.world0 =
  (Err (Error (js "Failed to create note")),
   logged Mini.world0 [js "Error creating note:"] TypeError).
Proof.
  split; [reflexivity|].
  apply (proj1 (@createNote_atomic Mini.platform Mini.store Mini.model
                  Mini.noteData Mini.world0)).
  reflexivity.
Defined.

(** C3 on a sign-up: the document stored for the new user holds, under
    [passwordHash], the key material of the key that [deriveKey] returns
    for the password and the stored salt. *)
Lemma signUp_leaks_key_example :
  fst (signUp Mini.platform (js "a@b.c") Mini.password (js "Ann")
         Mini.session0)
  = Ok (Success (js "Account created successfully! Please verify your email."))
  /\
  exists doc salt key,
    Mini.users_after_signUp = [(js "u0", doc)] /\
    base64ToArrayBuffer (encryptionSalt doc) = Ok salt /\
    deriveKey Mini.platform Mini.password salt = Ok key /\
    base64ToArrayBuffer (passwordHash doc) = Ok (Subtle.handle key).
Proof.
  split; [vm_compute; reflexivity|].
  do 3 eexists.
  split; [vm_compute; reflexivity|].
  split; [vm_compute; reflexivity|].
  split; vm_compute; reflexivity.
Qed.

(** * Further properties *)

(** ** Reads and writes of the note model *)

Section NoteModelWritesFacts.
Context (W : WebPlatform) (F : Firestore) (Wr : FirestoreWrites W F).

(** [getNote] never writes to the store. *)
Lemma getNote_frame (this : NoteModel) (noteId : DOMString) (w : World F) :
  exists r log,
    getNote W this noteId w =
    (r, {| database := database w; console := console w ++ log |}).
Proof.
  unfold getNote, try_catch, bind, fs_getDoc, await, ret, console_error, throw.
  destruct (getDoc F (database w) noteId) as [[d|]|e].
  - destruct (encryptedData d) as [ed|].
    + rewrite decryptData_without_iv. do 2 eexists. reflexivity.
    + exists (Ok (Some {| id := noteId; stored := d;
                          title := undefined W; content := undefined W |})), [].
      rewrite app_nil_r. destruct w. reflexivity.
  - exists (Ok None), []. rewrite app_nil_r. destruct w. reflexivity.
  - do 2 eexists. reflexivity.
Qed.

(** What [getNote] returns when it returns: the stored document, with no
    ciphertext in it and no title or content. *)
Lemma getNote_ok (this : NoteModel) (noteId : DOMString) (w w' : World F)
    (n : Note W) :
  getNote W this noteId w = (Ok (Some n), w') ->
  w' = w /\ getDoc F (database w) noteId = Ok (Some (stored n)) /\
  encryptedData (stored n) = None /\
  n = {| id := noteId; stored := stored n;
         title := undefined W; content := undefined W |}.
Proof.
  unfold getNote, try_catch, bind, fs_getDoc, await, ret, console_error, throw.
  destruct (getDoc F (database w) noteId) as [[d|]|e]; try discriminate.
  destruct (encryptedData d) as [ed|] eqn:Hed.
  - rewrite decryptData_without_iv. discriminate.
  - intros [= <- <-]. cbn [stored]. auto.
Qed.

Lemma getNote_fails_on_encrypted_notes_aux (this : NoteModel)
    (noteId : DOMString) (w : World F) (d : NoteDoc) (ed : Uint8Array) :
  getDoc F (database w) noteId = Ok (Some d) ->
  encryptedData d = Some ed ->
  getNote W this noteId w =
  (Err (Error (js "Failed to get note")),
   logged w [js "Error getting note:"] decryption_failed).
Proof.
  intros Hdoc Hed.
  apply getNote_decrypt_fails with (d := d) (ed := ed);
    [exact Hdoc | exact Hed | apply decryptData_without_iv].
Qed.

(** X1. Single-note read of an encrypted note: for every stored note that
    has an [encryptedData], [getNote] fails with "Failed to get note" and
    leaves the store as it is; the call decrypts without an IV. *)
Theorem getNote_fails_on_encrypted_notes (this : NoteModel)
    (noteId : DOMString) (w : World F) (d : NoteDoc) (ed : Uint8Array) :
  getDoc F (database w) noteId = Ok (Some d) ->
  encryptedData d = Some ed ->
  getNote W this noteId w =
  (Err (Error (js "Failed to get note")),
   logged w [js "Error getting note:"] decryption_failed).
Proof.
  intros Hdoc Hed.
  exact (getNote_fails_on_encrypted_notes_aux this noteId w Hdoc Hed).
Qed.

(** X2. List read of encrypted notes: when the query of [getNotes]
    succeeds, every note it returns that has an [encryptedData] carries
    the title "[Decryption Error]" and the content "[Unable to decrypt
    note content]"; no read returns a decrypted title. *)
Theorem getNotes_never_decrypts (this : NoteModel) (options : Options)
    (w : World F) (docs : list (DOMString * NoteDoc)) :
  getDocs F (database w) (notes_query this options) = Ok docs ->
  exists notes w',
    getNotes W this options w = (Ok notes, w') /\
    database w' = database w /\
    forall n, In n notes ->
      encryptedData (stored n) <> None ->
      title n = of_string W (js "[Decryption Error]") /\
      content n = of_string W (js "[Unable to decrypt note content]").
Proof.
  intros Hq. destruct (getNotes_eq W this options w Hq) as [log ->].
  do 2 eexists. split; [reflexivity|]. split; [reflexivity|].
  intros n Hn Hed. apply filter_In in Hn. destruct Hn as [Hn _].
  apply in_map_iff in Hn. destruct Hn as (doc & <- & _).
  unfold note_of, decrypted_fields in *.
  destruct (encryptedData (snd doc)) as [ed|] eqn:E.
  - rewrite decryptData_without_iv. cbn [rbind]. split; reflexivity.
  - cbn [stored] in Hed. congruence.
Qed.

(** X3. Updates of title or content: for every note and every [updates]
    that defines [title] or [content], [updateNote] fails with "Failed to
    update note" and writes nothing; the new text never reaches the
    store. *)
Theorem updateNote_text_is_never_written (this : NoteModel)
    (noteId : DOMString) (updates : Updates W) (w : World F) :
  is_defined (up_title updates) || is_defined (up_content updates) = true ->
  exists log,
    updateNote Wr this noteId updates w =
    (Err (Error (js "Failed to update note")),
     {| database := database w; console := console w ++ log |}).
Proof.
  intros Hdef. unfold updateNote, try_catch. unfold bind at 1.
  rewrite Hdef. unfold bind at 1.
  destruct (getNote_frame this noteId w) as (r & log & ->).
  destruct r as [[n|]|e].
  - unfold bind at 1. unfold await at 1.
    match goal with
    | |- context [encryptData W ?d ?k None] =>
        destruct (encryptData_without_iv W d k) as [e ->]
    end.
    unfold bind, console_error, throw. cbn [database console].
    eexists. rewrite <- app_assoc. reflexivity.
  - unfold bind, console_error, throw. cbn [database console].
    eexists. rewrite <- app_assoc. reflexivity.
  - unfold bind, console_error, throw. cbn [database console].
    eexists. rewrite <- app_assoc. reflexivity.
Qed.

Lemma updateNote_metadata_eq (this : NoteModel) (noteId : DOMString)
    (updates : Updates W) (w : World F) :
  up_title updates = None ->
  up_content updates = None ->
  updateNote Wr this noteId updates w =
  match updateDoc Wr (database w) noteId (stamped updates) with
  | (Ok _, d') =>
      (Ok {| updated_id := noteId; updated := stamped updates |},
       {| database := d'; console := console w |})
  | (Err e, d') =>
      (Err (Error (js "Failed to update note")),
       logged {| database := d'; console := console w |}
         [js "Error updating note:"] e)
  end.
Proof.
  intros Ht Hc.
  unfold updateNote, try_catch, bind, fs_updateDoc, ret.
  rewrite Ht, Hc. cbn [is_defined orb].
  destruct (updateDoc Wr (database w) noteId (stamped updates))
    as [[[]|e] d']; reflexivity.
Qed.

(** X4. Updates of the other properties: when [updates] defines neither
    [title] nor [content], [updateNote] does not read the note; it makes
    one [updateDoc] call with [updates] and [updatedAt] set to the server
    time stamp, returns [{ id, ...updates }] when the call succeeds and
    fails with "Failed to update note" when it fails. *)
Theorem updateNote_of_metadata (this : NoteModel) (noteId : DOMString)
    (updates : Updates W) (w : World F) :
  up_title updates = None ->
  up_content updates = None ->
  updateNote Wr this noteId updates w =
  match updateDoc Wr (database w) noteId (stamped updates) with
  | (Ok _, d') =>
      (Ok {| updated_id := noteId; updated := stamped updates |},
       {| database := d'; console := console w |})
  | (Err e, d') =>
      (Err (Error (js "Failed to update note")),
       logged {| database := d'; console := console w |}
         [js "Error updating note:"] e)
  end.
Proof.
  intros Ht Hc.
  unfold updateNote, try_catch. unfold bind at 1.
  rewrite Ht, Hc. cbn [is_defined orb].
  unfold bind, fs_updateDoc, ret.
  destruct (updateDoc Wr (database w) noteId (stamped updates))
    as [[[]|e] d']; reflexivity.
Qed.

(** X5. Soft delete: [deleteNote] makes one [updateDoc] call that sets
    [isDeleted] to [true] and [updatedAt] to the server time stamp and
    nothing else; the document and its ciphertext stay in the store.
    When the call succeeds, [deleteNote] returns no value ([undefined]);
    when it fails, [deleteNote] fails with "Failed to delete note". *)
Theorem deleteNote_is_soft (this : NoteModel) (noteId : DOMString)
    (w : World F) :
  let mark :=
    {| up_title := None; up_content := None; up_encryptedData := None;
       up_category := None; up_tags := None; up_isFavorite := None;
       up_isDeleted := Some true; up_updatedAt := Some serverTimestamp |} in
  deleteNote Wr this noteId w =
  match updateDoc Wr (database w) noteId mark with
  | (Ok _, d') => (Ok tt, {| database := d'; console := console w |})
  | (Err e, d') =>
      (Err (Error (js "Failed to delete note")),
       logged
         (logged {| database := d'; console := console w |}
            [js "Error updating note:"] e)
         [js "Error deleting note:"] (Error (js "Failed to update note")))
  end.
Proof.
  intros mark. unfold deleteNote, try_catch. unfold bind at 1.
  rewrite updateNote_metadata_eq by reflexivity.
  change (stamped _) with mark.
  destruct (updateDoc Wr (database w) noteId mark) as [[[]|e] d'];
    reflexivity.
Qed.

(** X6. Favourites of encrypted notes: for every stored note that has an
    [encryptedData], [toggleFavorite] fails with "Failed to toggle
    favorite" and writes nothing. *)
Theorem toggleFavorite_fails_on_encrypted_notes (this : NoteModel)
    (noteId : DOMString) (w : World F) (d : NoteDoc) (ed : Uint8Array) :
  getDoc F (database w) noteId = Ok (Some d) ->
  encryptedData d = Some ed ->
  toggleFavorite Wr this noteId w =
  (Err (Error (js "Failed to toggle favorite")),
   logged (logged w [js "Error getting note:"] decryption_failed)
     [js "Error toggling favorite:"] (Error (js "Failed to get note"))).
Proof.
  intros Hdoc Hed. unfold toggleFavorite, try_catch. unfold bind at 1.
  rewrite (getNote_fails_on_encrypted_notes_aux this noteId w Hdoc Hed).
  reflexivity.
Qed.

(** X7. Favourites of notes without ciphertext: for a stored note without
    [encryptedData], [toggleFavorite] makes one [updateDoc] call that
    sets [isFavorite] to the negation of the stored flag (and [updatedAt]),
    and returns that negation when the call succeeds. *)
Theorem toggleFavorite_flips (this : NoteModel) (noteId : DOMString)
    (w : World F) (d : NoteDoc) (d' : db F) :
  getDoc F (database w) noteId = Ok (Some d) ->
  encryptedData d = None ->
  updateDoc Wr (database w) noteId
    {| up_title := None; up_content := None; up_encryptedData := None;
       up_category := None; up_tags := None;
       up_isFavorite := Some (negb (isFavorite d));
       up_isDeleted := None; up_updatedAt := Some serverTimestamp |}
  = (Ok tt, d') ->
  toggleFavorite Wr this noteId w =
  (Ok (negb (isFavorite d)), {| database := d'; console := console w |}).
Proof.
  intros Hdoc Hed Hup. unfold toggleFavorite, try_catch. unfold bind at 1.
  assert (Hget : getNote W this noteId w =
                 (Ok (Some {| id := noteId; stored := d;
                              title := undefined W; content := undefined W |}),
                  w)).
  { unfold getNote, try_catch, bind, fs_getDoc, await, ret.
    rewrite Hdoc, Hed. reflexivity. }
  rewrite Hget. cbn [stored]. unfold bind at 1.
  rewrite updateNote_metadata_eq by reflexivity.
  unfold stamped. cbn [up_title up_content up_encryptedData up_category
    up_tags up_isFavorite up_isDeleted].
  rewrite Hup. reflexivity.
Qed.

End NoteModelWritesFacts.

(** The four parts of the query of [getNotes]. *)
Lemma notes_query_parts (this : NoteModel) (options : Options) :
  notes_query this options =
  [where_eq "userId" (FString (this_userId this));
   where_eq "isDeleted" (FBool (or_default (o_includeDeleted options) false));
   orderBy_desc "updatedAt"]
  ++ (if truthy_string (o_category options)
      then [where_eq "category" (FString (or_default (o_category options) []))]
      else [])
  ++ (if or_default (o_favoritesOnly options) false
      then [where_eq "isFavorite" (FBool true)] else [])
  ++ (if negb (or_default (o_limit options) 50 =? 0)
      then [limit (or_default (o_limit options) 50)] else []).
Proof.
  unfold notes_query.
  destruct (truthy_string (o_category options)),
    (or_default (o_favoritesOnly options) false),
    (negb (or_default (o_limit options) 50 =? 0)); reflexivity.
Qed.

(** Membership in the query, part by part. *)
Lemma in_notes_query (this : NoteModel) (options : Options)
    (c : QueryConstraint) :
  In c (notes_query this options) <->
  c = where_eq "userId" (FString (this_userId this)) \/
  c = where_eq "isDeleted"
        (FBool (or_default (o_includeDeleted options) false)) \/
  c = orderBy_desc "updatedAt" \/
  (truthy_string (o_category options) = true /\
   c = where_eq "category" (FString (or_default (o_category options) []))) \/
  (or_default (o_favoritesOnly options) false = true /\
   c = where_eq "isFavorite" (FBool true)) \/
  (or_default (o_limit options) 50 <> 0 /\
   c = limit (or_default (o_limit options) 50)).
Proof.
  rewrite notes_query_parts, !in_app_iff. cbn [In].
  destruct (truthy_string (o_category options)),
    (or_default (o_favoritesOnly options) false),
    (N.eqb_spec (or_default (o_limit options) 50) 0) as [E|E];
    cbn [negb In]; intuition (try congruence; auto).
Qed.

(** X8. Scope of the list query: whatever the options, the query of
    [getNotes] asks for the notes of the user of the model and of no
    other, and for one value of [isDeleted]: [false] unless
    [includeDeleted] is set, and then [true], so that [getDeletedNotes]
    asks for deleted notes only. *)
Theorem notes_query_scope (this : NoteModel) (options : Options) :
  let q := notes_query this options in
  In (where_eq "userId" (FString (this_userId this))) q /\
  In (where_eq "isDeleted"
        (FBool (or_default (o_includeDeleted options) false))) q /\
  (forall u, In (where_eq "userId" (FString u)) q -> u = this_userId this) /\
  (forall b, In (where_eq "isDeleted" (FBool b)) q ->
             b = or_default (o_includeDeleted options) false).
Proof.
  cbv zeta. repeat split.
  - apply in_notes_query. auto.
  - apply in_notes_query. auto.
  - intros u H. apply in_notes_query in H.
    destruct H as [H|[H|[H|[[_ H]|[[_ H]|[_ H]]]]]]; congruence.
  - intros b H. apply in_notes_query in H.
    destruct H as [H|[H|[H|[[_ H]|[[_ H]|[_ H]]]]]]; congruence.
Qed.

(** X9. Edges of the list query: without [limit] the query asks for 50
    notes; [limit: 0] takes the limit away; an empty [category] filters no
    category; a non-empty one filters that category. *)
Theorem notes_query_edges (this : NoteModel) (options : Options) :
  let q := notes_query this options in
  (o_limit options = None -> In (limit 50) q) /\
  (o_limit options = Some 0 -> forall n, ~ In (limit n) q) /\
  (forall n, o_limit options = Some n -> n <> 0 -> In (limit n) q) /\
  (o_category options = Some [] ->
   forall c, ~ In (where_eq "category" (FString c)) q) /\
  (forall c, o_category options = Some c -> c <> [] ->
             In (where_eq "category" (FString c)) q).
Proof.
  cbv zeta. repeat split.
  - intros E. apply in_notes_query. rewrite E. cbn [or_default].
    do 5 right. split; [discriminate|reflexivity].
  - intros E n H. apply in_notes_query in H. rewrite E in H.
    cbn [or_default] in H.
    destruct H as [H|[H|[H|[[_ H]|[[_ H]|[H _]]]]]]; congruence.
  - intros n E Hn. apply in_notes_query. rewrite E. cbn [or_default].
    do 5 right. split; [exact Hn|reflexivity].
  - intros E c H. apply in_notes_query in H. rewrite E in H.
    cbn [or_default truthy_string] in H.
    destruct H as [H|[H|[H|[[H _]|[[_ H]|[_ H]]]]]]; congruence.
  - intros c E Hc. apply in_notes_query. rewrite E. cbn [or_default].
    do 3 right. left. split; [|reflexivity].
    destruct c; [congruence|reflexivity].
Qed.

(** ** Search *)

Lemma DOMString_eqb_eq (a b : DOMString) : DOMString_eqb a b = true <-> a = b.
Proof.
  revert b. induction a as [|x a IH]; intros [|y b]; cbn [DOMString_eqb];
    try (split; [discriminate|discriminate]); [tauto|].
  rewrite andb_true_iff, N.eqb_eq, IH. split.
  - intros [-> ->]. reflexivity.
  - intros [= -> ->]. auto.
Qed.

Lemma includes_In (l : list DOMString) (x : DOMString) :
  includes l x = true <-> In x l.
Proof.
  unfold includes. rewrite existsb_exists. split.
  - intros (y & Hy & E). apply DOMString_eqb_eq in E. now subst.
  - intros H. exists x. split; [exact H|]. now apply DOMString_eqb_eq.
Qed.

(** A filter whose callback never throws is the filter of lists. *)
Lemma filter_result_pure {A} (f : A -> result bool) (g : A -> bool)
    (l : list A) :
  (forall x, In x l -> f x = Ok (g x)) ->
  filter_result f l = Ok (filter g l).
Proof.
  induction l as [|x l IH]; intros H; cbn [filter_result filter];
    [reflexivity|].
  rewrite (H x (or_introl eq_refl)). cbn [rbind].
  rewrite IH by (intros y Hy; apply H; now right). cbn [rbind].
  destruct (g x); reflexivity.
Qed.

Section SearchFacts.
Context (W : WebPlatform) (F : Firestore) (So : StringOps W).

(** On a note of [getNotes] the callback of the search does not throw and
    sees the markers and the tags only. *)
Lemma note_matches_listed (this : NoteModel) (doc : DOMString * NoteDoc)
    (q : DOMString) :
  shape_of_made_values So ->
  note_matches So q (note_of W this doc) = Ok (seen So q (note_of W this doc)).
Proof.
  intros [Hu Hs]. unfold note_of, decrypted_fields.
  destruct (encryptedData (snd doc)) as [ed|] eqn:Hed.
  - rewrite decryptData_without_iv. cbn [rbind].
    unfold note_matches, seen, text_matches, flagged.
    cbn [title content stored]. rewrite Hed, !Hs. reflexivity.
  - unfold note_matches, seen, text_matches.
    cbn [title content stored]. rewrite Hed, !Hu. reflexivity.
Qed.

(** X10. Search: when the query of [getNotes] succeeds (and [shape] tells
    strings and [undefined] for what they are), [searchNotes] does not
    fail.  Without a term it returns the notes of [getNotes()]; with a
    term it keeps those whose tags contain the term in lower case or,
    for a note with a ciphertext, whose marker texts "[Decryption Error]"
    and "[Unable to decrypt note content]" do: the text of a note is
    never searched. *)
Theorem searchNotes_sees_markers_and_tags (this : NoteModel)
    (searchTerm : option DOMString) (w : World F)
    (docs : list (DOMString * NoteDoc)) :
  shape_of_made_values So ->
  getDocs F (database w) (notes_query this options_none) = Ok docs ->
  exists notes w',
    getNotes W this options_none w = (Ok notes, w') /\
    searchNotes So this searchTerm w =
    (Ok (if truthy_string searchTerm
         then filter (seen So (toLowerCase So (or_default searchTerm [])))
                notes
         else notes),
     w').
Proof.
  intros Hshape Hq.
  destruct (getNotes_eq W this options_none w Hq) as [log Hn].
  do 2 eexists. split; [exact Hn|].
  unfold searchNotes, try_catch, bind. rewrite Hn.
  destruct (truthy_string searchTerm); cbn [negb]; [|reflexivity].
  unfold await.
  rewrite filter_result_pure
    with (g := seen So (toLowerCase So (or_default searchTerm []))).
  - reflexivity.
  - intros n Hin. apply filter_In in Hin. destruct Hin as [Hin _].
    apply in_map_iff in Hin. destruct Hin as (doc & <- & _).
    now apply note_matches_listed.
Qed.

End SearchFacts.

(** ** The values [useNotes] derives from its notes *)

Section UseNotesFacts.
Context (W : WebPlatform).

Lemma Set_add_spec (set : list DOMString) (x y : DOMString) :
  In y (Set_add set x) <-> In y set \/ y = x.
Proof.
  unfold Set_add. destruct (includes set x) eqn:E.
  - apply includes_In in E. split; [auto|]. intros [H| ->]; auto.
  - rewrite in_app_iff. cbn [In]. intuition.
Qed.

Lemma Set_add_NoDup (set : list DOMString) (x : DOMString) :
  NoDup set -> NoDup (Set_add set x).
Proof.
  intros H. unfold Set_add. destruct (includes set x) eqn:E; [exact H|].
  assert (Hx : ~ In x set).
  { intros Hin. apply includes_In in Hin. congruence. }
  clear E. induction H as [|y l Hy Hl IH]; cbn [app].
  - constructor; [intros []|constructor].
  - constructor.
    + rewrite in_app_iff. cbn [In]. intros [H'|[->|[]]]; [tauto|].
      apply Hx. now left.
    + apply IH. intros H'. apply Hx. now right.
Qed.

Lemma Set_add_head (set : list DOMString) (x d : DOMString) :
  set <> [] -> hd d (Set_add set x) = hd d set.
Proof.
  unfold Set_add. destruct (includes set x); [reflexivity|].
  destruct set; [congruence|reflexivity].
Qed.

(** The loop of [categories] from any set. *)
Lemma categories_loop (notes : list (Note W)) :
  forall set : list DOMString,
    NoDup set -> set <> [] ->
    let r :=
      fold_left
        (fun categorySet note =>
           match category (stored note) with
           | [] => categorySet
           | c => Set_add categorySet c
           end)
        notes set in
    NoDup r /\ r <> [] /\ (forall d, hd d r = hd d set) /\
    (forall c, In c r <->
               In c set \/
               (c <> [] /\ exists n, In n notes /\ category (stored n) = c)).
Proof.
  induction notes as [|n notes IH]; intros set Hnd Hne; cbn [fold_left].
  - repeat split; auto. intros [H|(_ & n & [] & _)]. exact H.
  - destruct (category (stored n)) as [|x c'] eqn:Ec.
    + destruct (IH set Hnd Hne) as (H1 & H2 & H3 & H4).
      repeat split; auto.
      * intros H. apply H4 in H. destruct H as [H|(Hc & m & Hm & E)]; auto.
        right. split; [exact Hc|]. exists m. split; [now right|exact E].
      * intros [H|(Hc & m & [<-|Hm] & E)]; apply H4; auto.
        -- congruence.
        -- right. split; [exact Hc|]. now exists m.
    + assert (Hne' : Set_add set (x :: c') <> []).
      { unfold Set_add. destruct (includes set (x :: c')); [exact Hne|].
        destruct set; discriminate. }
      destruct (IH (Set_add set (x :: c')) (Set_add_NoDup _ Hnd) Hne')
        as (H1 & H2 & H3 & H4).
      repeat split; auto.
      * intros d. rewrite H3. now apply Set_add_head.
      * intros H. apply H4 in H. destruct H as [H|(Hc & m & Hm & E)].
        -- apply Set_add_spec in H. destruct H as [H| ->]; auto.
           right. split; [discriminate|]. exists n. split; [now left|exact Ec].
        -- right. split; [exact Hc|]. exists m. split; [now right|exact E].
      * intros [H|(Hc & m & [<-|Hm] & E)]; apply H4.
        -- left. apply Set_add_spec. now left.
        -- left. apply Set_add_spec. right. congruence.
        -- right. split; [exact Hc|]. now exists m.
Qed.

(** X11. Categories of the hook: [categories] lists "all" first, has no
    entry twice, and holds besides "all" exactly the non-empty categories
    of the notes. *)
Theorem categories_are_distinct (notes : list (Note W)) :
  NoDup (categories notes) /\
  hd [] (categories notes) = js "all" /\
  forall c, In c (categories notes) <->
            c = js "all" \/
            (c <> [] /\ exists n, In n notes /\ category (stored n) = c).
Proof.
  unfold categories.
  destruct (categories_loop notes (set := [js "all"])) as (H1 & _ & H3 & H4).
  - constructor; [intros []|constructor].
  - discriminate.
  - split; [exact H1|]. split; [apply H3|].
    intros c. rewrite H4. cbn [In]. intuition.
Qed.

Lemma fold_Set_add (tags : list DOMString) :
  forall set : list DOMString,
    NoDup set ->
    NoDup (fold_left Set_add tags set) /\
    forall t, In t (fold_left Set_add tags set) <-> In t set \/ In t tags.
Proof.
  induction tags as [|x tags IH]; intros set Hnd; cbn [fold_left].
  - split; [exact Hnd|]. intros t. cbn [In]. tauto.
  - destruct (IH (Set_add set x) (Set_add_NoDup x Hnd)) as [H1 H2].
    split; [exact H1|]. intros t. rewrite H2, Set_add_spec. cbn [In].
    intuition.
Qed.

Lemma allTags_loop (notes : list (Note W)) :
  forall set : list DOMString,
    NoDup set ->
    let r :=
      fold_left
        (fun tagSet note =>
           match tags (stored note) with
           | Some tags => fold_left Set_add tags tagSet
           | None => tagSet
           end)
        notes set in
    NoDup r /\
    forall t, In t r <->
              In t set \/
              exists n ts, In n notes /\ tags (stored n) = Some ts /\ In t ts.
Proof.
  induction notes as [|n notes IH]; intros set Hnd; cbn [fold_left].
  - split; [exact Hnd|]. intros t. split; [auto|].
    intros [H|(n & ts & [] & _)]. exact H.
  - destruct (tags (stored n)) as [ts|] eqn:Et.
    + destruct (fold_Set_add ts Hnd) as [Hnd' Hin'].
      destruct (IH _ Hnd') as [H1 H2].
      split; [exact H1|]. intros t. rewrite H2, Hin'. split.
      * intros [[H|H]|(m & ts' & Hm & E & Ht)]; auto.
        -- right. exists n, ts. auto with datatypes.
        -- right. exists m, ts'. auto with datatypes.
      * intros [H|(m & ts' & [<-|Hm] & E & Ht)]; auto.
        -- left. right. congruence.
        -- right. exists m, ts'. auto.
    + destruct (IH set Hnd) as [H1 H2].
      split; [exact H1|]. intros t. rewrite H2. split.
      * intros [H|(m & ts' & Hm & E & Ht)]; auto.
        right. exists m, ts'. auto with datatypes.
      * intros [H|(m & ts' & [<-|Hm] & E & Ht)]; auto.
        -- congruence.
        -- right. exists m, ts'. auto.
Qed.

(** X12. Tags of the hook: [allTags] has no tag twice and holds exactly
    the tags of the notes. *)
Theorem allTags_are_distinct (notes : list (Note W)) :
  NoDup (allTags notes) /\
  forall t, In t (allTags notes) <->
            exists n ts, In n notes /\ tags (stored n) = Some ts /\ In t ts.
Proof.
  unfold allTags.
  destruct (allTags_loop notes (set := [])) as [H1 H2]; [constructor|].
  split; [exact H1|]. intros t. rewrite H2. cbn [In]. tauto.
Qed.

End UseNotesFacts.

(** ** The password suggestion *)

Lemma length_password (l : Uint8Array) :
  length (concat (map charset_at l)) = length l.
Proof.
  induction l as [|x l IH]; cbn [map concat length app charset_at];
    [reflexivity|].
  now rewrite IH.
Qed.

Lemma charset_at_in (b : byte) : forall c, In c (charset_at b) -> In c charset.
Proof.
  intros c [<-|[]]. apply nth_In.
  change (length charset) with 70%nat.
  pose proof (N.mod_upper_bound (Byte.to_N b) (N.of_nat 70)). lia.
Qed.

(** X13. Password suggestion: for a [length] up to 65536 (16 when it is
    left out), [generateSecurePassword] returns a string of exactly
    [length] characters, each from the 70 characters of its charset,
    and has drawn [length] octets from the random source. *)
Theorem generateSecurePassword_shape (len : option nat) (e : Entropy) :
  N.of_nat (or_default len 16%nat) <= 65536 ->
  exists password,
    generateSecurePassword len e =
    (Ok password, fun i => e (or_default len 16%nat + i)%nat) /\
    length password = or_default len 16%nat /\
    Forall (fun c => In c charset) password.
Proof.
  intros Hlen. unfold generateSecurePassword, bind, getRandomValues, ret.
  replace (65536 <? N.of_nat (or_default len 16%nat)) with false
    by (symmetry; apply N.ltb_ge; exact Hlen).
  exists (concat (map charset_at
                    (map e (seq 0 (or_default len 16%nat))))).
  split; [reflexivity|]. split.
  - rewrite length_password.
    now rewrite length_map, length_seq.
  - apply Forall_forall. intros c Hc.
    apply in_concat in Hc. destruct Hc as (l & Hl & Hc).
    apply in_map_iff in Hl. destruct Hl as (b & <- & _).
    now apply charset_at_in with (b := b).
Qed.

(** The password on a random source, for a length the generator
    accepts. *)
Lemma generateSecurePassword_eq (len : option nat) (e : Entropy) :
  N.of_nat (or_default len 16%nat) <= 65536 ->
  generateSecurePassword len e =
  (Ok (concat (map charset_at (map e (seq 0 (or_default len 16%nat))))),
   fun i => e (or_default len 16%nat + i)%nat).
Proof.
  intros Hlen. unfold generateSecurePassword, bind, getRandomValues, ret.
  replace (65536 <? N.of_nat (or_default len 16%nat)) with false
    by (symmetry; apply N.ltb_ge; exact Hlen).
  reflexivity.
Qed.

Lemma nth_password (l : Uint8Array) (i : nat) :
  (i < length l)%nat ->
  nth i (concat (map charset_at l)) 0 =
  nth (N.to_nat (Byte.to_N (nth i l Byte.x00) mod 70)) charset 0.
Proof.
  revert i. induction l as [|x l IH]; intros i Hi; [inversion Hi|].
  cbn [map concat charset_at app].
  destruct i as [|i]; [reflexivity|].
  cbn [nth]. apply IH. cbn [length] in Hi. lia.
Qed.

(** The character at a position is the character of the charset that the
    octet at that position selects. *)
Lemma password_char_eq (len : option nat) (e : Entropy) (i : nat) :
  N.of_nat (or_default len 16%nat) <= 65536 ->
  (i < or_default len 16%nat)%nat ->
  password_char len e i =
  nth (N.to_nat (Byte.to_N (e i) mod 70)) charset 0.
Proof.
  intros Hlen Hi. unfold password_char.
  rewrite (generateSecurePassword_eq len e Hlen). cbn [fst].
  rewrite nth_password by (now rewrite length_map, length_seq).
  rewrite nth_indep with (d' := e 0%nat)
    by (now rewrite length_map, length_seq).
  rewrite map_nth, seq_nth by exact Hi. reflexivity.
Qed.

Lemma octets_giving_count (k : nat) :
  (k < 70)%nat ->
  octets_giving (nth k charset 0) = if Nat.ltb k 46 then 4%nat else 3%nat.
Proof.
  intros Hk.
  assert (H : Nat.eqb (octets_giving (nth k charset 0))
                (if Nat.ltb k 46 then 4 else 3) = true).
  { apply MiniFacts.forall_below
      with (n := 70%nat)
           (P := fun k => Nat.eqb (octets_giving (nth k charset 0))
                            (if Nat.ltb k 46 then 4 else 3)); [|exact Hk].
    vm_compute. reflexivity. }
  now apply Nat.eqb_eq in H.
Qed.

(** X14. Bias of the suggestion: the character at a position of the
    password that [generateSecurePassword] returns is the character of
    the charset at the octet of that position modulo 70; so, of the 256
    values that octet can take, four put each of the first 46 characters
    of the charset at the position and three put each of the other 24:
    the characters of a suggested password are not equally likely. *)
Theorem generateSecurePassword_bias (len : option nat) (e : Entropy)
    (i k : nat) :
  N.of_nat (or_default len 16%nat) <= 65536 ->
  (i < or_default len 16%nat)%nat ->
  (k < 70)%nat ->
  password_char len e i =
    nth (N.to_nat (Byte.to_N (e i) mod 70)) charset 0 /\
  octets_putting len e i (nth k charset 0) =
    if Nat.ltb k 46 then 4%nat else 3%nat.
Proof.
  intros Hlen Hi Hk. split; [now apply password_char_eq|].
  rewrite <- (octets_giving_count Hk).
  unfold octets_putting, octets_giving. f_equal.
  apply filter_ext. intros b.
  rewrite (password_char_eq len (with_octet e i b) Hlen Hi).
  unfold with_octet. rewrite Nat.eqb_refl.
  unfold charset_at. cbn [DOMString_eqb].
  change (N.of_nat (length charset)) with 70.
  now rewrite andb_true_r.
Qed.

(** ** Malformed packages *)






Section PackageFacts.
Context (W : WebPlatform).


(** X16. A value without JSON text: when [JSON.stringify] returns
    [undefined] for a value (as it does for [undefined] itself),
    [encryptNote] seals the empty text and returns a package, and
    [decryptNote] of that package fails: what was sealed cannot be
    opened. *)
Theorem encryptNote_of_undefined_cannot_be_opened (R : value W)
    (P : DOMString) (S : Uint8Array) (e : Entropy) (x : exn) :
  JSON_stringify W R = Ok None ->
  gcm_correct W ->
  JSON_parse W (TextDecoder_decode W (TextEncoder_encode W [])) = Err x ->
  exists package,
    encryptNote W R P S e = (Ok package, fun i => e (12 + i)%nat) /\
    decryptNote W package P = Err decryption_failed_twice.
Proof.
  intros Hjson Hgcm Hparse.
  eexists. split; [apply (encryptNote_eq W R P S e Hjson)|].
  rewrite decryptNote_eq. unfold decryptData.
  rewrite decrypt_derived. unfold sealed_bytes. rewrite Hgcm.
  unfold encode_optional. cbn [rbind]. rewrite Hparse. reflexivity.
Qed.

(** X17. A value [JSON.stringify] refuses: when [JSON.stringify] throws,
    [encryptNote] throws "Encryption failed: " followed by the message of
    that exception, and the random source has all the same moved past the
    twelve octets of an IV, which is drawn before the value is
    serialized. *)
Theorem encryptNote_of_unserializable (R : value W) (P : DOMString)
    (S : Uint8Array) (e : Entropy) (x : exn) :
  JSON_stringify W R = Err x ->
  encryptNote W R P S e =
  (Err (Error (js "Encryption failed: " ++ message W x)),
   fun i => e (12 + i)%nat).
Proof.
  intros Hjson. unfold encryptNote, try_catch, bind, await, ret.
  rewrite deriveKey_eq, generateIV_eq.
  unfold encryptData. rewrite Hjson. reflexivity.
Qed.

End PackageFacts.

(** ** The authentication context *)

(** X18. Reducer invariant: after any sequence of actions from the
    initial state, the state reports a verified e-mail address only when
    it holds a user whose address is verified. *)
Theorem authReducer_verified_has_user (actions : list Action) :
  verified_has_user (fold_left authReducer actions initialState).
Proof.
  assert (Hstep : forall state action,
             verified_has_user state ->
             verified_has_user (authReducer state action)).
  { intros state action Hinv. unfold verified_has_user in *.
    destruct action as [b|[u|] s|m| |]; cbn [authReducer isEmailVerified user];
      try exact Hinv; try discriminate.
    intros Hv. now exists u. }
  assert (Hfold : forall state,
             verified_has_user state ->
             verified_has_user (fold_left authReducer actions state)).
  { induction actions as [|a actions IH]; intros state Hinv; cbn [fold_left];
      [exact Hinv|].
    apply IH, Hstep, Hinv. }
  apply Hfold. unfold verified_has_user. discriminate.
Qed.

Section AuthContextFacts.
Context (W : WebPlatform) (B : Firebase) (A : FirebaseSession B).

(** X19. Outcome of a sign-up: [signUp] never throws.  It returns either
    success, and then the reducer state is still loading, without error,
    or a failure with a message, and then the state holds that message
    as its error and is no longer loading.  In both cases [signUp] leaves
    the user and the salt of the state as they were. *)
Theorem signUp_outcome (email password displayName : DOMString)
    (s : Session B) :
  exists o s',
    signUp W email password displayName s = (Ok o, s') /\
    user (s_state s') = user (s_state s) /\
    userSalt (s_state s') = userSalt (s_state s) /\
    match o with
    | Success _ =>
        loading (s_state s') = true /\ error (s_state s') = None
    | Failure m =>
        loading (s_state s') = false /\ error (s_state s') = Some m
    end.
Proof.
  unfold signUp, try_catch, bind, dispatch, on_auth, on_users, on_entropy,
    toISOString_now, await, ret.
  cbn [s_auth s_users s_entropy s_now s_state].
  destruct (createUserWithEmailAndPassword B (s_auth s) email password)
    as [[u|e] a1]; cbn [s_auth s_users s_entropy s_now s_state].
  2: { do 2 eexists. split; [reflexivity|]. cbn. auto. }
  destruct (updateProfile B a1 u displayName) as [[[]|e] a2];
    cbn [s_auth s_users s_entropy s_now s_state].
  2: { do 2 eexists. split; [reflexivity|]. cbn. auto. }
  change (generateSalt (s_entropy s))
    with (Ok (map (s_entropy s) (seq 0 16)), fun i => s_entropy s (16 + i)%nat).
  cbn [s_auth s_users s_entropy s_now s_state].
  rewrite arrayBufferToBase64_encode, hashPassword_eq,
    arrayBufferToBase64_encode.
  cbn [s_auth s_users s_entropy s_now s_state].
  match goal with
  | |- context [setDoc B (s_users s) (uid u) ?d] =>
      destruct (setDoc B (s_users s) (uid u) d) as [[[]|e] u']
  end; cbn [s_auth s_users s_entropy s_now s_state].
  2: { do 2 eexists. split; [reflexivity|]. cbn. auto. }
  destruct (sendEmailVerification B a2 u) as [[[]|e] a3];
    cbn [s_auth s_users s_entropy s_now s_state].
  2: { do 2 eexists. split; [reflexivity|]. cbn. auto. }
  do 2 eexists. split; [reflexivity|]. cbn. auto.
Qed.

(** X20. Sign-up that cannot create the account: when
    [createUserWithEmailAndPassword] fails, [signUp] reports the message
    of the error code, draws no salt and writes no user document. *)
Theorem signUp_without_account (email password displayName : DOMString)
    (s : Session B) (x : exn) (a' : auth B) :
  createUserWithEmailAndPassword B (s_auth s) email password = (Err x, a') ->
  exists s',
    signUp W email password displayName s =
    (Ok (Failure (getFirebaseErrorMessage (code x))), s') /\
    s_users s' = s_users s /\
    s_entropy s' = s_entropy s /\
    s_auth s' = a'.
Proof.
  intros Hcreate.
  unfold signUp, try_catch, bind, dispatch, on_auth, ret.
  cbn [s_auth s_users s_entropy s_now s_state]. rewrite Hcreate.
  eexists. split; [reflexivity|]. cbn. auto.
Qed.

(** X21. Sign-up is not atomic: when the account has been created and the
    write of the user document fails, [signUp] reports a failure, but the
    account stays (the state of Firebase Auth is the one after the
    creation and the profile update) and sixteen octets of the random
    source are spent; no step is undone. *)
Theorem signUp_keeps_account_without_document
    (email password displayName : DOMString) (s : Session B)
    (u : User) (a1 a2 : auth B) (x : exn) (us' : users B) :
  createUserWithEmailAndPassword B (s_auth s) email password = (Ok u, a1) ->
  updateProfile B a1 u displayName = (Ok tt, a2) ->
  (forall d, setDoc B (s_users s) (uid u) d = (Err x, us')) ->
  exists s',
    signUp W email password displayName s =
    (Ok (Failure (getFirebaseErrorMessage (code x))), s') /\
    s_auth s' = a2 /\
    s_users s' = us' /\
    s_entropy s' = (fun i => s_entropy s (16 + i)%nat).
Proof.
  intros Hcreate Hprofile Hset.
  unfold signUp, try_catch, bind, dispatch, on_auth, on_users, on_entropy,
    toISOString_now, await, ret.
  cbn [s_auth s_users s_entropy s_now s_state]. rewrite Hcreate.
  cbn [s_auth s_users s_entropy s_now s_state]. rewrite Hprofile.
  cbn [s_auth s_users s_entropy s_now s_state].
  change (generateSalt (s_entropy s))
    with (Ok (map (s_entropy s) (seq 0 16)), fun i => s_entropy s (16 + i)%nat).
  cbn [s_auth s_users s_entropy s_now s_state].
  rewrite arrayBufferToBase64_encode, hashPassword_eq,
    arrayBufferToBase64_encode.
  cbn [s_auth s_users s_entropy s_now s_state]. rewrite Hset.
  eexists. split; [reflexivity|]. cbn. auto.
Qed.



(** X24. Verification mail: [resendEmailVerification] never throws and
    never changes the reducer state, not even to record an error; without
    a user in the state it calls nothing and returns "No user logged
    in". *)
Theorem resendEmailVerification_outcome (s : Session B) :
  exists o s',
    resendEmailVerification s = (Ok o, s') /\
    s_state s' = s_state s /\
    s_users s' = s_users s /\
    (user (s_state s) = None ->
     o = Failure (js "No user logged in") /\ s' = s).
Proof.
  unfold resendEmailVerification, try_catch.
  destruct (user (s_state s)) as [u|].
  - unfold bind, on_auth, ret.
    destruct (sendEmailVerification B (s_auth s) u) as [[[]|e] a1];
      do 2 eexists; (split; [reflexivity|]); cbn; repeat split; discriminate.
  - do 2 eexists. split; [reflexivity|]. auto.
Qed.

(** X25. Authentication events: the callback of [onAuthStateChanged]
    never throws and always leaves the state not loading and without
    error.  For a user it sets that user, with the [encryptionSalt]
    string of the user document as salt, or no salt when the document is
    missing, has an empty salt or cannot be read; for no user it sets the
    signed-out state. *)
Theorem authStateChanged_outcome (u : option User)
    (p : Page B) :
  exists p',
    authStateChanged A u p = (Ok tt, p') /\
    loading (s_state (fst p')) = false /\
    error (s_state (fst p')) = None /\
    user (s_state (fst p')) = u /\
    userSalt (s_state (fst p')) =
      match u with
      | Some u =>
          match getUserData A (s_users (fst p)) (uid u) with
          | Ok d => salt_of d
          | Err _ => None
          end
      | None => None
      end.
Proof.
  unfold authStateChanged.
  destruct u as [u|].
  - unfold try_catch, bind, in_session, dispatch, page_error.
    cbn [fst snd].
    destruct (getUserData A (s_users (fst p)) (uid u)) as [d|e];
      eexists; (split; [reflexivity|]); cbn; auto.
  - unfold in_session, dispatch. eexists. split; [reflexivity|]. cbn. auto.
Qed.

End AuthContextFacts.

(** ** The further properties on concrete inputs *)

(** X1 on the note "n0", whose document holds a ciphertext. *)
Lemma getNote_fails_on_encrypted_notes_witness :
  getNote Mini.platform Mini.model (js "n0") Mini.world0 =
  (Err (Error (js "Failed to get note")),
   logged Mini.world0 [js "Error getting note:"] decryption_failed).
Proof.
  apply (@getNote_fails_on_encrypted_notes Mini.platform Mini.store
           Mini.model (js "n0") Mini.world0 Mini.doc0 Mini.tampered).
  - reflexivity.
  - reflexivity.
Defined.

(** X2 on the store of two notes. *)
Lemma getNotes_never_decrypts_witness :
  exists notes w',
    getNotes Mini.platform Mini.model options_none More.world1 = (Ok notes, w') /\
    database w' = database More.world1 /\
    forall n, In n notes ->
      encryptedData (stored n) <> None ->
      title n = of_string Mini.platform (js "[Decryption Error]") /\
      content n = of_string Mini.platform (js "[Unable to decrypt note content]").
Proof.
  apply (@getNotes_never_decrypts Mini.platform Mini.store Mini.model
           options_none More.world1
           [(js "n0", Mini.doc0); (js "n1", More.doc1)]).
  vm_compute. reflexivity.
Defined.

(** X3 on a new title for the note "n1". *)
Lemma updateNote_text_is_never_written_witness :
  exists log,
    updateNote More.writes Mini.model (js "n1") More.rename More.world1 =
    (Err (Error (js "Failed to update note")),
     {| database := database More.world1;
        console := console More.world1 ++ log |}).
Proof.
  apply (@updateNote_text_is_never_written Mini.platform Mini.store
           More.writes Mini.model (js "n1") More.rename More.world1).
  reflexivity.
Defined.

(** X4 on a new category for the note "n1". *)
Lemma updateNote_of_metadata_witness :
  updateNote More.writes Mini.model (js "n1") More.recategorize More.world1 =
  match updateDoc More.writes (database More.world1) (js "n1")
          (stamped More.recategorize) with
  | (Ok _, d') =>
      (Ok {| updated_id := js "n1"; updated := stamped More.recategorize |},
       {| database := d'; console := console More.world1 |})
  | (Err e, d') =>
      (Err (Error (js "Failed to update note")),
       logged {| database := d'; console := console More.world1 |}
         [js "Error updating note:"] e)
  end.
Proof.
  apply (@updateNote_of_metadata Mini.platform Mini.store More.writes
           Mini.model (js "n1") More.recategorize More.world1).
  - reflexivity.
  - reflexivity.
Defined.

(** X6 on the note "n0". *)
Lemma toggleFavorite_fails_on_encrypted_notes_witness :
  toggleFavorite More.writes Mini.model (js "n0") More.world1 =
  (Err (Error (js "Failed to toggle favorite")),
   logged (logged More.world1 [js "Error getting note:"] decryption_failed)
     [js "Error toggling favorite:"] (Error (js "Failed to get note"))).
Proof.
  apply (@toggleFavorite_fails_on_encrypted_notes Mini.platform Mini.store
           More.writes Mini.model (js "n0") More.world1 Mini.doc0
           Mini.tampered).
  - reflexivity.
  - reflexivity.
Defined.

(** X7 on the note "n1", which has no ciphertext. *)
Lemma toggleFavorite_flips_witness :
  toggleFavorite More.writes Mini.model (js "n1") More.world1 =
  (Ok (negb (isFavorite More.doc1)),
   {| database :=
        snd (updateDoc More.writes (database More.world1) (js "n1")
               {| up_title := None; up_content := None;
                  up_encryptedData := None; up_category := None;
                  up_tags := None;
                  up_isFavorite := Some (negb (isFavorite More.doc1));
                  up_isDeleted := None;
                  up_updatedAt := Some serverTimestamp |});
      console := console More.world1 |}).
Proof.
  apply (@toggleFavorite_flips Mini.platform Mini.store More.writes
           Mini.model (js "n1") More.world1 More.doc1).
  - reflexivity.
  - reflexivity.
  - reflexivity.
Defined.

(** X10 on a search for "todo" in the store of two notes. *)
Lemma searchNotes_sees_markers_and_tags_witness :
  exists notes w',
    getNotes Mini.platform Mini.model options_none More.world1
    = (Ok notes, w') /\
    searchNotes More.string_ops Mini.model (Some (js "todo")) More.world1 =
    (Ok (if truthy_string (Some (js "todo"))
         then filter
                (seen More.string_ops
                   (toLowerCase More.string_ops
                      (or_default (Some (js "todo")) [])))
                notes
         else notes),
     w').
Proof.
  apply (@searchNotes_sees_markers_and_tags Mini.platform Mini.store
           More.string_ops Mini.model (Some (js "todo")) More.world1
           [(js "n0", Mini.doc0); (js "n1", More.doc1)]).
  - split; [reflexivity|]. intros s. reflexivity.
  - vm_compute. reflexivity.
Defined.

(** X13 on a password of 20 characters. *)
Lemma generateSecurePassword_shape_witness :
  exists password,
    generateSecurePassword (Some 20%nat) (Mini.counter 0) =
    (Ok password, fun i => Mini.counter 0 (or_default (Some 20%nat) 16 + i)%nat) /\
    length password = or_default (Some 20%nat) 16%nat /\
    Forall (fun c => In c charset) password.
Proof.
  apply (@generateSecurePassword_shape (Some 20%nat) (Mini.counter 0)).
  vm_compute. discriminate.
Defined.

(** X14 on the fourth character of a password of 16 characters, for the
    letter "A" and for the asterisk. *)
Lemma generateSecurePassword_bias_witness :
  (password_char None (Mini.counter 0) 3 =
     nth (N.to_nat (Byte.to_N (Mini.counter 0 3%nat) mod 70)) charset 0 /\
   octets_putting None (Mini.counter 0) 3 (nth 0 charset 0) =
     if Nat.ltb 0 46 then 4%nat else 3%nat) /\
  (password_char None (Mini.counter 0) 3 =
     nth (N.to_nat (Byte.to_N (Mini.counter 0 3%nat) mod 70)) charset 0 /\
   octets_putting None (Mini.counter 0) 3 (nth 69 charset 0) =
     if Nat.ltb 69 46 then 4%nat else 3%nat).
Proof.
  split.
  - apply (@generateSecurePassword_bias None (Mini.counter 0) 3 0).
    + vm_compute. discriminate.
    + cbn [or_default]. lia.
    + lia.
  - apply (@generateSecurePassword_bias None (Mini.counter 0) 3 69).
    + vm_compute. discriminate.
    + cbn [or_default]. lia.
    + lia.
Defined.


(** X16 on the value [undefined]. *)
Lemma encryptNote_of_undefined_cannot_be_opened_witness :
  exists package,
    encryptNote Mini.platform Mini.VUndefined Mini.password Mini.salt16
      (Mini.counter 0)
    = (Ok package, fun i => Mini.counter 0 (12 + i)%nat) /\
    decryptNote Mini.platform package Mini.password
    = Err decryption_failed_twice.
Proof.
  apply (@encryptNote_of_undefined_cannot_be_opened Mini.platform
           Mini.VUndefined Mini.password Mini.salt16 (Mini.counter 0)
           SyntaxError).
  - reflexivity.
  - exact MiniFacts.gcm_correct_mini.
  - reflexivity.
Defined.

(** X17 on a BigInt. *)
Lemma encryptNote_of_unserializable_witness :
  encryptNote More.platform' (More.BigInt 1) Mini.password Mini.salt16
    (Mini.counter 0) =
  (Err (Error (js "Encryption failed: " ++ message More.platform' TypeError)),
   fun i => Mini.counter 0 (12 + i)%nat).
Proof.
  apply (@encryptNote_of_unserializable More.platform' (More.BigInt 1)
           Mini.password Mini.salt16 (Mini.counter 0) TypeError).
  reflexivity.
Defined.

(** X20 on an address that is registered already. *)
Lemma signUp_without_account_witness :
  exists s',
    signUp Mini.platform (js "a@b.c") Mini.password (js "Ann") More.session1 =
    (Ok (Failure
           (getFirebaseErrorMessage
              (code (FirebaseError "auth/email-already-in-use")))), s') /\
    s_users s' = s_users More.session1 /\
    s_entropy s' = s_entropy More.session1 /\
    s_auth s' = s_auth More.session1.
Proof.
  apply (@signUp_without_account Mini.platform Mini.firebase (js "a@b.c")
           Mini.password (js "Ann") More.session1
           (FirebaseError "auth/email-already-in-use")
           (s_auth More.session1)).
  reflexivity.
Defined.

(** X21 on a collection ['users'] that cannot be written. *)
Lemma signUp_keeps_account_without_document_witness :
  exists s',
    signUp Mini.platform (js "a@b.c") Mini.password (js "Ann")
      More.session_read_only =
    (Ok (Failure
           (getFirebaseErrorMessage
              (code (FirebaseError "permission-denied")))), s') /\
    s_auth s' = [More.ann] /\
    s_users s' = [] /\
    s_entropy s' = (fun i => s_entropy More.session_read_only (16 + i)%nat).
Proof.
  apply (@signUp_keeps_account_without_document Mini.platform
           More.firebase_read_only (js "a@b.c") Mini.password (js "Ann")
           More.session_read_only More.ann [More.ann] [More.ann]
           (FirebaseError "permission-denied") []).
  - reflexivity.
  - reflexivity.
  - intros d. reflexivity.
Defined.

(** ** The request middleware *)

Section MiddlewareFacts.
Import Middleware.

Lemma DOMString_eqb_refl (a : DOMString) : DOMString_eqb a a = true.
Proof. apply DOMString_eqb_eq. reflexivity. Qed.

Lemma DOMString_eqb_neq (a b : DOMString) :
  a <> b -> DOMString_eqb a b = false.
Proof.
  intros H. destruct (DOMString_eqb a b) eqn:E; [|reflexivity].
  apply DOMString_eqb_eq in E. contradiction.
Qed.

Lemma Map_get_set_same {A} (k : DOMString) (v : A) m :
  Map_get k (Map_set k v m) = Some v.
Proof.
  induction m as [|[k' v'] m IH]; cbn [Map_set Map_get].
  - rewrite DOMString_eqb_refl. reflexivity.
  - destruct (DOMString_eqb k' k) eqn:E; cbn [Map_get]; rewrite E; auto.
Qed.

Lemma Map_get_set_other {A} (k k' : DOMString) (v : A) m :
  k <> k' -> Map_get k (Map_set k' v m) = Map_get k m.
Proof.
  intros Hk. induction m as [|[k0 v0] m IH]; cbn [Map_set Map_get].
  - rewrite DOMString_eqb_neq; auto.
  - destruct (DOMString_eqb k0 k') eqn:E; cbn [Map_get].
    + apply DOMString_eqb_eq in E. subst k0.
      rewrite DOMString_eqb_neq; auto.
    + rewrite IH. reflexivity.
Qed.

Lemma Map_get_In {A} (k : DOMString) (v : A) m :
  Map_get k m = Some v -> In (k, v) m.
Proof.
  induction m as [|[k0 v0] m IH]; cbn [Map_get]; [discriminate|].
  destruct (DOMString_eqb k0 k) eqn:E.
  - apply DOMString_eqb_eq in E. intros [= ->]. subst. left. reflexivity.
  - intros H. right. auto.
Qed.

Lemma Map_get_None {A} (k : DOMString) (m : list (DOMString * A)) :
  Map_get k m = None <-> ~ In k (map fst m).
Proof.
  induction m as [|[k0 v0] m IH]; cbn [Map_get map fst In]; [tauto|].
  destruct (DOMString_eqb k0 k) eqn:E.
  - apply DOMString_eqb_eq in E. split; [discriminate|tauto].
  - rewrite IH. split; [|tauto].
    intros H [->|H']; [|tauto].
    rewrite DOMString_eqb_refl in E. discriminate.
Qed.

(** Cleaning keeps the entry of a key when it is fresh, and makes no
    entry for a key that had none. *)
Lemma Map_get_filter_kept {A} (p : DOMString * A -> bool) k v m :
  Map_get k m = Some v -> p (k, v) = true ->
  Map_get k (filter p m) = Some v.
Proof.
  induction m as [|[k0 v0] m IH]; cbn [Map_get filter]; [discriminate|].
  destruct (DOMString_eqb k0 k) eqn:E.
  - apply DOMString_eqb_eq in E. subst k0. intros [= ->] Hp.
    rewrite Hp. cbn [Map_get]. rewrite DOMString_eqb_refl. reflexivity.
  - intros H Hp. destruct (p (k0, v0)); cbn [Map_get]; [rewrite E|]; auto.
Qed.

Lemma Map_get_filter_None {A} (p : DOMString * A -> bool) k m :
  Map_get k m = None -> Map_get k (filter p m) = None.
Proof.
  rewrite !Map_get_None. intros H H'. apply H.
  apply in_map_iff in H'. destruct H' as (x & <- & Hx).
  apply filter_In in Hx. apply in_map. tauto.
Qed.

(** In a table with one entry for a key, cleaning takes a stale entry
    away. *)
Lemma Map_get_filter_stale {A} (p : DOMString * A -> bool) k v m :
  NoDup (map fst m) ->
  Map_get k m = Some v -> p (k, v) = false ->
  Map_get k (filter p m) = None.
Proof.
  induction m as [|[k0 v0] m IH]; cbn [Map_get filter map fst];
    [discriminate|].
  intros Hnd. inversion Hnd as [|? ? Hnotin Hnd']; subst.
  destruct (DOMString_eqb k0 k) eqn:E.
  - apply DOMString_eqb_eq in E. subst k0. intros [= ->] Hp. rewrite Hp.
    apply Map_get_filter_None. apply Map_get_None. exact Hnotin.
  - intros H Hp. destruct (p (k0, v0)); cbn [Map_get]; [rewrite E|]; auto.
Qed.

Lemma map_fst_Map_set {A} (k : DOMString) (v : A) m :
  map fst (Map_set k v m) =
  match Map_get k m with
  | Some _ => map fst m
  | None => map fst m ++ [k]
  end.
Proof.
  induction m as [|[k0 v0] m IH]; cbn [Map_set Map_get map fst app];
    [reflexivity|].
  destruct (DOMString_eqb k0 k) eqn:E; cbn [map fst]; [reflexivity|].
  rewrite IH. destruct (Map_get k m); reflexivity.
Qed.

Lemma In_Map_set {A} (k : DOMString) (v : A) m (e : DOMString * A) :
  In e (Map_set k v m) -> e = (k, v) \/ In e m.
Proof.
  induction m as [|[k0 v0] m IH]; cbn [Map_set].
  - intros [<-|[]]. auto.
  - destruct (DOMString_eqb k0 k) eqn:E.
    + apply DOMString_eqb_eq in E. subst k0.
      intros [<-|H]; [left; reflexivity|right; right; exact H].
    + intros [<-|H]; [right; left; reflexivity|].
      destruct (IH H); [auto|right; right; assumption].
Qed.

Lemma NoDup_map_fst_filter {A} (p : DOMString * A -> bool) m :
  NoDup (map fst m) -> NoDup (map fst (filter p m)).
Proof.
  induction m as [|[k0 v0] m IH]; cbn [filter map fst]; [auto|].
  intros Hnd. inversion Hnd as [|? ? Hnotin Hnd']; subst.
  destruct (p (k0, v0)); cbn [map fst]; [|auto].
  constructor; [|auto].
  intros H. apply Hnotin. apply in_map_iff in H.
  destruct H as (x & <- & Hx). apply filter_In in Hx. apply in_map. tauto.
Qed.

(** One call of the rate limiter, with the limits of the configuration:
    the table is cleaned, the entry of the client made or counted up, and
    the answer decided by the new count. *)
Lemma rateLimitMiddleware_step (request : Request) (s : Server) :
  let now := clock s 0%nat in
  let kept :=
    filter (fun entry =>
              negb (firstRequest (snd entry) <? now - 900000)%Z)
      (requestCounts s) in
  let data :=
    match Map_get (client_ip request) kept with
    | Some d => d
    | None => {| count := 0; firstRequest := now |}
    end in
  let limit := route_maxRequests (pathname request) in
  exists response,
    rateLimitMiddleware request no_limits s =
    (Ok response,
     {| requestCounts :=
          Map_set (client_ip request)
            {| count := count data + 1; firstRequest := firstRequest data |}
            kept;
        server_console := server_console s;
        clock := fun i => clock s (S i);
        uuids := uuids s |}) /\
    status response = (if (limit <? count data + 1)%Z then 429 else 200)%Z /\
    Headers_get "X-RateLimit-Remaining" (headers response) =
      (if (limit <? count data + 1)%Z then None
       else Some (Number_toString (limit - (count data + 1)))).
Proof.
  intros now kept data limit.
  assert (Hfresh : (firstRequest data <? now - 900000)%Z = false).
  { subst data. destruct (Map_get (client_ip request) kept) as [d|] eqn:Hget.
    - apply Map_get_In in Hget. apply filter_In in Hget.
      destruct Hget as [_ Hp]. cbn [snd] in Hp.
      apply negb_true_iff in Hp. exact Hp.
    - cbn [firstRequest]. apply Z.ltb_ge. lia. }
  unfold rateLimitMiddleware, bind, Date_now, get_requestCounts,
    put_requestCounts, ret.
  cbn [requestCounts server_console clock uuids no_limits
       custom_maxRequests custom_windowSize truthy_number].
  change (windowSize (rateLimit middlewareConfig)) with 900000%Z.
  fold now. fold kept. fold data. rewrite Hfresh.
  cbn [count firstRequest]. fold limit.
  destruct (limit <? count data + 1)%Z; eexists; split; try reflexivity;
    split; reflexivity.
Qed.

(** What [loggingMiddleware] does: one reading of the clock, one line on
    the console, one request identifier, and a "go on" response that
    carries the identifier. *)
Lemma loggingMiddleware_eq (toISOString : Z -> DOMString)
    (request : Request) (s : Server) :
  exists line,
    loggingMiddleware toISOString request s =
    (Ok (set "X-Request-ID" (uuids s 0%nat) NextResponse_next),
     {| requestCounts := requestCounts s;
        server_console := server_console s ++ [line];
        clock := fun i => clock s (S i);
        uuids := fun i => uuids s (S i) |}).
Proof.
  unfold loggingMiddleware, bind, Date_now, console_log, crypto_randomUUID,
    ret.
  cbn [requestCounts server_console clock uuids].
  eexists. reflexivity.
Qed.

(** A chain stops at the first member that returns a response. *)
Lemma chain_first (m : Request -> ST Server Response)
    (ms : list MiddlewareFn) (request : Request) (s s' : Server)
    (r : Response) :
  m request s = (Ok r, s') ->
  chain (responding m :: ms) request s = (Ok (Some r), s').
Proof.
  intros H. cbn [chain]. unfold responding, bind. rewrite H. reflexivity.
Qed.

(** X26. The composed middlewares: [apiMiddleware], [authPageMiddleware]
    and [publicPageMiddleware] each return the response of
    [loggingMiddleware], their first member, and run no other member:
    the response carries none of the security, CORS, auth or rate limit
    headers, and the table of the rate limiter is not touched. *)
Theorem chains_stop_after_logging (NODE_ENV : option DOMString)
    (toISOString : Z -> DOMString) (request : Request) (s : Server) :
  exists response s',
    loggingMiddleware toISOString request s = (Ok response, s') /\
    apiMiddleware NODE_ENV toISOString request s = (Ok (Some response), s') /\
    authPageMiddleware NODE_ENV toISOString request s
      = (Ok (Some response), s') /\
    publicPageMiddleware NODE_ENV toISOString request s
      = (Ok (Some response), s') /\
    requestCounts s' = requestCounts s /\
    Forall (fun name => Headers_get name (headers response) = None)
      protective_headers.
Proof.
  destruct (loggingMiddleware_eq toISOString request s) as [line Hlog].
  do 2 eexists. split; [exact Hlog|].
  unfold apiMiddleware, authPageMiddleware, publicPageMiddleware.
  rewrite (@chain_first _ _ _ _ _ _ Hlog), (@chain_first _ _ _ _ _ _ Hlog), (@chain_first _ _ _ _ _ _ Hlog).
  repeat split. repeat constructor.
Qed.

(** X27. The entry point: for every request [middleware] returns a
    response, and that response is either the refusal of the rate
    limiter (status 429, for a path under /api/ only) or a response with
    none of the security, CORS, auth or rate limit headers, also for the
    protected pages and for the API requests the rate limiter lets
    through. *)
Theorem middleware_sets_no_protective_header (NODE_ENV : option DOMString)
    (toISOString : Z -> DOMString) (request : Request) (s : Server) :
  exists response s',
    middleware NODE_ENV toISOString request s = (Ok (Some response), s') /\
    (status response = 429%Z /\
     startsWith (pathname request) (js "/api/") = true
     \/
     status response = 200%Z /\
     Forall (fun name => Headers_get name (headers response) = None)
       protective_headers).
Proof.
  unfold middleware.
  destruct (startsWith (pathname request) (js "/api/")) eqn:Hapi.
  - destruct (rateLimitMiddleware_step request s) as (r & Hr & Hstatus & _).
    set (kept := filter _ (requestCounts s)) in *.
    set (data := match Map_get (client_ip request) kept with
                 | Some d => d
                 | None => {| count := 0; firstRequest := clock s 0%nat |}
                 end) in *.
    unfold bind at 1. rewrite Hr.
    destruct (route_maxRequests (pathname request) <? _)%Z.
    + rewrite Hstatus. cbn [Z.eqb Pos.eqb]. do 2 eexists.
      split; [reflexivity|]. left. auto.
    + rewrite Hstatus. cbn [Z.eqb Pos.eqb].
      destruct (loggingMiddleware_eq toISOString request
                  {| requestCounts :=
                       Map_set (client_ip request)
                         {| count := count data + 1;
                            firstRequest := firstRequest data |} kept;
                     server_console := server_console s;
                     clock := fun i => clock s (S i);
                     uuids := uuids s |}) as [line Hlog].
      unfold apiMiddleware. rewrite (@chain_first _ _ _ _ _ _ Hlog).
      do 2 eexists.
      split; [reflexivity|]. right. split; [reflexivity|].
      repeat constructor.
  - destruct (loggingMiddleware_eq toISOString request s) as [line Hlog].
    destruct (_ || _); unfold authPageMiddleware, publicPageMiddleware;
      rewrite (@chain_first _ _ _ _ _ _ Hlog); do 2 eexists;
      (split; [reflexivity|]); right; (split; [reflexivity|]);
      repeat constructor.
Qed.

Lemma requests_from_cons (ip : DOMString) (r : Request) rs :
  requests_from ip (r :: rs) =
  ((if DOMString_eqb (client_ip r) ip then 1 else 0)
   + requests_from ip rs)%Z.
Proof.
  unfold requests_from. cbn [filter].
  destruct (DOMString_eqb (client_ip r) ip); cbn [length]; lia.
Qed.

(** The count of an address over a run whose clock readings lie within
    one window of each other and of the first request of the address. *)
Lemma rate_limit_all_counts (ip : DOMString) (requests : list Request) :
  forall (s : Server) (c0 : Z),
    match Map_get ip (requestCounts s) with
    | Some d =>
        count d = c0 /\
        forall i, (i < length requests)%nat ->
                  (clock s i - firstRequest d <= 900000)%Z
    | None => c0 = 0%Z
    end ->
    (forall i j, (i < length requests)%nat -> (j < length requests)%nat ->
                 (clock s i - clock s j <= 900000)%Z) ->
    exists responses s',
      rate_limit_all requests s = (Ok responses, s') /\
      length responses = length requests /\
      counted ip s' = (c0 + requests_from ip requests)%Z /\
      forall i request response,
        nth_error requests i = Some request ->
        nth_error responses i = Some response ->
        client_ip request = ip ->
        (status response = 429%Z <->
         (route_maxRequests (pathname request)
          < c0 + requests_from ip (firstn (S i) requests))%Z).
Proof.
  induction requests as [|r rs IH]; intros s c0 Hentry Hclock.
  - exists [], s. split; [reflexivity|]. split; [reflexivity|]. split.
    + unfold counted, requests_from. cbn [filter length Z.of_nat].
      destruct (Map_get ip (requestCounts s)) as [d|];
        [destruct Hentry|]; lia.
    + intros [|i] request response Hreq; discriminate Hreq.
  - destruct (rateLimitMiddleware_step r s) as (resp & Hr & Hstatus & _).
    set (now := clock s 0%nat) in *.
    set (kept := filter _ (requestCounts s)) in *.
    set (data := match Map_get (client_ip r) kept with
                 | Some d => d
                 | None => {| count := 0; firstRequest := now |}
                 end) in *.
    set (s1 := {| requestCounts := _; server_console := _;
                  clock := _; uuids := _ |}) in Hr.
    set (own := if DOMString_eqb (client_ip r) ip then 1%Z else 0%Z).
    assert (Hkept : Map_get ip kept = Map_get ip (requestCounts s)).
    { destruct (Map_get ip (requestCounts s)) as [d|] eqn:Hget.
      - apply Map_get_filter_kept; [exact Hget|].
        destruct Hentry as [_ Hwin]. cbn [snd].
        apply negb_true_iff, Z.ltb_ge.
        specialize (Hwin 0%nat ltac:(cbn [length]; lia)). fold now in Hwin.
        lia.
      - apply Map_get_filter_None. exact Hget. }
    assert (Hown : (count data + 1 = c0 + own)%Z
                   \/ client_ip r <> ip).
    { subst own. destruct (DOMString_eqb (client_ip r) ip) eqn:E.
      - apply DOMString_eqb_eq in E. left. subst data. rewrite E, Hkept.
        destruct (Map_get ip (requestCounts s)) as [d|].
        + destruct Hentry as [<- _]. reflexivity.
        + subst c0. reflexivity.
      - right. intros H. rewrite H, DOMString_eqb_refl in E. discriminate. }
    destruct (IH s1 (c0 + own)%Z) as (resps & s' & Hrun & Hlen & Hcount & Hall).
    { subst s1. cbn [requestCounts clock].
      subst own. destruct (DOMString_eqb (client_ip r) ip) eqn:E.
      - apply DOMString_eqb_eq in E. rewrite E, Map_get_set_same.
        cbn [count firstRequest]. split.
        + destruct Hown as [H|H]; [exact H|contradiction].
        + intros i Hi. subst data. rewrite E, Hkept.
          destruct (Map_get ip (requestCounts s)) as [d|].
          * destruct Hentry as [_ Hwin].
            apply (Hwin (S i)). cbn [length]. lia.
          * cbn [firstRequest]. subst now.
            apply (Hclock (S i) 0%nat); cbn [length]; lia.
      - rewrite Map_get_set_other, Hkept.
        + destruct (Map_get ip (requestCounts s)) as [d|].
          * destruct Hentry as [Hc Hwin]. split; [lia|].
            intros i Hi. apply (Hwin (S i)). cbn [length]. lia.
          * lia.
        + intros H. rewrite H, DOMString_eqb_refl in E. discriminate. }
    { subst s1. cbn [clock]. intros i j Hi Hj.
      apply (Hclock (S i) (S j)); cbn [length]; lia. }
    exists (resp :: resps), s'.
    cbn [rate_limit_all]. unfold bind at 1. rewrite Hr.
    unfold bind at 1. rewrite Hrun. unfold ret.
    split; [reflexivity|]. split; [cbn [length]; congruence|].
    rewrite requests_from_cons. fold own.
    split; [rewrite Hcount; lia|].
    intros [|i] request response Hreq Hresp Hip.
    + cbn [nth_error] in Hreq, Hresp.
      injection Hreq as <-. injection Hresp as <-.
      cbn [firstn]. rewrite requests_from_cons.
      unfold requests_from at 1. cbn [filter length Z.of_nat].
      fold own. destruct Hown as [Hown|Hown]; [|contradiction].
      rewrite Z.add_0_r, <- Hown, Hstatus.
      destruct (Z.ltb_spec (route_maxRequests (pathname r))
                  (count data + 1)); split; intros H';
        try reflexivity; try lia; try discriminate.
    + cbn [nth_error] in Hreq, Hresp.
      change (firstn (S (S i)) (r :: rs)) with (r :: firstn (S i) rs).
      rewrite requests_from_cons. fold own.
      rewrite Z.add_assoc. apply Hall; assumption.
Qed.

(** X28. Counting of the rate limiter: one count per client address,
    over all routes together.  When an address has no entry and the
    clock readings of a run of requests lie within one window (15
    minutes) of each other, every request is answered, a request of the
    address is refused with status 429 exactly when the number of
    requests of that address so far, itself included, exceeds the limit
    of its route, and the table ends with that number as the count of
    the address; requests of other addresses do not count. *)
Theorem rate_limit_counts_per_address (ip : DOMString)
    (requests : list Request) (s : Server) :
  Map_get ip (requestCounts s) = None ->
  (forall i j, (i < length requests)%nat -> (j < length requests)%nat ->
               (clock s i - clock s j
                <= windowSize (rateLimit middlewareConfig))%Z) ->
  exists responses s',
    rate_limit_all requests s = (Ok responses, s') /\
    length responses = length requests /\
    counted ip s' = requests_from ip requests /\
    forall i request response,
      nth_error requests i = Some request ->
      nth_error responses i = Some response ->
      client_ip request = ip ->
      (status response = 429%Z <->
       (route_maxRequests (pathname request)
        < requests_from ip (firstn (S i) requests))%Z).
Proof.
  intros Hnone Hclock.
  destruct (@rate_limit_all_counts ip requests s 0%Z)
    as (responses & s' & H1 & H2 & H3 & H4).
  - rewrite Hnone. reflexivity.
  - exact Hclock.
  - exists responses, s'. rewrite Z.add_0_l in H3.
    repeat split; auto; apply H4; auto.
Qed.

(** X29. A new window: when the entry of a client is older than the
    window, the next request of the client is let through as the first
    of a new window, whatever the old count was: the entry becomes count
    1 at the time of the request, and the response announces the limit
    of the route less one as remaining. *)
Theorem rate_limit_window_restarts (request : Request) (s : Server)
    (d : RequestData) :
  NoDup (map fst (requestCounts s)) ->
  Map_get (client_ip request) (requestCounts s) = Some d ->
  (firstRequest d
   < clock s 0%nat - windowSize (rateLimit middlewareConfig))%Z ->
  exists response s',
    rateLimitMiddleware request no_limits s = (Ok response, s') /\
    status response = 200%Z /\
    Map_get (client_ip request) (requestCounts s') =
      Some {| count := 1; firstRequest := clock s 0%nat |} /\
    Headers_get "X-RateLimit-Remaining" (headers response) =
      Some (Number_toString (route_maxRequests (pathname request) - 1)).
Proof.
  intros Hnd Hget Hold.
  change (windowSize (rateLimit middlewareConfig)) with 900000%Z in Hold.
  destruct (rateLimitMiddleware_step request s)
    as (response & Hr & Hstatus & Hremaining).
  assert (Hstale :
    Map_get (client_ip request)
      (filter (fun entry =>
                 negb (firstRequest (snd entry) <? clock s 0%nat - 900000)%Z)
         (requestCounts s)) = None).
  { apply Map_get_filter_stale with (v := d);
      [exact Hnd | exact Hget |].
    cbn [snd]. apply negb_false_iff, Z.ltb_lt. exact Hold. }
  rewrite Hstale in Hr, Hstatus, Hremaining.
  cbn [count firstRequest] in Hr, Hstatus, Hremaining.
  assert (Hlimit : (route_maxRequests (pathname request) <? 0 + 1)%Z = false).
  { unfold route_maxRequests.
    destruct (startsWith _ _); [reflexivity|].
    destruct (startsWith _ _); reflexivity. }
  rewrite Hlimit in Hstatus, Hremaining.
  do 2 eexists. split; [exact Hr|]. split; [exact Hstatus|].
  split; [|exact Hremaining].
  cbn [requestCounts]. apply Map_get_set_same.
Qed.

(** X30. Invariant of the table: a call of the rate limiter keeps one
    entry for an address, and leaves no entry older than the window
    before the time of the call, so that the table holds only the
    addresses seen within the last window. *)
Theorem rate_limit_table_invariant (request : Request) (s : Server) :
  NoDup (map fst (requestCounts s)) ->
  exists response s',
    rateLimitMiddleware request no_limits s = (Ok response, s') /\
    NoDup (map fst (requestCounts s')) /\
    (forall key data, In (key, data) (requestCounts s') ->
       (clock s 0%nat - windowSize (rateLimit middlewareConfig)
        <= firstRequest data)%Z) /\
    (forall key, In key (map fst (requestCounts s')) ->
       key = client_ip request \/ In key (map fst (requestCounts s))).
Proof.
  intros Hnd.
  change (windowSize (rateLimit middlewareConfig)) with 900000%Z.
  destruct (rateLimitMiddleware_step request s) as (response & Hr & _).
  set (kept := filter _ (requestCounts s)) in *.
  assert (Hkept : forall e, In e kept ->
            (clock s 0%nat - 900000 <= firstRequest (snd e))%Z
            /\ In e (requestCounts s)).
  { intros e He. apply filter_In in He. destruct He as [Hin Hp].
    apply negb_true_iff, Z.ltb_ge in Hp. auto. }
  do 2 eexists. split; [exact Hr|]. cbn [requestCounts].
  split; [|split].
  - rewrite map_fst_Map_set.
    pose proof (NoDup_map_fst_filter
                  (fun entry =>
                     negb (firstRequest (snd entry)
                           <? clock s 0%nat - 900000)%Z) _ Hnd) as Hnd'.
    fold kept in Hnd'.
    destruct (Map_get (client_ip request) kept) eqn:Hget; [exact Hnd'|].
    apply NoDup_app; repeat split.
    + exact Hnd'.
    + constructor; [intros []|constructor].
    + intros k Hk [<-|[]]. apply Map_get_None in Hget. contradiction.
  - intros key data Hin. apply In_Map_set in Hin.
    destruct Hin as [[= -> ->]|Hin].
    + cbn [firstRequest].
      destruct (Map_get (client_ip request) kept) as [d0|] eqn:Hget.
      * apply Map_get_In in Hget. apply (Hkept _ Hget).
      * cbn [firstRequest]. lia.
    + apply (Hkept _ Hin).
  - intros key Hin. apply in_map_iff in Hin.
    destruct Hin as ([k0 d0] & <- & Hin). cbn [fst].
    apply In_Map_set in Hin. destruct Hin as [[= -> _]|Hin]; [auto|].
    right. apply in_map_iff. exists (k0, d0). split; [reflexivity|].
    apply (Hkept _ Hin).
Qed.

End MiddlewareFacts.

(** ** The request middleware on a server *)

Section MiddlewareRuns.
Import Middleware.

Lemma rate_limit_counts_per_address_witness :
  exists responses s',
    rate_limit_all burst server0 = (Ok responses, s') /\
    length responses = length burst /\
    counted (js "10.0.0.1") s' = requests_from (js "10.0.0.1") burst /\
    forall i request response,
      nth_error burst i = Some request ->
      nth_error responses i = Some response ->
      client_ip request = js "10.0.0.1" ->
      (status response = 429%Z <->
       (route_maxRequests (pathname request)
        < requests_from (js "10.0.0.1") (firstn (S i) burst))%Z).
Proof.
  apply (@rate_limit_counts_per_address (js "10.0.0.1") burst server0).
  - reflexivity.
  - intros i j Hi Hj. vm_compute in Hi, Hj.
    change (windowSize (rateLimit middlewareConfig)) with 900000%Z.
    cbn [server0 clock]. lia.
Defined.

Lemma rate_limit_window_restarts_witness :
  exists response s',
    rateLimitMiddleware (GET "/api/notes" "10.0.0.1") no_limits server_late
      = (Ok response, s') /\
    status response = 200%Z /\
    Map_get (js "10.0.0.1") (requestCounts s') =
      Some {| count := 1; firstRequest := 1700000000000 |} /\
    Headers_get "X-RateLimit-Remaining" (headers response) = Some (js "49").
Proof.
  apply (@rate_limit_window_restarts (GET "/api/notes" "10.0.0.1")
           server_late
           {| count := 51; firstRequest := 1700000000000 - 900001 |}).
  - constructor; [intros []|constructor].
  - reflexivity.
  - reflexivity.
Defined.

Lemma rate_limit_table_invariant_witness :
  exists response s',
    rateLimitMiddleware (GET "/api/notes" "10.0.0.2") no_limits server_late
      = (Ok response, s') /\
    NoDup (map fst (requestCounts s')) /\
    (forall key data, In (key, data) (requestCounts s') ->
       (clock server_late 0%nat - windowSize (rateLimit middlewareConfig)
        <= firstRequest data)%Z) /\
    (forall key, In key (map fst (requestCounts s')) ->
       key = client_ip (GET "/api/notes" "10.0.0.2")
       \/ In key (map fst (requestCounts server_late))).
Proof.
  apply (@rate_limit_table_invariant (GET "/api/notes" "10.0.0.2")
           server_late).
  constructor; [intros []|constructor].
Defined.

End MiddlewareRuns.
